(** * aws-autoscaling-rollout: a shallow embedding of the rollout script

    The script [aws-autoscaling-rollout.py] is a sequential program that talks
    to the AWS control plane through boto3 clients, sleeps between polls and
    runs shell hooks.  It is embedded here as a program in a small monad:
    the control plane is an oracle answering every request as a function of
    the history of the run, the state of the program is that history (the
    trace), and a computation ends by returning, by raising a Python
    exception, by calling [exit], or by exhausting the fuel given to its
    [while True] loops.

    [logger.info] lines and [parser.print_usage] only narrate; they are left
    out, except where evaluating the logged expression itself raises. *)

From Stdlib Require Import String Ascii List ZArith Bool Lia.
Import ListNotations.
Open Scope string_scope.
Open Scope list_scope.
Open Scope Z_scope.

(** ** Data returned by the control plane *)

(** An entry of [AutoScalingGroups[0]['Instances']].  [LaunchTemplate] holds
    the ['LaunchTemplateName'] of the nested dictionary when the key is there. *)
Record Instance := mkInstance {
  InstanceId : string;
  HealthStatus : string;
  LaunchConfigurationName : option string;
  LaunchTemplate : option string
}.

(** An entry of [describe_auto_scaling_groups()['AutoScalingGroups']].
    [MixedInstancesPolicy] holds the launch template name found under
    ['LaunchTemplate']['LaunchTemplateSpecification']['LaunchTemplateName']. *)
Record AutoScalingGroup := mkAutoScalingGroup {
  AutoScalingGroupName : string;
  DesiredCapacity : Z;
  MaxSize : Z;
  LoadBalancerNames : list string;
  TargetGroupARNs : list string;
  SuspendedProcesses : list string;
  Instances : list Instance;
  GroupLaunchConfigurationName : option string;
  MixedInstancesPolicy : option string
}.

(** An entry of [describe_load_balancers()['LoadBalancerDescriptions']]; its
    ['Instances'] are dictionaries with the single key ['InstanceId']. *)
Record LoadBalancerDescription := mkLoadBalancerDescription {
  LbInstances : list string
}.

(** An entry of [describe_instance_health()['InstanceStates']]. *)
Record InstanceState := mkInstanceState {
  StateInstanceId : string;
  State : string
}.

(** An entry of [describe_target_health()['TargetHealthDescriptions']]. *)
Record TargetHealthDescription := mkTargetHealthDescription {
  TargetId : string;
  TargetHealthState : string
}.

(** An instance of a reservation of [ec2.describe_instances]. *)
Record Ec2Instance := mkEc2Instance {
  Ec2InstanceId : string;
  PrivateIpAddress : option string;
  PublicIpAddress : option string
}.

(** The command line, as [optparse] leaves it in [options]. *)
Record Options := mkOptions {
  opt_autoscaler : string;
  opt_force : bool;
  opt_skip : bool;
  opt_waitforseconds : Z;
  opt_checkifnewserverisupcommand : string;
  opt_runbeforeserverdowncommand : string;
  opt_runafterserverdowncommand : string;
  opt_checkifinstancesneedtobeterminated : bool
}.

(** ** Requests, responses and traces *)

Inductive Call :=
| DescribeAutoScalingGroups (name : string)
| UpdateAutoScalingGroup (name : string) (max_size : Z)
| SuspendProcesses (name : string) (processes : list string)
| ResumeProcesses (name : string) (processes : option (list string))
| SetDesiredCapacity (name : string) (desired_capacity : Z)
| TerminateInstanceInAutoScalingGroup (instance_id : string) (should_decrement : bool)
| DescribeLoadBalancers (name : string)
| DescribeInstanceHealth (name : string) (instances : list string)
| DeregisterInstancesFromLoadBalancer (name : string) (instance_id : string)
| DescribeTargetHealth (arn : string)
| DeregisterTargets (arn : string) (instance_id : string)
| DescribeInstances (instance_id : string)
| ShellCall (command : string).

Inductive Resp :=
| RStatus (http_status_code : Z)
| RGroups (groups : list AutoScalingGroup)
| RLoadBalancers (descriptions : list LoadBalancerDescription)
| RInstanceStates (states : list InstanceState)
| RTargetHealth (descriptions : list TargetHealthDescription)
| RReservations (reservations : list (list Ec2Instance))
| RRetval (retval : Z)
| RClientError.

Inductive Event :=
| Api (c : Call) (r : Resp)
| Sleep (seconds : Z).

Definition Trace := list Event.

(** The world outside the script: what a request is answered, given all that
    happened before it. *)
Definition Env := Trace -> Call -> Resp.

Inductive Exn :=
| Exception (message : string)
| ClientError
| KeyError (key : string)
| TypeError
| ValueError
| NameError (name : string).

Inductive Outcome (A : Type) :=
| Ok (a : A)
| Raise (e : Exn)
| Exit (code : Z)
| OutOfFuel.
Arguments Ok {A} a.
Arguments Raise {A} e.
Arguments Exit {A} code.
Arguments OutOfFuel {A}.

(** The status the interpreter leaves to the shell: the argument of [exit],
    1 for an uncaught exception, 0 when the module body runs to its end. *)
Definition exit_status {A} (o : Outcome A) : option Z :=
  match o with
  | Ok _ => Some 0
  | Raise _ => Some 1
  | Exit code => Some code
  | OutOfFuel => None
  end.

Definition M (A : Type) := Env -> Trace -> Outcome A * Trace.

Definition ret {A} (a : A) : M A := fun _ t => (Ok a, t).

Definition bind {A B} (m : M A) (k : A -> M B) : M B :=
  fun env t =>
    match m env t with
    | (Ok a, t') => k a env t'
    | (Raise e, t') => (Raise e, t')
    | (Exit c, t') => (Exit c, t')
    | (OutOfFuel, t') => (OutOfFuel, t')
    end.

Definition raise {A} (e : Exn) : M A := fun _ t => (Raise e, t).
Definition exit {A} (code : Z) : M A := fun _ t => (Exit code, t).
Definition out_of_fuel {A} : M A := fun _ t => (OutOfFuel, t).

(** A boto3 client call: the request and its answer are appended to the trace. *)
Definition api (c : Call) : M Resp :=
  fun env t => (Ok (env t c), t ++ [Api c (env t c)]).

Definition time_sleep (seconds : Z) : M unit :=
  fun _ t => (Ok tt, t ++ [Sleep seconds]).

(** [try: m  except: h] with a bare [except], which also catches [SystemExit]. *)
Definition try_except {A} (m : M A) (h : M A) : M A :=
  fun env t =>
    match m env t with
    | (Raise _, t') => h env t'
    | (Exit _, t') => h env t'
    | r => r
    end.

Declare Scope monad_scope.
Delimit Scope monad_scope with monad.
Notation "x <- m ;; k" := (bind m (fun x => k))
  (at level 61, m at next level, right associativity) : monad_scope.
Notation "m ;;; k" := (bind m (fun _ => k))
  (at level 61, right associativity) : monad_scope.
Open Scope monad_scope.

(** [for x in xs: body x] *)
Fixpoint for_each {A} (xs : list A) (body : A -> M unit) : M unit :=
  match xs with
  | [] => ret tt
  | x :: xs' => body x ;;; for_each xs' body
  end.

(** [while True:]: the body ends an iteration either at [break], handing
    over what the code after the loop reads, or at the end of the loop body. *)
Definition break_with {A} (a : A) : M (option A) := ret (Some a).
Definition continue {A} : M (option A) := ret None.

Fixpoint while_true {A} (fuel : nat) (body : M (option A)) : M A :=
  match fuel with
  | O => out_of_fuel
  | S fuel' =>
      finished <- body ;;
      match finished with
      | Some a => ret a
      | None => while_true fuel' body
      end
  end.

(** [x in xs] on lists of strings. *)
Definition str_in (x : string) (xs : list string) : bool :=
  existsb (String.eqb x) xs.

(** ** Reading responses *)

(** [response['ResponseMetadata']['HTTPStatusCode']] *)
Definition http_status_code (r : Resp) : M Z :=
  match r with
  | RStatus code => ret code
  | RClientError => raise ClientError
  | _ => raise (KeyError "ResponseMetadata")
  end.

(** Python truth value of [d.get(key, None)] for a string entry. *)
Definition truthy (o : option string) : bool :=
  match o with
  | Some s => negb (String.eqb s "")
  | None => false
  end.

Definition option_string_eqb (a b : option string) : bool :=
  match a, b with
  | Some x, Some y => String.eqb x y
  | None, None => true
  | _, _ => false
  end.

(** [==] on instance dictionaries. *)
Definition Instance_eqb (a b : Instance) : bool :=
  String.eqb (InstanceId a) (InstanceId b)
  && String.eqb (HealthStatus a) (HealthStatus b)
  && option_string_eqb (LaunchConfigurationName a) (LaunchConfigurationName b)
  && option_string_eqb (LaunchTemplate a) (LaunchTemplate b).

(** [l.remove(x)]: drops the first element equal to [x]; [None] stands for
    the [ValueError] of a missing element. *)
Fixpoint list_remove (x : Instance) (l : list Instance) : option (list Instance) :=
  match l with
  | [] => None
  | y :: l' =>
      if Instance_eqb y x then Some l'
      else match list_remove x l' with
           | Some r => Some (y :: r)
           | None => None
           end
  end.

(** ** Helper functions (lines 113-687) *)

Definition get_load_balancer (loadbalancer_name : string) : M LoadBalancerDescription :=
  fetched_data <- api (DescribeLoadBalancers loadbalancer_name) ;;
  match fetched_data with
  | RLoadBalancers (d :: _) => ret d
  | RLoadBalancers [] => raise (Exception "No loadbalancer found with name")
  | _ => raise (Exception "Error searching for loadbalancer with name")
  end.

Definition update_auto_scaling_group_max_size
    (autoscaling_group_name : string) (max_size : Z) : M bool :=
  response <- api (UpdateAutoScalingGroup autoscaling_group_name max_size) ;;
  code <- http_status_code response ;;
  if code =? 200 then ret true else ret false.

Definition get_autoscaling_group (autoscaling_group_name : string) : M AutoScalingGroup :=
  fetched_data <- api (DescribeAutoScalingGroups autoscaling_group_name) ;;
  match fetched_data with
  | RGroups (g :: _) => ret g
  | _ => raise (Exception "Error searching for autoscaling group with name")
  end.

Definition get_autoscaling_group_configuration (autoscaler : AutoScalingGroup) : M string :=
  match GroupLaunchConfigurationName autoscaler with
  | Some c =>
      if truthy (Some c) then ret c
      else match MixedInstancesPolicy autoscaler with
           | Some template_name => ret template_name
           | None =>
               raise (Exception
                        ("Error searching configuration for autoscaling group with name ["
                         ++ AutoScalingGroupName autoscaler ++ "]")%string)
           end
  | None =>
      match MixedInstancesPolicy autoscaler with
      | Some template_name => ret template_name
      | None =>
          raise (Exception
                   ("Error searching configuration for autoscaling group with name ["
                    ++ AutoScalingGroupName autoscaler ++ "]")%string)
      end
  end.

Definition get_instance_configuration (instance : Instance) : M string :=
  match LaunchConfigurationName instance with
  | Some c =>
      if truthy (Some c) then ret c
      else match LaunchTemplate instance with
           | Some template_name => ret template_name
           | None =>
               raise (Exception
                        ("Error searching configuration for instance with id ["
                         ++ InstanceId instance ++ "]")%string)
           end
  | None =>
      match LaunchTemplate instance with
      | Some template_name => ret template_name
      | None =>
          raise (Exception
                   ("Error searching configuration for instance with id ["
                    ++ InstanceId instance ++ "]")%string)
      end
  end.

Fixpoint get_instances_to_skip (instances : list Instance) (autoscaler : AutoScalingGroup)
    : M (list Instance) :=
  match instances with
  | [] => ret []
  | instance :: rest =>
      group_configuration <- get_autoscaling_group_configuration autoscaler ;;
      instance_configuration <- get_instance_configuration instance ;;
      output <- get_instances_to_skip rest autoscaler ;;
      if String.eqb group_configuration instance_configuration
      then ret (instance :: output)
      else ret output
  end.

(** Called with a name ([inl]) or with a definition already fetched ([inr]),
    which the source tells apart with [type(...) is str]. *)
Definition get_suspended_processes (x : string + AutoScalingGroup) : M (list string) :=
  autoscaling_group <- match x with
                       | inl name => get_autoscaling_group name
                       | inr definition => ret definition
                       end ;;
  ret (SuspendedProcesses autoscaling_group).

Definition describe_instance (instance_id : string) : M (option Ec2Instance) :=
  instances <- api (DescribeInstances instance_id) ;;
  match instances with
  | RReservations reservations => ret (hd_error (concat reservations))
  | RClientError => raise ClientError
  | _ => raise (KeyError "Reservations")
  end.

Definition suspend_processes (autoscaling_group_name : string)
    (processes_to_suspend : list string) : M bool :=
  response <- api (SuspendProcesses autoscaling_group_name processes_to_suspend) ;;
  code <- http_status_code response ;;
  if code =? 200 then ret true else ret false.

Definition resume_processes (autoscaling_group_name : string)
    (processes_to_resume : list string) : M bool :=
  response <- api (ResumeProcesses autoscaling_group_name (Some processes_to_resume)) ;;
  code <- http_status_code response ;;
  if code =? 200 then ret true else ret false.

Definition resume_all_processes (autoscaling_group_name : string) : M bool :=
  response <- api (ResumeProcesses autoscaling_group_name None) ;;
  code <- http_status_code response ;;
  if code =? 200 then ret true else ret false.

Definition healthy (instance : Instance) : bool :=
  String.eqb (HealthStatus instance) "Healthy".

Definition get_autoscaler_healthy_instances (x : string + AutoScalingGroup)
    : M (list Instance) :=
  autoscaler_description <- match x with
                            | inl name => get_autoscaling_group name
                            | inr definition => ret definition
                            end ;;
  ret (filter healthy (Instances autoscaler_description)).

Definition get_number_of_autoscaler_healthy_instances (x : string + AutoScalingGroup) : M Z :=
  healthy_instances <- get_autoscaler_healthy_instances x ;;
  ret (Z.of_nat (length healthy_instances)).

Definition check_if_autoscaler_is_scaling (autoscaling_group_name : string) : M bool :=
  autoscaler <- api (DescribeAutoScalingGroups autoscaling_group_name) ;;
  match autoscaler with
  | RGroups [autoscaler] =>
      healthy_instance_count <- get_number_of_autoscaler_healthy_instances (inr autoscaler) ;;
      if negb (healthy_instance_count =? DesiredCapacity autoscaler)
      then ret true
      else ret false
  | RGroups _ => exit 1
  | RClientError => raise ClientError
  | _ => raise (KeyError "AutoScalingGroups")
  end.

Definition deregister_instance_from_load_balancer
    (instance_id loadbalancer_name : string) : M bool :=
  response <- api (DeregisterInstancesFromLoadBalancer loadbalancer_name instance_id) ;;
  code <- http_status_code response ;;
  if code =? 200 then ret true else ret false.

(** The [else] branch builds its log line from [loadbalancer_name], which is
    neither a parameter of this function nor a global of the module (line 370):
    evaluating it raises [NameError] before [return False] is reached. *)
Definition deregister_instance_from_target_group
    (instance_id target_group_arn : string) : M bool :=
  response <- api (DeregisterTargets target_group_arn instance_id) ;;
  code <- http_status_code response ;;
  if code =? 200 then ret true else raise (NameError "loadbalancer_name").

Definition wait_for_autoscaler_to_have_healthy_desired_instances
    (fuel : nat) (x : string + AutoScalingGroup) : M unit :=
  autoscaler_description <- match x with
                            | inl name => get_autoscaling_group name
                            | inr definition => ret definition
                            end ;;
  let desired_capacity := DesiredCapacity autoscaler_description in
  while_true fuel
    (healthy_instance_count <-
       get_number_of_autoscaler_healthy_instances
         (inl (AutoScalingGroupName autoscaler_description)) ;;
     if negb (desired_capacity =? healthy_instance_count)
     then time_sleep 5 ;;; continue
     else
       scaling <- check_if_autoscaler_is_scaling (AutoScalingGroupName autoscaler_description) ;;
       if scaling then time_sleep 5 ;;; continue else break_with tt).

(** As in [deregister_instance_from_target_group], the failure branch names
    the undefined [loadbalancer_name] in its log line (line 432), so that
    [exit(1)] is never reached. *)
Definition terminate_instance_in_auto_scaling_group
    (instance_id autoscaling_group_name : string) (decrement_capacity : bool) : M bool :=
  response <- (if decrement_capacity
               then api (TerminateInstanceInAutoScalingGroup instance_id true)
               else api (TerminateInstanceInAutoScalingGroup instance_id false)) ;;
  code <- http_status_code response ;;
  if code =? 200 then ret true else raise (NameError "loadbalancer_name").

Definition set_desired_capacity (autoscaling_group_name : string) (desired_capacity : Z)
    : M bool :=
  response <- api (SetDesiredCapacity autoscaling_group_name desired_capacity) ;;
  code <- http_status_code response ;;
  if code =? 200 then ret true else exit 1.

(** [elbv2.describe_target_health], called outside any [try]. *)
Definition describe_target_health (target_group_arn : string)
    : M (list TargetHealthDescription) :=
  response <- api (DescribeTargetHealth target_group_arn) ;;
  match response with
  | RTargetHealth descriptions => ret descriptions
  | RClientError => raise ClientError
  | _ => raise (KeyError "TargetHealthDescriptions")
  end.

Definition get_instance_ids_of_target_group (target_group_arn : string) : M (list string) :=
  response <- describe_target_health target_group_arn ;;
  ret (map TargetId response).

Definition get_instance_ids_of_load_balancer (x : string + LoadBalancerDescription)
    : M (list string) :=
  loadbalancer <- match x with
                  | inl name => get_load_balancer name
                  | inr definition => ret definition
                  end ;;
  ret (LbInstances loadbalancer).

(** The counting loops of the wait functions:
    [n = 0; for x in xs: if x in present: n = n + 1]. *)
Definition count_present (xs present : list string) : Z :=
  fold_left (fun n x => if str_in x present then n + 1 else n) xs 0.

Definition wait_for_complete_targetgroup_autoscaler_attachment
    (fuel : nat) (target_group_arn autoscaling_group_name : string) : M unit :=
  while_true fuel
    (target_group <- describe_target_health target_group_arn ;;
     let instance_health_flat :=
       map TargetId
         (filter (fun instance => String.eqb (TargetHealthState instance) "healthy")
                 target_group) in
     autoscaler <- get_autoscaling_group autoscaling_group_name ;;
     as_instances <- get_autoscaler_healthy_instances (inr autoscaler) ;;
     let successes := count_present (map InstanceId as_instances) instance_health_flat in
     if (successes >=? Z.of_nat (length as_instances))
        && (DesiredCapacity autoscaler =? successes)
     then break_with tt
     else time_sleep 10 ;;; continue).

Definition wait_for_instances_to_detach_from_loadbalancer
    (fuel : nat) (instance_ids : list string) (loadbalancer_name : string) : M unit :=
  while_true fuel
    (loadbalancer <- get_load_balancer loadbalancer_name ;;
     lb_instances <- get_instance_ids_of_load_balancer (inr loadbalancer) ;;
     let failures := count_present instance_ids lb_instances in
     if failures =? 0 then break_with tt else time_sleep 10 ;;; continue).

Definition wait_for_instances_to_detach_from_target_group
    (fuel : nat) (instance_ids : list string) (target_group_arn : string) : M unit :=
  while_true fuel
    (target_group <- describe_target_health target_group_arn ;;
     let instance_health_flat := map TargetId target_group in
     let failures := count_present instance_ids instance_health_flat in
     if failures =? 0 then break_with tt else time_sleep 10 ;;; continue).

Definition flatten_instance_health_array_from_loadbalancer
    (input_instance_array : list Instance) : list string :=
  map InstanceId input_instance_array.

Definition flatten_instance_health_array_from_loadbalancer_only_healthy
    (input_instance_array : list InstanceState) : list string :=
  map StateInstanceId
      (filter (fun instance => String.eqb (State instance) "InService") input_instance_array).

(** [elb.describe_instance_health], called outside any [try]. *)
Definition describe_instance_health (loadbalancer_name : string) (instances : list string)
    : M (list InstanceState) :=
  response <- api (DescribeInstanceHealth loadbalancer_name instances) ;;
  match response with
  | RInstanceStates states => ret states
  | RClientError => raise ClientError
  | _ => raise (KeyError "InstanceStates")
  end.

Definition wait_for_complete_loadbalancer_autoscaler_attachment
    (fuel : nat) (loadbalancer_name autoscaling_group_name : string) : M unit :=
  while_true fuel
    (loadbalancer <- get_load_balancer loadbalancer_name ;;
     temptwo <- get_instance_ids_of_load_balancer (inr loadbalancer) ;;
     instance_health <- describe_instance_health loadbalancer_name (LbInstances loadbalancer) ;;
     let instance_health_flat :=
       flatten_instance_health_array_from_loadbalancer_only_healthy instance_health in
     autoscaler <- get_autoscaling_group autoscaling_group_name ;;
     as_instances <- get_autoscaler_healthy_instances (inr autoscaler) ;;
     let successes := count_present (map InstanceId as_instances) instance_health_flat in
     if (successes >=? Z.of_nat (length as_instances))
        && (DesiredCapacity autoscaler =? successes)
     then break_with tt
     else time_sleep 10 ;;; continue).

(** ** The script body (lines 689-1037) *)

(** The nested loops of the source: [found] is set when some element of
    [array_two] carries the id, and the instance is kept when it was not. *)
Definition find_aws_instances_in_first_list_but_not_in_second
    (array_one array_two : list Instance) : list Instance :=
  fold_left
    (fun output instance_array_one =>
       let found :=
         fold_left
           (fun found instance_array_two =>
              if String.eqb (InstanceId instance_array_two) (InstanceId instance_array_one)
              then true else found)
           array_two false in
       if negb found then output ++ [instance_array_one] else output)
    array_one [].

(** [s.replace(old, new)] for a non-empty [old]: occurrences are replaced
    from left to right, without overlap. *)
Fixpoint replace_from (fuel : nat) (old new s : string) : string :=
  match fuel with
  | O => s
  | S fuel' =>
      if String.prefix old s
      then new ++ replace_from fuel' old new
                    (String.substring (String.length old)
                                      (String.length s - String.length old) s)
      else match s with
           | EmptyString => EmptyString
           | String c s' => String c (replace_from fuel' old new s')
           end
  end.

Definition replace (old new s : string) : string :=
  replace_from (S (String.length s)) old new s.

(** [subprocess.call(command, shell=True)] *)
Definition call (command : string) : M Z :=
  response <- api (ShellCall command) ;;
  match response with
  | RRetval retval => ret retval
  | _ => raise (Exception "call")
  end.

(** [details['PrivateIpAddress']], where [details] may be [None]. *)
Definition private_ip_address_of (details : option Ec2Instance) : M string :=
  match details with
  | None => raise TypeError
  | Some d =>
      match PrivateIpAddress d with
      | Some ip => ret ip
      | None => raise (KeyError "PrivateIpAddress")
      end
  end.

(** One pass of the [for new_instance in new_instances] loop of the custom
    up check (lines 867-888), threading [succeeded_health_up_check]. *)
Fixpoint health_up_check_batch (command : string) (new_instances : list Instance)
    (succeeded_health_up_check : bool) : M bool :=
  match new_instances with
  | [] => ret succeeded_health_up_check
  | new_instance :: rest =>
      succeeded <-
        try_except
          (instance_details <- describe_instance (InstanceId new_instance) ;;
           private_ip_address <- private_ip_address_of instance_details ;;
           let tmpcommand := replace "NEW_INSTANCE_ID" (InstanceId new_instance) command in
           let tmpcommand := replace "NEW_INSTANCE_PRIVATE_IP_ADDRESS" private_ip_address
                                     tmpcommand in
           let tmpcommand :=
             match instance_details with
             | Some {| PublicIpAddress := Some public_ip_address |} =>
                 replace "NEW_INSTANCE_PUBLIC_IP_ADDRESS" public_ip_address tmpcommand
             | _ => tmpcommand
             end in
           retval <- call tmpcommand ;;
           if negb (retval =? 0) then ret false else ret succeeded_health_up_check)
          (ret succeeded_health_up_check) ;;
      health_up_check_batch command rest succeeded
  end.

(** The [while True] loop of the custom up check (lines 864-895). *)
Definition external_health_up_check (fuel : nat) (command : string)
    (new_instances : list Instance) : M unit :=
  while_true fuel
    (succeeded_health_up_check <- health_up_check_batch command new_instances true ;;
     if succeeded_health_up_check then break_with tt else time_sleep 10 ;;; continue).

(** The templating and invocation shared by the two server-down hooks
    (lines 941-954 and 979-992). *)
Definition run_server_down_command (command : string)
    (old_instance_details : option Ec2Instance) : M unit :=
  old_private_ip_address <- private_ip_address_of old_instance_details ;;
  match old_instance_details with
  | None => raise TypeError
  | Some details =>
      let tmpcommand := replace "OLD_INSTANCE_ID" (Ec2InstanceId details) command in
      let tmpcommand := replace "OLD_INSTANCE_PRIVATE_IP_ADDRESS" old_private_ip_address
                                tmpcommand in
      let tmpcommand :=
        match PublicIpAddress details with
        | Some old_public_ip_address =>
            replace "OLD_INSTANCE_PUBLIC_IP_ADDRESS" old_public_ip_address tmpcommand
        | None => tmpcommand
        end in
      retval <- call tmpcommand ;;
      ret tt
  end.

(** The state of the module when the retire loop is about to start
    (line 810). *)
Record Globals := mkGlobals {
  autoscaler_old_max_size : Z;
  autoscaler_old_desired_capacity : Z;
  autoscaler : AutoScalingGroup;
  instances_to_kill : list Instance;
  current_instance_list : list Instance
}.

Definition required_processes : list string :=
  ["Terminate"; "Launch"; "HealthCheck"; "AddToLoadBalancer"].

Definition suspend_new_processes : list string :=
  ["ScheduledActions"; "AlarmNotification"; "AZRebalance"].

(** [for instance in instances_to_skip: instances_to_kill.remove(instance)] *)
Fixpoint remove_all (instances_to_skip instances_to_kill : list Instance)
    : M (list Instance) :=
  match instances_to_skip with
  | [] => ret instances_to_kill
  | instance :: rest =>
      match list_remove instance instances_to_kill with
      | Some remaining => remove_all rest remaining
      | None => raise ValueError
      end
  end.

(** The waits on every attached load balancer and target group
    (lines 763-774 and 848-859); the [len(...) > 0] guards around the [for]
    loops only choose what is logged. *)
Definition wait_for_attachments (fuel : nat) (options : Options)
    (autoscaler : AutoScalingGroup) : M unit :=
  for_each (LoadBalancerNames autoscaler)
    (fun name =>
       wait_for_complete_loadbalancer_autoscaler_attachment fuel name (opt_autoscaler options)) ;;;
  for_each (TargetGroupARNs autoscaler)
    (fun name =>
       wait_for_complete_targetgroup_autoscaler_attachment fuel name (opt_autoscaler options)).

(** Lines 701-793, once the group was found: head room, process
    suspension, the base line waits and the choice of the instances to
    retire. *)
Definition prepare_group (fuel : nat) (options : Options) (autoscaler : AutoScalingGroup)
    : M Globals :=
  let autoscaler_old_max_size := MaxSize autoscaler in
  let autoscaler_old_desired_capacity := DesiredCapacity autoscaler in
  (if autoscaler_old_max_size =? autoscaler_old_desired_capacity
   then
     updated <- update_auto_scaling_group_max_size (opt_autoscaler options)
                  (autoscaler_old_max_size + 1) ;;
     if updated then ret tt else exit 1
   else ret tt) ;;;
  (if opt_force options
   then resume_all_processes (opt_autoscaler options) ;;; ret tt
   else
     suspended <- get_suspended_processes (inr autoscaler) ;;
     let succeed := negb (existsb (fun process => str_in process suspended)
                                  required_processes) in
     if negb succeed then exit 1 else ret tt) ;;;
  suspend_processes (opt_autoscaler options) suspend_new_processes ;;;
  time_sleep 3 ;;;
  autoscaler <- get_autoscaling_group (opt_autoscaler options) ;;
  wait_for_autoscaler_to_have_healthy_desired_instances fuel (inr autoscaler) ;;;
  (if negb (opt_force options)
   then wait_for_attachments fuel options autoscaler
   else ret tt) ;;;
  autoscaler <- get_autoscaling_group (opt_autoscaler options) ;;
  instances_to_kill <- get_autoscaler_healthy_instances (inr autoscaler) ;;
  instances_to_kill <-
    (if opt_checkifinstancesneedtobeterminated options
     then
       instances_to_skip <- get_instances_to_skip instances_to_kill autoscaler ;;
       remove_all instances_to_skip instances_to_kill
     else ret instances_to_kill) ;;
  current_instance_list <- get_autoscaler_healthy_instances (inr autoscaler) ;;
  ret (mkGlobals autoscaler_old_max_size autoscaler_old_desired_capacity autoscaler
                 instances_to_kill current_instance_list).

(** Lines 102-793: the start-up check of the command line, the lookup of
    the group, which [get_autoscaling_group] never answers with [False] but
    with an exception, and the preparation above. *)
Definition prepare (fuel : nat) (options : Options) : M Globals :=
  (if String.eqb (opt_autoscaler options) "" then exit 1 else ret tt) ;;;
  autoscaler <- get_autoscaling_group (opt_autoscaler options) ;;
  prepare_group fuel options autoscaler.

(** Lines 834-843: poll until some healthy instance of the group was not in
    [current_instance_list]. *)
Definition wait_for_new_instances (fuel : nat) (options : Options)
    (current_instance_list : list Instance) : M (list Instance) :=
  while_true fuel
    (new_current_instance_list <-
       get_autoscaler_healthy_instances (inl (opt_autoscaler options)) ;;
     let new_instances :=
       find_aws_instances_in_first_list_but_not_in_second
         new_current_instance_list current_instance_list in
     if (Z.of_nat (length new_instances) =? 0)
     then time_sleep 10 ;;; continue
     else break_with new_instances).

(** Lines 899-909: de-register the instance from what the group is attached to. *)
Definition deregister_instance (autoscaler : AutoScalingGroup) (instance : Instance)
    : M unit :=
  for_each (LoadBalancerNames autoscaler)
    (fun name => deregister_instance_from_load_balancer (InstanceId instance) name ;;; ret tt) ;;;
  for_each (TargetGroupARNs autoscaler)
    (fun name => deregister_instance_from_target_group (InstanceId instance) name ;;; ret tt).

(** Lines 911-935: poll every source until the instance left it. *)
Definition wait_for_instance_removal (fuel : nat) (autoscaler : AutoScalingGroup)
    (instance : Instance) : M unit :=
  for_each (LoadBalancerNames autoscaler)
    (fun name =>
       while_true fuel
         (instance_ids <- get_instance_ids_of_load_balancer (inl name) ;;
          if str_in (InstanceId instance) instance_ids
          then time_sleep 10 ;;; continue
          else break_with tt)) ;;;
  for_each (TargetGroupARNs autoscaler)
    (fun name =>
       while_true fuel
         (instance_ids <- get_instance_ids_of_target_group name ;;
          if str_in (InstanceId instance) instance_ids
          then time_sleep 10 ;;; continue
          else break_with tt)).

(** Lines 965-972: the last pass of the loop terminates with the decrement. *)
Definition terminate_instance (options : Options) (count : nat) (i : nat)
    (instance : Instance) (downscaled : bool) : M bool :=
  if (Z.of_nat i + 1 =? Z.of_nat count)
  then
    terminate_instance_in_auto_scaling_group
      (InstanceId instance) (opt_autoscaler options) true ;;;
    ret true
  else
    terminate_instance_in_auto_scaling_group
      (InstanceId instance) (opt_autoscaler options) false ;;;
    ret downscaled.

(** Lines 820-992: [for i, instance in enumerate(instances_to_kill)], from
    index [i] on; [count] is [len(instances_to_kill)].  The loop hands over
    [downscaled]. *)
Fixpoint retire_loop (fuel : nat) (options : Options) (autoscaler : AutoScalingGroup)
    (count : nat) (i : nat) (remaining : list Instance)
    (current_instance_list : list Instance) (downscaled : bool) : M bool :=
  match remaining with
  | [] => ret downscaled
  | instance :: rest =>
      time_sleep 3 ;;;
      old_instance_details <- describe_instance (InstanceId instance) ;;
      wait_for_autoscaler_to_have_healthy_desired_instances fuel
        (inl (opt_autoscaler options)) ;;;
      new_instances <- wait_for_new_instances fuel options current_instance_list ;;
      (if negb (opt_skip options)
       then wait_for_attachments fuel options autoscaler
       else ret tt) ;;;
      (if negb (String.eqb (opt_checkifnewserverisupcommand options) "")
       then external_health_up_check fuel (opt_checkifnewserverisupcommand options)
                                     new_instances
       else ret tt) ;;;
      deregister_instance autoscaler instance ;;;
      wait_for_instance_removal fuel autoscaler instance ;;;
      (if negb (String.eqb (opt_runbeforeserverdowncommand options) "")
       then run_server_down_command (opt_runbeforeserverdowncommand options)
                                    old_instance_details
       else ret tt) ;;;
      (if opt_waitforseconds options >? 0
       then time_sleep (opt_waitforseconds options)
       else ret tt) ;;;
      time_sleep 2 ;;;
      current_instance_list <-
        get_autoscaler_healthy_instances (inl (opt_autoscaler options)) ;;
      downscaled <- terminate_instance options count i instance downscaled ;;
      (if negb (String.eqb (opt_runafterserverdowncommand options) "")
       then time_sleep 2 ;;;
            run_server_down_command (opt_runafterserverdowncommand options)
                                    old_instance_details
       else ret tt) ;;;
      retire_loop fuel options autoscaler count (S i) rest current_instance_list downscaled
  end.

(** Lines 996-1009: the final detachment waits. *)
Definition wait_for_detachments (fuel : nat) (autoscaler : AutoScalingGroup)
    (instances_to_kill_flat : list string) : M unit :=
  for_each (LoadBalancerNames autoscaler)
    (fun name => wait_for_instances_to_detach_from_loadbalancer fuel instances_to_kill_flat name) ;;;
  for_each (TargetGroupARNs autoscaler)
    (fun name => wait_for_instances_to_detach_from_target_group fuel instances_to_kill_flat name).

(** Lines 811-1037: the capacity bump, the retire loop and the restoration
    of what the script changed. *)
Definition rollout (fuel : nat) (options : Options) (g : Globals) : M unit :=
  (if Z.of_nat (length (instances_to_kill g)) >? 0
   then set_desired_capacity (opt_autoscaler options)
                             (DesiredCapacity (autoscaler g) + 1) ;;; ret tt
   else ret tt) ;;;
  downscaled <- retire_loop fuel options (autoscaler g)
                  (length (instances_to_kill g)) O (instances_to_kill g)
                  (current_instance_list g) false ;;
  let instances_to_kill_flat :=
    flatten_instance_health_array_from_loadbalancer (instances_to_kill g) in
  (if negb (opt_force options)
   then wait_for_detachments fuel (autoscaler g) instances_to_kill_flat
   else ret tt) ;;;
  (if Bool.eqb downscaled false
   then set_desired_capacity (opt_autoscaler options)
                             (autoscaler_old_desired_capacity g) ;;; ret tt
   else ret tt) ;;;
  (if opt_force options
   then resume_all_processes (opt_autoscaler options) ;;; ret tt
   else resume_processes (opt_autoscaler options) suspend_new_processes ;;; ret tt) ;;;
  (if autoscaler_old_max_size g =? autoscaler_old_desired_capacity g
   then
     updated <- update_auto_scaling_group_max_size (opt_autoscaler options)
                  (autoscaler_old_max_size g) ;;
     if updated then ret tt else exit 1
   else ret tt) ;;;
  exit 0.

(** The whole module, run from an empty history. *)
Definition script (fuel : nat) (options : Options) : M unit :=
  g <- prepare fuel options ;;
  rollout fuel options g.

Definition run (fuel : nat) (options : Options) (env : Env) : Outcome unit * Trace :=
  script fuel options env [].

(** [instance] carries the id of some element of [instances]. *)
Definition id_in (instance : Instance) (instances : list Instance) : bool :=
  existsb (fun other => String.eqb (InstanceId other) (InstanceId instance)) instances.


(** ** Example environments *)

(** A source that lists no member, whatever is asked. *)
Definition env_detached : Env :=
  fun _ c =>
    match c with
    | DescribeLoadBalancers _ => RLoadBalancers [mkLoadBalancerDescription []]
    | DescribeTargetHealth _ => RTargetHealth []
    | _ => RClientError
    end.

(** A source that still lists ["i-old"], as a draining target. *)
Definition env_attached : Env :=
  fun _ c =>
    match c with
    | DescribeLoadBalancers _ => RLoadBalancers [mkLoadBalancerDescription ["i-old"]]
    | DescribeTargetHealth _ => RTargetHealth [mkTargetHealthDescription "i-old" "draining"]
    | _ => RClientError
    end.

(** A group of one healthy instance with desired capacity 1 and max size 2. *)
Definition one_instance_group : AutoScalingGroup :=
  mkAutoScalingGroup "web" 1 2 ["lb"] ["tg"] []
    [mkInstance "i-1" "Healthy" (Some "lc-1") None] (Some "lc-2") None.

(** The sources report the instance of [one_instance_group] in service. *)
Definition env_in_service : Env :=
  fun _ c =>
    match c with
    | DescribeAutoScalingGroups _ => RGroups [one_instance_group]
    | DescribeLoadBalancers _ => RLoadBalancers [mkLoadBalancerDescription ["i-1"]]
    | DescribeInstanceHealth _ _ => RInstanceStates [mkInstanceState "i-1" "InService"]
    | DescribeTargetHealth _ => RTargetHealth [mkTargetHealthDescription "i-1" "healthy"]
    | _ => RClientError
    end.

(** The sources list the instance of [one_instance_group], but not yet in service. *)
Definition env_out_of_service : Env :=
  fun _ c =>
    match c with
    | DescribeAutoScalingGroups _ => RGroups [one_instance_group]
    | DescribeLoadBalancers _ => RLoadBalancers [mkLoadBalancerDescription ["i-1"]]
    | DescribeInstanceHealth _ _ => RInstanceStates [mkInstanceState "i-1" "OutOfService"]
    | DescribeTargetHealth _ => RTargetHealth [mkTargetHealthDescription "i-1" "initial"]
    | _ => RClientError
    end.

(** Number of healthy members in a fetched group. *)
Definition healthy_count (group : AutoScalingGroup) : Z :=
  Z.of_nat (length (filter healthy (Instances group))).

(** Two healthy members, desired capacity 2: the descriptor handed to the
    base line wait, and what the first poll of the wait still sees. *)
Definition group_of_two : AutoScalingGroup :=
  mkAutoScalingGroup "web" 2 4 [] [] []
    [mkInstance "i-1" "Healthy" (Some "lc-1") None;
     mkInstance "i-2" "Healthy" (Some "lc-1") None] (Some "lc-1") None.

(** The same group a moment later: desired capacity raised to 3 and a third
    healthy member. *)
Definition group_of_three : AutoScalingGroup :=
  mkAutoScalingGroup "web" 3 4 [] [] []
    [mkInstance "i-1" "Healthy" (Some "lc-1") None;
     mkInstance "i-2" "Healthy" (Some "lc-1") None;
     mkInstance "i-3" "Healthy" (Some "lc-1") None] (Some "lc-1") None.

(** The group is scaled up between the first and the second request. *)
Definition env_scaled_between_fetches : Env :=
  fun t c =>
    match c with
    | DescribeAutoScalingGroups _ =>
        match t with
        | [] => RGroups [group_of_two]
        | _ => RGroups [group_of_three]
        end
    | _ => RClientError
    end.

(** Every request fails at the client, except that shell hooks exit 0. *)
Definition env_unreachable : Env :=
  fun _ c =>
    match c with
    | ShellCall _ => RRetval 0
    | _ => RClientError
    end.

(** ** Observations on traces *)

(** The requests that change the fleet: max size, desired capacity,
    suspended processes, membership of a traffic source, termination. *)
Definition mutating (c : Call) : bool :=
  match c with
  | UpdateAutoScalingGroup _ _
  | SuspendProcesses _ _
  | ResumeProcesses _ _
  | SetDesiredCapacity _ _
  | TerminateInstanceInAutoScalingGroup _ _
  | DeregisterInstancesFromLoadBalancer _ _
  | DeregisterTargets _ _ => true
  | _ => false
  end.

Definition mutation_calls (t : Trace) : list Call :=
  flat_map (fun e => match e with
                     | Api c _ => if mutating c then [c] else []
                     | Sleep _ => []
                     end) t.

(** The requests that change the capacity of the group; the script gives up
    as soon as one of them is not answered with status 200. *)
Definition capacity (c : Call) : bool :=
  match c with
  | UpdateAutoScalingGroup _ _
  | SetDesiredCapacity _ _
  | TerminateInstanceInAutoScalingGroup _ _ => true
  | _ => false
  end.

Definition capacity_events (t : Trace) : list (Call * Resp) :=
  flat_map (fun e => match e with
                     | Api c r => if capacity c then [(c, r)] else []
                     | Sleep _ => []
                     end) t.

(** The termination requests of a run, with their decrement flag. *)
Definition terminate_calls (t : Trace) : list (string * bool) :=
  flat_map (fun e => match e with
                     | Api (TerminateInstanceInAutoScalingGroup id flag) _ => [(id, flag)]
                     | _ => []
                     end) t.

(** The max size requests of a run, with their answers. *)
Definition max_size_updates (t : Trace) : list (Z * Resp) :=
  flat_map (fun e => match e with
                     | Api (UpdateAutoScalingGroup _ max_size) r => [(max_size, r)]
                     | _ => []
                     end) t.

(** The desired capacity requests of a run, with their answers. *)
Definition desired_capacity_updates (t : Trace) : list (Z * Resp) :=
  flat_map (fun e => match e with
                     | Api (SetDesiredCapacity _ desired_capacity) r => [(desired_capacity, r)]
                     | _ => []
                     end) t.

(** The control plane's side of the requests the script makes: an
    acknowledged [set_desired_capacity] sets the desired capacity, an
    acknowledged termination with [ShouldDecrementDesiredCapacity] lowers it
    by one.  [desired_capacity_after d t] is the desired capacity the
    requests of [t] leave, starting from [d]. *)
Definition desired_capacity_after (d : Z) (t : Trace) : Z :=
  fold_left
    (fun d e =>
       match e with
       | Api (SetDesiredCapacity _ v) (RStatus 200) => v
       | Api (TerminateInstanceInAutoScalingGroup _ true) (RStatus 200) => d - 1
       | _ => d
       end) t d.

(** A computation stopped without a value, and not by [exit(0)]. *)
Definition stopped {A} (o : Outcome A) : Prop :=
  match o with
  | Ok _ => False
  | Exit code => code = 1
  | Raise _ | OutOfFuel => True
  end.

(** A computation that ended the process with status 1: by an uncaught
    exception or by [exit(1)]. *)
Definition failed {A} (o : Outcome A) : Prop :=
  match o with
  | Raise _ => True
  | Exit code => code = 1
  | Ok _ | OutOfFuel => False
  end.

(** A computation that returned, or stopped. *)
Definition proper {A} (o : Outcome A) : Prop :=
  match o with
  | Exit code => code = 1
  | _ => True
  end.

(** [quiet m]: [m] makes no capacity request and never calls [exit(0)]. *)
Definition quiet {A} (m : M A) : Prop :=
  forall env t,
    capacity_events (snd (m env t)) = capacity_events t /\ proper (fst (m env t)).

(** [issues final calls o events]: the capacity requests [calls] are made in
    order, each answered with status 200, until they are all made and the
    computation ends as [final] says, or the computation stops between two
    requests, or a request is not answered with status 200, which ends the
    process with status 1. *)
Inductive issues {A} (final : Outcome A -> Prop)
    : list Call -> Outcome A -> list (Call * Resp) -> Prop :=
| issues_done (o : Outcome A) :
    final o -> issues final [] o []
| issues_stop (calls : list Call) (o : Outcome A) :
    stopped o -> issues final calls o []
| issues_fail (c : Call) (calls : list Call) (r : Resp) (o : Outcome A) :
    r <> RStatus 200 -> failed o -> issues final (c :: calls) o [(c, r)]
| issues_ok (c : Call) (calls : list Call) (o : Outcome A) (events : list (Call * Resp)) :
    issues final calls o events ->
    issues final (c :: calls) o ((c, RStatus 200) :: events).

(** [follows_at env t final calls m]: the capacity requests [m] adds to the
    trace [t] in the environment [env] are as [issues final calls] says;
    [follows] says so of every environment and trace. *)
Definition follows_at {A} (env : Env) (t : Trace) (final : Outcome A -> Prop)
    (calls : list Call) (m : M A) : Prop :=
  exists events,
    capacity_events (snd (m env t)) = capacity_events t ++ events
    /\ issues final calls (fst (m env t)) events.

Definition follows {A} (final : Outcome A -> Prop) (calls : list Call) (m : M A) : Prop :=
  forall env t, follows_at env t final calls m.

(** The outcomes that carry a value. *)
Definition returned {A} (o : Outcome A) : Prop :=
  match o with
  | Ok _ => True
  | _ => False
  end.

(** The same way of stopping, seen at two result types. *)
Definition same_stop {A B} (o : Outcome A) (o' : Outcome B) : Prop :=
  match o, o' with
  | Raise e, Raise e' => e = e'
  | Exit c, Exit c' => c = c'
  | OutOfFuel, OutOfFuel => True
  | _, _ => False
  end.

(** The termination requests the retire loop makes for [remaining]: the
    decrement goes with the last one. *)
Fixpoint retire_calls (remaining : list Instance) : list Call :=
  match remaining with
  | [] => []
  | instance :: rest =>
      TerminateInstanceInAutoScalingGroup
        (InstanceId instance) (match rest with [] => true | _ => false end)
      :: retire_calls rest
  end.

(** The capacity requests of a run that got as far as the retire loop. *)
Definition prepare_calls (options : Options) (group : AutoScalingGroup) : list Call :=
  if MaxSize group =? DesiredCapacity group
  then [UpdateAutoScalingGroup (opt_autoscaler options) (MaxSize group + 1)]
  else [].

Definition rollout_calls (options : Options) (g : Globals) : list Call :=
  (match instances_to_kill g with
   | [] => []
   | _ => [SetDesiredCapacity (opt_autoscaler options) (DesiredCapacity (autoscaler g) + 1)]
   end)
  ++ retire_calls (instances_to_kill g)
  ++ (match instances_to_kill g with
      | [] => [SetDesiredCapacity (opt_autoscaler options) (autoscaler_old_desired_capacity g)]
      | _ => []
      end)
  ++ (if autoscaler_old_max_size g =? autoscaler_old_desired_capacity g
      then [UpdateAutoScalingGroup (opt_autoscaler options) (autoscaler_old_max_size g)]
      else []).

(** What the observations above read off a capacity request. *)
Definition termination_of (c : Call) : list (string * bool) :=
  match c with
  | TerminateInstanceInAutoScalingGroup id flag => [(id, flag)]
  | _ => []
  end.

Definition max_size_of (e : Call * Resp) : list (Z * Resp) :=
  match e with
  | (UpdateAutoScalingGroup _ max_size, r) => [(max_size, r)]
  | _ => []
  end.

Definition desired_capacity_of (e : Call * Resp) : list (Z * Resp) :=
  match e with
  | (SetDesiredCapacity _ desired_capacity, r) => [(desired_capacity, r)]
  | _ => []
  end.

Definition apply_request (d : Z) (e : Call * Resp) : Z :=
  match e with
  | (SetDesiredCapacity _ v, RStatus 200) => v
  | (TerminateInstanceInAutoScalingGroup _ true, RStatus 200) => d - 1
  | _ => d
  end.

(** All the requests answered with status 200. *)
Definition acknowledged (calls : list Call) : list (Call * Resp) :=
  map (fun c => (c, RStatus 200)) calls.

(** [aws-autoscaling-rollout.py -a web] *)
Definition plain_options : Options :=
  mkOptions "web" false false 0 "" "" "" false.

(** A region without any autoscaling group; every mutation would succeed. *)
Definition env_no_group : Env :=
  fun _ c =>
    match c with
    | DescribeAutoScalingGroups _ => RGroups []
    | ShellCall _ => RRetval 0
    | _ => RStatus 200
    end.

(** *** A simulated control plane

    The group "web" has two healthy members, desired capacity 2 and max
    size 2, and is attached to the load balancer "lb" and the target group
    "tg".  Raising the desired capacity launches "i-c"; a termination
    without decrement is made up for by a fresh instance; de-registered
    instances leave the sources at once.  De-registrations from the target
    group are answered with [deregister_targets_status], every other
    mutation with status 200. *)

Definition capacity_raised (t : Trace) : bool :=
  negb (Nat.eqb (length (desired_capacity_updates t)) 0).

Definition fleet_ids (t : Trace) : list string :=
  match length (terminate_calls t) with
  | O => if capacity_raised t then ["i-a"; "i-b"; "i-c"] else ["i-a"; "i-b"]
  | S O => ["i-b"; "i-c"; "i-d"]
  | _ => ["i-c"; "i-d"]
  end.

Definition fleet (t : Trace) : AutoScalingGroup :=
  mkAutoScalingGroup "web" (Z.of_nat (length (fleet_ids t))) 2 ["lb"] ["tg"] []
    (map (fun id => mkInstance id "Healthy" (Some "lc-2") None) (fleet_ids t))
    (Some "lc-2") None.

Definition deregistered (t : Trace) (id : string) : bool :=
  existsb (fun e => match e with
                    | Api (DeregisterInstancesFromLoadBalancer _ i) _
                    | Api (DeregisterTargets _ i) _ => String.eqb i id
                    | _ => false
                    end) t.

Definition source_ids (t : Trace) : list string :=
  filter (fun id => negb (deregistered t id)) (fleet_ids t).

Definition env_rolling (deregister_targets_status : Z) : Env :=
  fun t c =>
    match c with
    | DescribeAutoScalingGroups _ => RGroups [fleet t]
    | DescribeLoadBalancers _ => RLoadBalancers [mkLoadBalancerDescription (source_ids t)]
    | DescribeInstanceHealth _ instances =>
        RInstanceStates (map (fun id => mkInstanceState id "InService") instances)
    | DescribeTargetHealth _ =>
        RTargetHealth (map (fun id => mkTargetHealthDescription id "healthy") (source_ids t))
    | DescribeInstances id => RReservations [[mkEc2Instance id (Some "10.0.0.7") None]]
    | ShellCall _ => RRetval 0
    | DeregisterTargets _ _ => RStatus deregister_targets_status
    | _ => RStatus 200
    end.

(** [aws-autoscaling-rollout.py -a web -c]: instances already on the
    current launch configuration are left alone. *)
Definition skip_updated_options : Options :=
  mkOptions "web" false false 0 "" "" "" true.

(** *** A client that raises

    botocore answers a request with a response dictionary only when the
    HTTP status is below 300; on any other status the client call raises
    [ClientError]. *)

(** A mutating request that the client refused by raising [ClientError]. *)
Definition rejected (e : Event) : bool :=
  match e with
  | Api c RClientError => mutating c
  | _ => false
  end.

(** [ends_at_rejection o l]: if a request among the events [l] was rejected,
    it is the last of them, and the computation ended as [o] by the uncaught
    [ClientError]. *)
Fixpoint ends_at_rejection {A} (o : Outcome A) (l : Trace) : Prop :=
  match l with
  | [] => True
  | e :: rest =>
      if rejected e then rest = [] /\ o = Raise ClientError
      else ends_at_rejection o rest
  end.

(** [calm m]: [m] only adds events to the trace, none of them a rejected
    request. *)
Definition calm {A} (m : M A) : Prop :=
  forall env t, exists l, snd (m env t) = t ++ l /\ existsb rejected l = false.

(** [fail_fast m]: [m] only adds events to the trace, and a rejected request
    is the last thing it does. *)
Definition fail_fast {A} (m : M A) : Prop :=
  forall env t,
    exists l, snd (m env t) = t ++ l /\ ends_at_rejection (fst (m env t)) l.

(** The control plane [env] behind a client that raises on the requests
    [rejects] picks. *)
Definition env_rejecting (rejects : Call -> bool) (env : Env) : Env :=
  fun t c => if rejects c then RClientError else env t c.

(** The simulated control plane refuses every de-registration from a load
    balancer. *)
Definition env_load_balancer_rejects : Env :=
  env_rejecting (fun c => match c with
                          | DeregisterInstancesFromLoadBalancer _ _ => true
                          | _ => false
                          end)
                (env_rolling 200).

(** The simulated control plane refuses every de-registration from a target
    group. *)
Definition env_target_group_rejects : Env :=
  env_rejecting (fun c => match c with
                          | DeregisterTargets _ _ => true
                          | _ => false
                          end)
                (env_rolling 200).

(** ** Further functions of the script *)

(** Lines 586-621; the script defines this wait and never calls it. *)
Definition wait_for_complete_targetgroup_autoscaler_detachment
    (fuel : nat) (target_group_arn autoscaling_group_name : string) : M unit :=
  while_true fuel
    (target_group <- describe_target_health target_group_arn ;;
     let instance_health_flat := map TargetId target_group in
     as_instances <- get_autoscaler_healthy_instances (inl autoscaling_group_name) ;;
     let failures := count_present (map InstanceId as_instances) instance_health_flat in
     if failures =? 0 then break_with tt else time_sleep 10 ;;; continue).

(** ** Further example environments *)

(** The load balancer was deleted: the description request answers with an
    empty list. *)
Definition env_no_load_balancer : Env :=
  fun _ c =>
    match c with
    | DescribeLoadBalancers _ => RLoadBalancers []
    | _ => RClientError
    end.

(** Desired capacity 2 while the second instance is still launching: one
    healthy member, which the sources already report in service. *)
Definition launching_group : AutoScalingGroup :=
  mkAutoScalingGroup "web" 2 3 ["lb"] ["tg"] []
    [mkInstance "i-1" "Healthy" (Some "lc-1") None;
     mkInstance "i-2" "Unhealthy" (Some "lc-2") None] (Some "lc-2") None.

Definition env_launching : Env :=
  fun _ c =>
    match c with
    | DescribeAutoScalingGroups _ => RGroups [launching_group]
    | DescribeLoadBalancers _ => RLoadBalancers [mkLoadBalancerDescription ["i-1"]]
    | DescribeInstanceHealth _ _ => RInstanceStates [mkInstanceState "i-1" "InService"]
    | DescribeTargetHealth _ => RTargetHealth [mkTargetHealthDescription "i-1" "healthy"]
    | _ => RClientError
    end.

(** The descriptor of [launching_group] as a caller that froze desired
    capacity 1 holds it. *)
Definition launching_group_settled : AutoScalingGroup :=
  mkAutoScalingGroup "web" 1 3 ["lb"] ["tg"] []
    [mkInstance "i-1" "Healthy" (Some "lc-1") None] (Some "lc-2") None.

(** The group is deleted after the first request. *)
Definition env_group_deleted : Env :=
  fun t c =>
    match c with
    | DescribeAutoScalingGroups _ =>
        match t with
        | [] => RGroups [one_instance_group]
        | _ => RGroups []
        end
    | _ => RClientError
    end.

(** A group on launch configuration "lc-2" with an outdated instance, an
    updated one, and one launched from a template that bears the same name. *)
Definition mixed_instances : list Instance :=
  [mkInstance "i-a" "Healthy" (Some "lc-1") None;
   mkInstance "i-b" "Healthy" (Some "lc-2") None;
   mkInstance "i-c" "Healthy" None (Some "lc-2")].

Definition mixed_group : AutoScalingGroup :=
  mkAutoScalingGroup "web" 3 4 [] [] [] mixed_instances (Some "lc-2") None.

(** The same group, configured through a mixed instances policy whose
    launch template is named "lc-2". *)
Definition policy_group : AutoScalingGroup :=
  mkAutoScalingGroup "web" 3 4 [] [] [] mixed_instances None (Some "lc-2").

(** A group that reports neither a launch configuration nor a mixed
    instances policy. *)
Definition unconfigured_group : AutoScalingGroup :=
  mkAutoScalingGroup "web" 3 4 [] [] [] mixed_instances None None.

(** No hook invocation recorded in [events] exited with a non-zero status. *)
Definition no_failed_hook (events : Trace) : Prop :=
  forall command retval,
    In (Api (ShellCall command) (RRetval retval)) events -> retval = 0.

(** The group of one instance, with nothing registered in the target group. *)
Definition env_group_without_targets : Env :=
  fun _ c =>
    match c with
    | DescribeAutoScalingGroups _ => RGroups [one_instance_group]
    | DescribeTargetHealth _ => RTargetHealth []
    | _ => RClientError
    end.

(** [launching_group], with only its unhealthy member listed by the target
    group. *)
Definition env_launching_detached : Env :=
  fun _ c =>
    match c with
    | DescribeAutoScalingGroups _ => RGroups [launching_group]
    | DescribeTargetHealth _ => RTargetHealth [mkTargetHealthDescription "i-2" "draining"]
    | _ => RClientError
    end.

(** The simulated control plane refuses the termination that carries the
    decrement. *)
Definition env_last_termination_rejected : Env :=
  env_rejecting (fun c => match c with
                          | TerminateInstanceInAutoScalingGroup _ true => true
                          | _ => false
                          end)
                (env_rolling 200).

(** ** The mutating requests of a run *)

(** [silent m]: [m] makes no mutating request and never calls [exit(0)]. *)
Definition silent {A} (m : M A) : Prop :=
  forall env t,
    mutation_calls (snd (m env t)) = mutation_calls t /\ proper (fst (m env t)).

(** [performs_at env t final calls m]: the mutating requests [m] adds to
    the trace are the first ones of [calls]; unless [m] stopped, they are
    all of [calls] and [m] ended as [final] says. *)
Definition performs_at {A} (env : Env) (t : Trace) (final : Outcome A -> Prop)
    (calls : list Call) (m : M A) : Prop :=
  exists made,
    mutation_calls (snd (m env t)) = mutation_calls t ++ made
    /\ (exists later, calls = made ++ later)
    /\ (stopped (fst (m env t)) \/ (made = calls /\ final (fst (m env t)))).

Definition performs {A} (final : Outcome A -> Prop) (calls : list Call) (m : M A) : Prop :=
  forall env t, performs_at env t final calls m.

(** The mutating requests of the retire loop for [remaining]: each instance
    is de-registered from every load balancer, then from every target
    group, and then terminated. *)
Fixpoint retire_mutations (autoscaler : AutoScalingGroup) (remaining : list Instance)
    : list Call :=
  match remaining with
  | [] => []
  | instance :: rest =>
      map (fun name => DeregisterInstancesFromLoadBalancer name (InstanceId instance))
          (LoadBalancerNames autoscaler)
      ++ map (fun name => DeregisterTargets name (InstanceId instance))
             (TargetGroupARNs autoscaler)
      ++ [TerminateInstanceInAutoScalingGroup
            (InstanceId instance) (match rest with [] => true | _ => false end)]
      ++ retire_mutations autoscaler rest
  end.

(** The mutating requests of the preparation for the group found at the
    start of the run. *)
Definition prepare_mutations (options : Options) (group : AutoScalingGroup) : list Call :=
  prepare_calls options group
  ++ (if opt_force options then [ResumeProcesses (opt_autoscaler options) None] else [])
  ++ [SuspendProcesses (opt_autoscaler options) suspend_new_processes].

(** The mutating requests of the run after the preparation. *)
Definition rollout_mutations (options : Options) (g : Globals) : list Call :=
  (match instances_to_kill g with
   | [] => []
   | _ => [SetDesiredCapacity (opt_autoscaler options) (DesiredCapacity (autoscaler g) + 1)]
   end)
  ++ retire_mutations (autoscaler g) (instances_to_kill g)
  ++ (match instances_to_kill g with
      | [] => [SetDesiredCapacity (opt_autoscaler options) (autoscaler_old_desired_capacity g)]
      | _ => []
      end)
  ++ [ResumeProcesses (opt_autoscaler options)
        (if opt_force options then None else Some suspend_new_processes)]
  ++ (if autoscaler_old_max_size g =? autoscaler_old_desired_capacity g
      then [UpdateAutoScalingGroup (opt_autoscaler options) (autoscaler_old_max_size g)]
      else []).

(** The requests of a run that suspend or resume scaling processes. *)
Definition process_calls (t : Trace) : list Call :=
  filter (fun c => match c with
                   | SuspendProcesses _ _ | ResumeProcesses _ _ => true
                   | _ => false
                   end) (mutation_calls t).

Definition is_termination (c : Call) : Prop :=
  exists id flag, c = TerminateInstanceInAutoScalingGroup id flag.

Definition is_termination_call (c : Call) : bool :=
  match c with
  | TerminateInstanceInAutoScalingGroup _ _ => true
  | _ => false
  end.

(** The group is at its max size and its [Launch] process is suspended. *)
Definition launch_suspended_group : AutoScalingGroup :=
  mkAutoScalingGroup "web" 2 2 ["lb"] [] ["Launch"]
    [mkInstance "i-a" "Healthy" (Some "lc-1") None;
     mkInstance "i-b" "Healthy" (Some "lc-1") None] (Some "lc-2") None.

Definition env_launch_suspended : Env :=
  fun _ c =>
    match c with
    | DescribeAutoScalingGroups _ => RGroups [launch_suspended_group]
    | ShellCall _ => RRetval 0
    | _ => RStatus 200
    end.

(** Every shell hook exits with status 2. *)
Definition env_hook_fails : Env :=
  fun _ c =>
    match c with
    | ShellCall _ => RRetval 2
    | _ => RClientError
    end.
(** * Properties *)

(** ** Membership tests and counting loops *)

Lemma str_in_In (x : string) (xs : list string) :
  str_in x xs = true <-> In x xs.
Proof.
  unfold str_in. rewrite existsb_exists. split.
  - intros [y [Hy Heq]]. apply String.eqb_eq in Heq. now subst.
  - intros H. exists x. split; [assumption | apply String.eqb_refl].
Qed.

Lemma str_in_not_In (x : string) (xs : list string) :
  str_in x xs = false <-> ~ In x xs.
Proof.
  rewrite <- str_in_In. destruct (str_in x xs); split; congruence.
Qed.

Lemma count_present_acc (present xs : list string) (n : Z) :
  fold_left (fun n x => if str_in x present then n + 1 else n) xs n
  = n + count_present xs present.
Proof.
  unfold count_present. revert n.
  induction xs as [|x xs IH]; intros n; simpl.
  - lia.
  - destruct (str_in x present).
    + rewrite (IH (n + 1)), (IH 1). lia.
    + rewrite (IH n), (IH 0). lia.
Qed.

Lemma count_present_nil (present : list string) : count_present [] present = 0.
Proof. reflexivity. Qed.

Lemma count_present_cons (x : string) (xs present : list string) :
  count_present (x :: xs) present
  = (if str_in x present then 1 else 0) + count_present xs present.
Proof.
  unfold count_present at 1. simpl. rewrite count_present_acc.
  destruct (str_in x present); lia.
Qed.

Lemma count_present_bounds (xs present : list string) :
  0 <= count_present xs present <= Z.of_nat (length xs).
Proof.
  induction xs as [|x xs IH].
  - rewrite count_present_nil. simpl. lia.
  - rewrite count_present_cons. change (length (x :: xs)) with (S (length xs)).
    destruct (str_in x present); lia.
Qed.

(** No failure was counted exactly when no element is present. *)
Lemma count_present_zero (xs present : list string) :
  count_present xs present = 0 <-> (forall x, In x xs -> ~ In x present).
Proof.
  induction xs as [|x xs IH].
  - rewrite count_present_nil. split; [intros _ y [] | reflexivity].
  - rewrite count_present_cons.
    pose proof (count_present_bounds xs present) as Hb.
    destruct (str_in x present) eqn:Hx.
    + split; [lia|]. intros H. exfalso. apply (H x); [now left | now apply str_in_In].
    + apply str_in_not_In in Hx. split.
      * intros H y [<- | Hy]; [assumption|]. apply IH; [lia | assumption].
      * intros H. simpl. apply IH. intros y Hy. apply H. now right.
Qed.

(** Every element was counted exactly when every element is present. *)
Lemma count_present_all (xs present : list string) :
  count_present xs present >= Z.of_nat (length xs) <-> (forall x, In x xs -> In x present).
Proof.
  induction xs as [|x xs IH].
  - rewrite count_present_nil. simpl. split; [intros _ y [] | lia].
  - rewrite count_present_cons. change (length (x :: xs)) with (S (length xs)).
    pose proof (count_present_bounds xs present) as Hb.
    destruct (str_in x present) eqn:Hx.
    + apply str_in_In in Hx. split.
      * intros H y [<- | Hy]; [assumption|]. apply IH; [lia | assumption].
      * intros H. assert (count_present xs present >= Z.of_nat (length xs)).
        { apply IH. intros y Hy. apply H. now right. }
        lia.
    + apply str_in_not_In in Hx. split; [lia|].
      intros H. exfalso. apply Hx, H. now left.
Qed.

(** ** The set difference of the retire loop *)

Lemma found_flag (instance : Instance) (array_two : list Instance) (found : bool) :
  fold_left
    (fun found instance_array_two =>
       if String.eqb (InstanceId instance_array_two) (InstanceId instance)
       then true else found)
    array_two found
  = found || id_in instance array_two.
Proof.
  revert found. induction array_two as [|y ys IH]; intros found; simpl.
  - now rewrite orb_false_r.
  - rewrite IH. destruct (String.eqb (InstanceId y) (InstanceId instance)); simpl.
    + now rewrite orb_true_r.
    + reflexivity.
Qed.

Lemma find_new_acc (array_one array_two output : list Instance) :
  fold_left
    (fun output instance_array_one =>
       let found :=
         fold_left
           (fun found instance_array_two =>
              if String.eqb (InstanceId instance_array_two) (InstanceId instance_array_one)
              then true else found)
           array_two false in
       if negb found then output ++ [instance_array_one] else output)
    array_one output
  = output ++ filter (fun instance => negb (id_in instance array_two)) array_one.
Proof.
  revert output. induction array_one as [|x xs IH]; intros output; simpl.
  - now rewrite app_nil_r.
  - rewrite IH, found_flag. simpl.
    destruct (id_in x array_two); simpl; [reflexivity|].
    now rewrite <- app_assoc.
Qed.

Lemma find_new_filter (array_one array_two : list Instance) :
  find_aws_instances_in_first_list_but_not_in_second array_one array_two
  = filter (fun instance => negb (id_in instance array_two)) array_one.
Proof.
  unfold find_aws_instances_in_first_list_but_not_in_second.
  now rewrite find_new_acc.
Qed.

Lemma id_in_spec (instance : Instance) (instances : list Instance) :
  id_in instance instances = true <-> In (InstanceId instance) (map InstanceId instances).
Proof.
  unfold id_in. rewrite existsb_exists, in_map_iff. split.
  - intros [y [Hy Heq]]. apply String.eqb_eq in Heq. now exists y.
  - intros [y [Heq Hy]]. exists y. split; [assumption|]. now apply String.eqb_eq.
Qed.

(** C8: the newly-appeared computation keeps, in the order of the current
    list, exactly the instances whose id is the id of no instance of the
    previous list; it is empty if and only if every id of the current list
    is an id of the previous list; and applying it again, to its own result
    or to the same inputs, changes nothing. *)
Theorem find_new_instances_is_set_difference (current previous : list Instance) :
  find_aws_instances_in_first_list_but_not_in_second current previous
  = filter (fun instance =>
              negb (existsb (fun other => String.eqb (InstanceId other) (InstanceId instance))
                            previous))
           current
  /\ (forall instance,
        In instance (find_aws_instances_in_first_list_but_not_in_second current previous)
        <-> In instance current /\ ~ In (InstanceId instance) (map InstanceId previous))
  /\ (find_aws_instances_in_first_list_but_not_in_second current previous = []
      <-> incl (map InstanceId current) (map InstanceId previous))
  /\ find_aws_instances_in_first_list_but_not_in_second
       (find_aws_instances_in_first_list_but_not_in_second current previous) previous
     = find_aws_instances_in_first_list_but_not_in_second current previous.
Proof.
  repeat split.
  - apply find_new_filter.
  - rewrite find_new_filter in H. apply filter_In in H. tauto.
  - rewrite find_new_filter in H. apply filter_In in H. destruct H as [_ H].
    rewrite <- id_in_spec. destruct (id_in instance previous); simpl in H; congruence.
  - intros [Hin Hnot]. rewrite find_new_filter. apply filter_In. split; [assumption|].
    rewrite <- id_in_spec in Hnot. now destruct (id_in instance previous).
  - rewrite find_new_filter. intros Hnil id Hid.
    apply in_map_iff in Hid. destruct Hid as [x [<- Hx]].
    apply id_in_spec. destruct (id_in x previous) eqn:E; [reflexivity|].
    assert (In x (filter (fun instance => negb (id_in instance previous)) current)) as Hf.
    { apply filter_In. split; [assumption|]. now rewrite E. }
    rewrite Hnil in Hf. destruct Hf.
  - rewrite find_new_filter. intros Hincl.
    induction current as [|x xs IH]; simpl; [reflexivity|].
    assert (id_in x previous = true) as ->.
    { apply id_in_spec. apply Hincl. now left. }
    simpl. apply IH. intros id Hid. apply Hincl. now right.
  - rewrite !find_new_filter.
    induction current as [|x xs IH]; simpl; [reflexivity|].
    destruct (id_in x previous) eqn:E; simpl; [assumption|].
    rewrite E. simpl. now rewrite IH.
Qed.

(** ** Polling loops *)

Ltac unfold_monad :=
  unfold bind, ret, raise, exit, api, time_sleep, break_with, continue, out_of_fuel in *.

Lemma bind_ret {A B} (a : A) (k : A -> M B) (env : Env) (t : Trace) :
  bind (ret a) k env t = k a env t.
Proof. reflexivity. Qed.

(** A [while True] loop that returns did so from an iteration that reached
    [break]. *)
Lemma while_true_returns {A} (fuel : nat) (body : M (option A)) (env : Env)
    (t t' : Trace) (a : A) :
  while_true fuel body env t = (Ok a, t') ->
  exists t0, body env t0 = (Ok (Some a), t').
Proof.
  revert t. induction fuel as [|fuel IH]; intros t H; simpl in H.
  - discriminate.
  - unfold bind in H. destruct (body env t) as [[[x|]|e|c|] t1] eqn:E; try discriminate.
    + inversion H; subst. now exists t.
    + now apply IH in H.
Qed.

(** An iteration that does not reach [break] hands over to the next one. *)
Lemma while_true_continues {A} (fuel : nat) (body : M (option A)) (env : Env)
    (t t1 : Trace) :
  body env t = (Ok None, t1) ->
  while_true (S fuel) body env t = while_true fuel body env t1.
Proof.
  intros H. simpl. unfold bind. now rewrite H.
Qed.

(** *** Detachment *)

(** C7: the detachment wait, on a classic load balancer or on a target
    group, returns only from a poll whose membership snapshot holds none of
    the given ids, whatever health the source reports; and a poll whose
    snapshot still holds one of the ids sleeps and polls again. *)
Theorem detachment_wait_blocks_while_present
    (fuel : nat) (instance_ids : list string) (source : string) (env : Env)
    (t t' : Trace) :
  (wait_for_instances_to_detach_from_loadbalancer fuel instance_ids source env t = (Ok tt, t') ->
   exists t0 loadbalancer others,
     t' = t0 ++ [Api (DescribeLoadBalancers source) (RLoadBalancers (loadbalancer :: others))]
     /\ forall id, In id instance_ids -> ~ In id (LbInstances loadbalancer))
  /\ (wait_for_instances_to_detach_from_target_group fuel instance_ids source env t = (Ok tt, t') ->
      exists t0 target_group,
        t' = t0 ++ [Api (DescribeTargetHealth source) (RTargetHealth target_group)]
        /\ forall id, In id instance_ids -> ~ In id (map TargetId target_group))
  /\ (forall loadbalancer others id,
        env t (DescribeLoadBalancers source) = RLoadBalancers (loadbalancer :: others) ->
        In id instance_ids -> In id (LbInstances loadbalancer) ->
        wait_for_instances_to_detach_from_loadbalancer (S fuel) instance_ids source env t
        = wait_for_instances_to_detach_from_loadbalancer fuel instance_ids source env
            (t ++ [Api (DescribeLoadBalancers source) (RLoadBalancers (loadbalancer :: others));
                   Sleep 10]))
  /\ (forall target_group id,
        env t (DescribeTargetHealth source) = RTargetHealth target_group ->
        In id instance_ids -> In id (map TargetId target_group) ->
        wait_for_instances_to_detach_from_target_group (S fuel) instance_ids source env t
        = wait_for_instances_to_detach_from_target_group fuel instance_ids source env
            (t ++ [Api (DescribeTargetHealth source) (RTargetHealth target_group); Sleep 10])).
Proof.
  repeat split.
  - intros H. apply while_true_returns in H. destruct H as [t0 H].
    unfold get_load_balancer, get_instance_ids_of_load_balancer in H. unfold_monad.
    destruct (env t0 (DescribeLoadBalancers source)) as [| |[|lb others]| | | | |] eqn:E;
      try discriminate.
    destruct (count_present instance_ids (LbInstances lb) =? 0) eqn:C; try discriminate.
    inversion H; subst. exists t0, lb, others. split; [reflexivity|].
    apply count_present_zero. now apply Z.eqb_eq.
  - intros H. apply while_true_returns in H. destruct H as [t0 H].
    unfold describe_target_health in H. unfold_monad.
    destruct (env t0 (DescribeTargetHealth source)) as [| | | |tg| | |] eqn:E;
      try discriminate.
    destruct (count_present instance_ids (map TargetId tg) =? 0) eqn:C; try discriminate.
    inversion H; subst. exists t0, tg. split; [reflexivity|].
    apply count_present_zero. now apply Z.eqb_eq.
  - intros lb others id E Hid Hlb.
    unfold wait_for_instances_to_detach_from_loadbalancer.
    apply while_true_continues.
    unfold get_load_balancer, get_instance_ids_of_load_balancer. unfold_monad.
    rewrite E.
    destruct (count_present instance_ids (LbInstances lb) =? 0) eqn:C.
    + apply Z.eqb_eq in C. exfalso.
      exact (proj1 (count_present_zero _ _) C id Hid Hlb).
    + now rewrite <- app_assoc.
  - intros tg id E Hid Htg.
    unfold wait_for_instances_to_detach_from_target_group.
    apply while_true_continues.
    unfold describe_target_health. unfold_monad.
    rewrite E.
    destruct (count_present instance_ids (map TargetId tg) =? 0) eqn:C.
    + apply Z.eqb_eq in C. exfalso.
      exact (proj1 (count_present_zero _ _) C id Hid Htg).
    + now rewrite <- app_assoc.
Qed.

Lemma detachment_wait_blocks_while_present_witness :
  (exists t0 loadbalancer others,
     [Api (DescribeLoadBalancers "lb") (RLoadBalancers [mkLoadBalancerDescription []])]
     = t0 ++ [Api (DescribeLoadBalancers "lb") (RLoadBalancers (loadbalancer :: others))]
     /\ forall id, In id ["i-old"] -> ~ In id (LbInstances loadbalancer))
  /\ (exists t0 target_group,
        [Api (DescribeTargetHealth "tg") (RTargetHealth [])]
        = t0 ++ [Api (DescribeTargetHealth "tg") (RTargetHealth target_group)]
        /\ forall id, In id ["i-old"] -> ~ In id (map TargetId target_group))
  /\ wait_for_instances_to_detach_from_loadbalancer 2 ["i-old"] "lb" env_attached []
     = wait_for_instances_to_detach_from_loadbalancer 1 ["i-old"] "lb" env_attached
         [Api (DescribeLoadBalancers "lb") (RLoadBalancers [mkLoadBalancerDescription ["i-old"]]);
          Sleep 10]
  /\ wait_for_instances_to_detach_from_target_group 2 ["i-old"] "tg" env_attached []
     = wait_for_instances_to_detach_from_target_group 1 ["i-old"] "tg" env_attached
         [Api (DescribeTargetHealth "tg")
              (RTargetHealth [mkTargetHealthDescription "i-old" "draining"]);
          Sleep 10].
Proof.
  split; [|split; [|split]].
  - apply (proj1 (detachment_wait_blocks_while_present
                    1 ["i-old"] "lb" env_detached [] _)).
    reflexivity.
  - apply (proj1 (proj2 (detachment_wait_blocks_while_present
                           1 ["i-old"] "tg" env_detached [] _))).
    reflexivity.
  - apply (proj1 (proj2 (proj2 (detachment_wait_blocks_while_present
                                  1 ["i-old"] "lb" env_attached [] []))))
      with (id := "i-old").
    + reflexivity.
    + simpl; auto.
    + simpl; auto.
  - apply (proj2 (proj2 (proj2 (detachment_wait_blocks_while_present
                                  1 ["i-old"] "tg" env_attached [] []))))
      with (id := "i-old").
    + reflexivity.
    + simpl; auto.
    + simpl; auto.
Defined.

(** *** Full attachment *)

(** What the attachment waits test before [break]. *)
Lemma attachment_test (as_instances : list Instance) (in_service : list string)
    (desired : Z) :
  (count_present (map InstanceId as_instances) in_service >=? Z.of_nat (length as_instances))
  && (desired =? count_present (map InstanceId as_instances) in_service) = true
  <-> (forall instance, In instance as_instances -> In (InstanceId instance) in_service)
      /\ count_present (map InstanceId as_instances) in_service = desired.
Proof.
  rewrite andb_true_iff, Z.geb_le, Z.eqb_eq.
  pose proof (count_present_all (map InstanceId as_instances) in_service) as Hall.
  rewrite length_map in Hall.
  split.
  - intros [Hge Heq]. split; [|now symmetry].
    intros instance Hin. apply Hall; [lia|]. now apply in_map.
  - intros [Hin Heq]. split; [|now symmetry].
    apply Z.ge_le, Hall. intros id Hid. apply in_map_iff in Hid.
    destruct Hid as [instance [<- Hi]]. now apply Hin.
Qed.

(** When every healthy member is in service, their number is what was counted. *)
Lemma count_present_full (as_instances : list Instance) (in_service : list string) :
  (forall instance, In instance as_instances -> In (InstanceId instance) in_service) ->
  count_present (map InstanceId as_instances) in_service = Z.of_nat (length as_instances).
Proof.
  intros H.
  pose proof (count_present_bounds (map InstanceId as_instances) in_service) as Hb.
  pose proof (count_present_all (map InstanceId as_instances) in_service) as Hall.
  rewrite length_map in *.
  assert (count_present (map InstanceId as_instances) in_service
          >= Z.of_nat (length as_instances)).
  { apply Hall. intros id Hid. apply in_map_iff in Hid.
    destruct Hid as [instance [<- Hi]]. now apply H. }
  lia.
Qed.

Lemma healthy_target_ids (target_group : list TargetHealthDescription) (id : string) :
  In id (map TargetId
           (filter (fun instance => String.eqb (TargetHealthState instance) "healthy")
                   target_group))
  <-> exists target, In target target_group
                     /\ TargetId target = id /\ TargetHealthState target = "healthy".
Proof.
  rewrite in_map_iff. split.
  - intros [x [Hid Hx]]. apply filter_In in Hx. destruct Hx as [Hx Hs].
    apply String.eqb_eq in Hs. now exists x.
  - intros [x [Hx [Hid Hs]]]. exists x. split; [assumption|].
    apply filter_In. split; [assumption|]. now apply String.eqb_eq.
Qed.

Lemma in_service_ids (states : list InstanceState) (id : string) :
  In id (flatten_instance_health_array_from_loadbalancer_only_healthy states)
  <-> exists state, In state states
                    /\ StateInstanceId state = id /\ State state = "InService".
Proof.
  unfold flatten_instance_health_array_from_loadbalancer_only_healthy.
  rewrite in_map_iff. split.
  - intros [x [Hid Hx]]. apply filter_In in Hx. destruct Hx as [Hx Hs].
    apply String.eqb_eq in Hs. now exists x.
  - intros [x [Hx [Hid Hs]]]. exists x. split; [assumption|].
    apply filter_In. split; [assumption|]. now apply String.eqb_eq.
Qed.

Lemma healthy_members (group : AutoScalingGroup) (instance : Instance) :
  In instance (filter healthy (Instances group))
  <-> In instance (Instances group) /\ HealthStatus instance = "Healthy".
Proof.
  rewrite filter_In. unfold healthy. now rewrite String.eqb_eq.
Qed.

(** C2: the full-attachment wait, on a target group or on a classic load
    balancer, returns only from an iteration in which every healthy member
    of the group just fetched is reported healthy (InService) by the source
    and their number equals the desired capacity of that same fetch; an
    iteration in which a healthy member is missing from the healthy
    (InService) ids of the source sleeps and polls again. *)
Theorem attachment_wait_blocks_until_complete
    (fuel : nat) (source autoscaling_group_name : string) (env : Env) (t t' : Trace) :
  (wait_for_complete_targetgroup_autoscaler_attachment
     fuel source autoscaling_group_name env t = (Ok tt, t') ->
   exists t0 target_group group others,
     t' = t0 ++ [Api (DescribeTargetHealth source) (RTargetHealth target_group);
                 Api (DescribeAutoScalingGroups autoscaling_group_name)
                     (RGroups (group :: others))]
     /\ (forall instance,
           In instance (Instances group) -> HealthStatus instance = "Healthy" ->
           exists target, In target target_group
                          /\ TargetId target = InstanceId instance
                          /\ TargetHealthState target = "healthy")
     /\ Z.of_nat (length (filter healthy (Instances group))) = DesiredCapacity group)
  /\ (wait_for_complete_loadbalancer_autoscaler_attachment
        fuel source autoscaling_group_name env t = (Ok tt, t') ->
      exists t0 loadbalancer lbs states group others,
        t' = t0 ++ [Api (DescribeLoadBalancers source) (RLoadBalancers (loadbalancer :: lbs));
                    Api (DescribeInstanceHealth source (LbInstances loadbalancer))
                        (RInstanceStates states);
                    Api (DescribeAutoScalingGroups autoscaling_group_name)
                        (RGroups (group :: others))]
        /\ (forall instance,
              In instance (Instances group) -> HealthStatus instance = "Healthy" ->
              exists state, In state states
                            /\ StateInstanceId state = InstanceId instance
                            /\ State state = "InService")
        /\ Z.of_nat (length (filter healthy (Instances group))) = DesiredCapacity group)
  /\ (forall target_group group others instance,
        env t (DescribeTargetHealth source) = RTargetHealth target_group ->
        env (t ++ [Api (DescribeTargetHealth source) (RTargetHealth target_group)])
            (DescribeAutoScalingGroups autoscaling_group_name) = RGroups (group :: others) ->
        In instance (Instances group) -> HealthStatus instance = "Healthy" ->
        (forall target, In target target_group -> TargetId target = InstanceId instance ->
                        TargetHealthState target <> "healthy") ->
        wait_for_complete_targetgroup_autoscaler_attachment
          (S fuel) source autoscaling_group_name env t
        = wait_for_complete_targetgroup_autoscaler_attachment
            fuel source autoscaling_group_name env
            (t ++ [Api (DescribeTargetHealth source) (RTargetHealth target_group);
                   Api (DescribeAutoScalingGroups autoscaling_group_name)
                       (RGroups (group :: others));
                   Sleep 10]))
  /\ (forall loadbalancer lbs states group others instance,
        env t (DescribeLoadBalancers source) = RLoadBalancers (loadbalancer :: lbs) ->
        env (t ++ [Api (DescribeLoadBalancers source) (RLoadBalancers (loadbalancer :: lbs))])
            (DescribeInstanceHealth source (LbInstances loadbalancer))
        = RInstanceStates states ->
        env (t ++ [Api (DescribeLoadBalancers source) (RLoadBalancers (loadbalancer :: lbs));
                   Api (DescribeInstanceHealth source (LbInstances loadbalancer))
                       (RInstanceStates states)])
            (DescribeAutoScalingGroups autoscaling_group_name) = RGroups (group :: others) ->
        In instance (Instances group) -> HealthStatus instance = "Healthy" ->
        (forall state, In state states -> StateInstanceId state = InstanceId instance ->
                       State state <> "InService") ->
        wait_for_complete_loadbalancer_autoscaler_attachment
          (S fuel) source autoscaling_group_name env t
        = wait_for_complete_loadbalancer_autoscaler_attachment
            fuel source autoscaling_group_name env
            (t ++ [Api (DescribeLoadBalancers source) (RLoadBalancers (loadbalancer :: lbs));
                   Api (DescribeInstanceHealth source (LbInstances loadbalancer))
                       (RInstanceStates states);
                   Api (DescribeAutoScalingGroups autoscaling_group_name)
                       (RGroups (group :: others));
                   Sleep 10])).
Proof.
  split; [|split; [|split]].
  - intros H. apply while_true_returns in H. destruct H as [t0 H].
    unfold describe_target_health, get_autoscaling_group,
      get_autoscaler_healthy_instances in H.
    unfold_monad.
    destruct (env t0 (DescribeTargetHealth source)) as [| | | |tg| | |] eqn:E1;
      try discriminate.
    destruct (env (t0 ++ [Api (DescribeTargetHealth source) (RTargetHealth tg)])
                  (DescribeAutoScalingGroups autoscaling_group_name))
      as [|[|g others]| | | | | |] eqn:E2; try discriminate.
    match type of H with context [if ?c then _ else _] => destruct c eqn:C end;
      try discriminate.
    inversion H; subst. apply attachment_test in C. destruct C as [Hall Hcount].
    exists t0, tg, g, others. split; [now rewrite <- app_assoc|]. split.
    + intros instance Hin Hh. apply healthy_target_ids, Hall.
      now apply healthy_members.
    + now rewrite <- Hcount, count_present_full.
  - intros H. apply while_true_returns in H. destruct H as [t0 H].
    unfold get_load_balancer, get_instance_ids_of_load_balancer,
      describe_instance_health, get_autoscaling_group,
      get_autoscaler_healthy_instances in H.
    unfold_monad.
    destruct (env t0 (DescribeLoadBalancers source)) as [| |[|lb lbs]| | | | |] eqn:E1;
      try discriminate.
    destruct (env (t0 ++ [Api (DescribeLoadBalancers source) (RLoadBalancers (lb :: lbs))])
                  (DescribeInstanceHealth source (LbInstances lb)))
      as [| | |states| | | |] eqn:E2; try discriminate.
    destruct (env ((t0 ++ [Api (DescribeLoadBalancers source) (RLoadBalancers (lb :: lbs))])
                     ++ [Api (DescribeInstanceHealth source (LbInstances lb))
                             (RInstanceStates states)])
                  (DescribeAutoScalingGroups autoscaling_group_name))
      as [|[|g others]| | | | | |] eqn:E3; try discriminate.
    match type of H with context [if ?c then _ else _] => destruct c eqn:C end;
      try discriminate.
    inversion H; subst. apply attachment_test in C. destruct C as [Hall Hcount].
    exists t0, lb, lbs, states, g, others. split; [now rewrite <- !app_assoc|]. split.
    + intros instance Hin Hh. apply in_service_ids, Hall.
      now apply healthy_members.
    + now rewrite <- Hcount, count_present_full.
  - intros tg g others instance E1 E2 Hin Hh Hbad.
    unfold wait_for_complete_targetgroup_autoscaler_attachment.
    apply while_true_continues.
    unfold describe_target_health, get_autoscaling_group,
      get_autoscaler_healthy_instances.
    unfold_monad. rewrite E1, E2.
    match goal with |- context [if ?c then _ else _] => destruct c eqn:C end.
    + exfalso. apply attachment_test in C. destruct C as [Hall _].
      assert (In instance (filter healthy (Instances g))) as Hm
        by now apply healthy_members.
      apply Hall, healthy_target_ids in Hm. destruct Hm as [target [Ht [Hid Hs]]].
      exact (Hbad target Ht Hid Hs).
    + now rewrite <- !app_assoc.
  - intros lb lbs states g others instance E1 E2 E3 Hin Hh Hbad.
    unfold wait_for_complete_loadbalancer_autoscaler_attachment.
    apply while_true_continues.
    unfold get_load_balancer, get_instance_ids_of_load_balancer,
      describe_instance_health, get_autoscaling_group,
      get_autoscaler_healthy_instances.
    unfold_monad. rewrite E1, E2.
    replace ((t ++ [Api (DescribeLoadBalancers source) (RLoadBalancers (lb :: lbs))])
               ++ [Api (DescribeInstanceHealth source (LbInstances lb))
                       (RInstanceStates states)])
      with (t ++ [Api (DescribeLoadBalancers source) (RLoadBalancers (lb :: lbs));
                  Api (DescribeInstanceHealth source (LbInstances lb))
                      (RInstanceStates states)])
      by now rewrite <- app_assoc.
    rewrite E3.
    match goal with |- context [if ?c then _ else _] => destruct c eqn:C end.
    + exfalso. apply attachment_test in C. destruct C as [Hall _].
      assert (In instance (filter healthy (Instances g))) as Hm
        by now apply healthy_members.
      apply Hall, in_service_ids in Hm. destruct Hm as [state [Ht [Hid Hs]]].
      exact (Hbad state Ht Hid Hs).
    + now rewrite <- !app_assoc.
Qed.

Lemma attachment_wait_blocks_until_complete_witness :
  (exists t0 target_group group others,
     snd (wait_for_complete_targetgroup_autoscaler_attachment 1 "tg" "web" env_in_service [])
     = t0 ++ [Api (DescribeTargetHealth "tg") (RTargetHealth target_group);
              Api (DescribeAutoScalingGroups "web") (RGroups (group :: others))]
     /\ (forall instance,
           In instance (Instances group) -> HealthStatus instance = "Healthy" ->
           exists target, In target target_group
                          /\ TargetId target = InstanceId instance
                          /\ TargetHealthState target = "healthy")
     /\ Z.of_nat (length (filter healthy (Instances group))) = DesiredCapacity group)
  /\ (exists t0 loadbalancer lbs states group others,
        snd (wait_for_complete_loadbalancer_autoscaler_attachment 1 "lb" "web" env_in_service [])
        = t0 ++ [Api (DescribeLoadBalancers "lb") (RLoadBalancers (loadbalancer :: lbs));
                 Api (DescribeInstanceHealth "lb" (LbInstances loadbalancer))
                     (RInstanceStates states);
                 Api (DescribeAutoScalingGroups "web") (RGroups (group :: others))]
        /\ (forall instance,
              In instance (Instances group) -> HealthStatus instance = "Healthy" ->
              exists state, In state states
                            /\ StateInstanceId state = InstanceId instance
                            /\ State state = "InService")
        /\ Z.of_nat (length (filter healthy (Instances group))) = DesiredCapacity group)
  /\ (wait_for_complete_targetgroup_autoscaler_attachment 2 "tg" "web" env_out_of_service [])
     = (wait_for_complete_targetgroup_autoscaler_attachment 1 "tg" "web" env_out_of_service
              [Api (DescribeTargetHealth "tg")
                   (RTargetHealth [mkTargetHealthDescription "i-1" "initial"]);
               Api (DescribeAutoScalingGroups "web") (RGroups [one_instance_group]);
               Sleep 10])
  /\ (wait_for_complete_loadbalancer_autoscaler_attachment 2 "lb" "web" env_out_of_service [])
     = (wait_for_complete_loadbalancer_autoscaler_attachment 1 "lb" "web" env_out_of_service
              [Api (DescribeLoadBalancers "lb")
                   (RLoadBalancers [mkLoadBalancerDescription ["i-1"]]);
               Api (DescribeInstanceHealth "lb" ["i-1"])
                   (RInstanceStates [mkInstanceState "i-1" "OutOfService"]);
               Api (DescribeAutoScalingGroups "web") (RGroups [one_instance_group]);
               Sleep 10]).
Proof.
  split; [|split; [|split]].
  - apply (proj1 (attachment_wait_blocks_until_complete 1 "tg" "web" env_in_service [] _)).
    reflexivity.
  - apply (proj1 (proj2 (attachment_wait_blocks_until_complete
                           1 "lb" "web" env_in_service [] _))).
    reflexivity.
  - apply (proj1 (proj2 (proj2 (attachment_wait_blocks_until_complete
                                  1 "tg" "web" env_out_of_service [] []))))
      with (instance := mkInstance "i-1" "Healthy" (Some "lc-1") None).
    + reflexivity.
    + reflexivity.
    + simpl; auto.
    + reflexivity.
    + intros target [<- | []] _. discriminate.
  - apply (proj2 (proj2 (proj2 (attachment_wait_blocks_until_complete
                                  1 "lb" "web" env_out_of_service [] []))))
      with (instance := mkInstance "i-1" "Healthy" (Some "lc-1") None).
    + reflexivity.
    + reflexivity.
    + reflexivity.
    + simpl; auto.
    + reflexivity.
    + intros state [<- | []] _. discriminate.
Defined.

(** *** Base line convergence *)

(** C10, as stated, fails: the wait polls the group twice in an iteration,
    once for the healthy count it compares with the frozen desired capacity
    and once more inside the is-scaling check.  When the group is scaled up
    between the two requests the wait returns although the healthy count it
    polled (2, the frozen desired capacity) is not the desired capacity just
    fetched again (3). *)
Lemma baseline_wait_count_equals_both_counterexample :
  ~ (forall fuel descriptor env t t',
       wait_for_autoscaler_to_have_healthy_desired_instances fuel (inr descriptor) env t
       = (Ok tt, t') ->
       exists t0 polled others refetched others',
         t' = t0 ++ [Api (DescribeAutoScalingGroups (AutoScalingGroupName descriptor))
                         (RGroups (polled :: others));
                     Api (DescribeAutoScalingGroups (AutoScalingGroupName descriptor))
                         (RGroups (refetched :: others'))]
         /\ healthy_count polled = DesiredCapacity descriptor
         /\ healthy_count polled = DesiredCapacity refetched).
Proof.
  intros H.
  destruct (H 1%nat group_of_two env_scaled_between_fetches [] _ eq_refl)
    as (t0 & polled & others & refetched & others' & Ht & Hfrozen & Hfresh).
  assert (polled = group_of_two /\ refetched = group_of_three) as [-> ->].
  { destruct t0 as [|e0 [|e1 [|e2 t0]]]; simpl in Ht; inversion Ht; subst; auto. }
  vm_compute in Hfresh. discriminate.
Qed.

(** C10, amended: the wait freezes the desired capacity of the descriptor it
    has at entry and returns only from an iteration in which the healthy
    count it polled equals that frozen value and in which the group fetched
    again by the is-scaling check has as many healthy members as its own
    desired capacity; the polled count equals the desired capacity fetched
    again when the two requests of the iteration report the same number of
    healthy members.  An iteration whose polled healthy count differs from
    the frozen value sleeps and polls again. *)
Theorem baseline_wait_returns_when_converged
    (fuel : nat) (x : string + AutoScalingGroup) (descriptor : AutoScalingGroup)
    (env : Env) (t t1 t' : Trace)
    (Hentry : match x with
              | inl name => get_autoscaling_group name
              | inr definition => ret definition
              end env t = (Ok descriptor, t1)) :
  (wait_for_autoscaler_to_have_healthy_desired_instances fuel x env t = (Ok tt, t') ->
   exists t0 polled others refetched,
     t' = t0 ++ [Api (DescribeAutoScalingGroups (AutoScalingGroupName descriptor))
                     (RGroups (polled :: others));
                 Api (DescribeAutoScalingGroups (AutoScalingGroupName descriptor))
                     (RGroups [refetched])]
     /\ healthy_count polled = DesiredCapacity descriptor
     /\ healthy_count refetched = DesiredCapacity refetched
     /\ (healthy_count polled = healthy_count refetched ->
         healthy_count polled = DesiredCapacity refetched))
  /\ (forall polled others,
        env t1 (DescribeAutoScalingGroups (AutoScalingGroupName descriptor))
        = RGroups (polled :: others) ->
        healthy_count polled <> DesiredCapacity descriptor ->
        wait_for_autoscaler_to_have_healthy_desired_instances (S fuel) x env t
        = wait_for_autoscaler_to_have_healthy_desired_instances fuel (inr descriptor) env
            (t1 ++ [Api (DescribeAutoScalingGroups (AutoScalingGroupName descriptor))
                        (RGroups (polled :: others));
                    Sleep 5])).
Proof.
  split.
  - intros H. unfold wait_for_autoscaler_to_have_healthy_desired_instances in H.
    unfold bind at 1 in H. rewrite Hentry in H.
    apply while_true_returns in H. destruct H as [t0 H].
    unfold get_number_of_autoscaler_healthy_instances, get_autoscaler_healthy_instances,
      check_if_autoscaler_is_scaling, get_autoscaling_group in H.
    unfold get_number_of_autoscaler_healthy_instances, get_autoscaler_healthy_instances in H.
    unfold_monad.
    destruct (env t0 (DescribeAutoScalingGroups (AutoScalingGroupName descriptor)))
      as [|[|polled others]| | | | | |] eqn:E1; try discriminate.
    destruct (DesiredCapacity descriptor
              =? Z.of_nat (length (filter healthy (Instances polled)))) eqn:C1;
      simpl in H; try discriminate.
    destruct (env (t0 ++ [Api (DescribeAutoScalingGroups (AutoScalingGroupName descriptor))
                              (RGroups (polled :: others))])
                  (DescribeAutoScalingGroups (AutoScalingGroupName descriptor)))
      as [|[|refetched [|]]| | | | | |] eqn:E2; try discriminate.
    destruct (Z.of_nat (length (filter healthy (Instances refetched)))
              =? DesiredCapacity refetched) eqn:C2;
      simpl in H; try discriminate.
    inversion H; subst. apply Z.eqb_eq in C1, C2.
    exists t0, polled, others, refetched. unfold healthy_count.
    split; [now rewrite <- app_assoc|]. repeat split; try congruence.
  - intros polled others E Hne.
    unfold wait_for_autoscaler_to_have_healthy_desired_instances.
    unfold bind at 1. rewrite Hentry.
    rewrite bind_ret.
    apply while_true_continues.
    unfold get_number_of_autoscaler_healthy_instances, get_autoscaler_healthy_instances,
      get_autoscaling_group.
    unfold_monad. rewrite E.
    destruct (DesiredCapacity descriptor
              =? Z.of_nat (length (filter healthy (Instances polled)))) eqn:C1; simpl.
    + apply Z.eqb_eq in C1. unfold healthy_count in Hne. congruence.
    + now rewrite <- app_assoc.
Qed.

Lemma baseline_wait_returns_when_converged_witness :
  (exists t0 polled others refetched,
     snd (wait_for_autoscaler_to_have_healthy_desired_instances 1 (inl "web") env_in_service [])
     = t0 ++ [Api (DescribeAutoScalingGroups "web") (RGroups (polled :: others));
              Api (DescribeAutoScalingGroups "web") (RGroups [refetched])]
     /\ healthy_count polled = 1
     /\ healthy_count refetched = DesiredCapacity refetched
     /\ (healthy_count polled = healthy_count refetched ->
         healthy_count polled = DesiredCapacity refetched))
  /\ wait_for_autoscaler_to_have_healthy_desired_instances
       2 (inr group_of_three) env_scaled_between_fetches []
     = wait_for_autoscaler_to_have_healthy_desired_instances
         1 (inr group_of_three) env_scaled_between_fetches
         [Api (DescribeAutoScalingGroups "web") (RGroups [group_of_two]); Sleep 5].
Proof.
  split.
  - apply (proj1 (baseline_wait_returns_when_converged
                    1 (inl "web") one_instance_group env_in_service
                    [] [Api (DescribeAutoScalingGroups "web") (RGroups [one_instance_group])]
                    _ eq_refl)).
    reflexivity.
  - apply (proj2 (baseline_wait_returns_when_converged
                    1 (inr group_of_three) group_of_three env_scaled_between_fetches
                    [] [] [] eq_refl)).
    + reflexivity.
    + vm_compute. discriminate.
Defined.

(** ** The custom up check *)

(** C3 (the code departs from it): when the detail of a new instance cannot
    be resolved, [describe_instance] raising, the bare [except] only logs a
    warning and leaves [succeeded_health_up_check] as it was.  With a single
    new instance the loop therefore returns from its first pass: the hook
    was never invoked, nothing is retried and no 10 second sleep is taken. *)
Theorem up_check_passes_when_detail_lookup_raises
    (fuel : nat) (command : string) (new_instance : Instance) (env : Env) (t : Trace)
    (Hraises : env t (DescribeInstances (InstanceId new_instance)) = RClientError) :
  external_health_up_check (S fuel) command [new_instance] env t
  = (Ok tt, t ++ [Api (DescribeInstances (InstanceId new_instance)) RClientError]).
Proof.
  unfold external_health_up_check. simpl.
  unfold try_except, describe_instance. unfold_monad.
  rewrite Hraises. reflexivity.
Qed.

Lemma up_check_passes_when_detail_lookup_raises_witness :
  external_health_up_check 1 "curl http://NEW_INSTANCE_PRIVATE_IP_ADDRESS/health"
    [mkInstance "i-new" "Healthy" (Some "lc-2") None] env_unreachable []
  = (Ok tt, [Api (DescribeInstances "i-new") RClientError]).
Proof.
  apply (up_check_passes_when_detail_lookup_raises
           0 "curl http://NEW_INSTANCE_PRIVATE_IP_ADDRESS/health"
           (mkInstance "i-new" "Healthy" (Some "lc-2") None) env_unreachable []).
  reflexivity.
Defined.

(** What does hold of the loop: a hook that exits non-zero makes the pass fail. *)
Lemma up_check_retries_on_nonzero_exit
    (fuel : nat) (command : string) (new_instance : Instance) (env : Env) (t : Trace)
    (details : Ec2Instance) (others : list Ec2Instance) (rest : list (list Ec2Instance))
    (ip : string) (retval : Z) :
  env t (DescribeInstances (InstanceId new_instance))
  = RReservations ((details :: others) :: rest) ->
  PrivateIpAddress details = Some ip ->
  let tmpcommand :=
    replace "NEW_INSTANCE_PRIVATE_IP_ADDRESS" ip
      (replace "NEW_INSTANCE_ID" (InstanceId new_instance) command) in
  let tmpcommand :=
    match PublicIpAddress details with
    | Some public_ip_address =>
        replace "NEW_INSTANCE_PUBLIC_IP_ADDRESS" public_ip_address tmpcommand
    | None => tmpcommand
    end in
  let t1 := t ++ [Api (DescribeInstances (InstanceId new_instance))
                      (RReservations ((details :: others) :: rest))] in
  env t1 (ShellCall tmpcommand) = RRetval retval ->
  retval <> 0 ->
  external_health_up_check (S fuel) command [new_instance] env t
  = external_health_up_check fuel command [new_instance] env
      (t1 ++ [Api (ShellCall tmpcommand) (RRetval retval); Sleep 10]).
Proof.
  intros E Hip tmp1 tmp2 t1 Ecall Hret.
  unfold external_health_up_check. apply while_true_continues.
  simpl. unfold try_except, describe_instance, private_ip_address_of, call.
  unfold_monad. rewrite E. simpl. rewrite Hip.
  destruct details as [eid pip pub]; simpl in *. subst pip.
  destruct pub as [pub|]; simpl in *; subst tmp1 tmp2 t1; rewrite Ecall;
    (destruct (retval =? 0) eqn:C; [apply Z.eqb_eq in C; contradiction|]);
    simpl; now rewrite <- !app_assoc.
Qed.

(** ** De-registration *)

(** *** Requests the client rejects *)

Lemma ends_at_rejection_calm {A} (o : Outcome A) (l : Trace) :
  existsb rejected l = false -> ends_at_rejection o l.
Proof.
  induction l as [|e l IH]; simpl; [trivial|].
  destruct (rejected e); simpl; [discriminate | exact IH].
Qed.

Lemma ends_at_rejection_returned {A} (a : A) (l : Trace) :
  ends_at_rejection (Ok a) l -> existsb rejected l = false.
Proof.
  induction l as [|e l IH]; simpl; [trivial|].
  destruct (rejected e); simpl; [intros [_ H]; discriminate | exact IH].
Qed.

Lemma ends_at_rejection_outcome {A B} (o : Outcome A) (o' : Outcome B) (l : Trace) :
  (o = Raise ClientError -> o' = Raise ClientError) ->
  ends_at_rejection o l -> ends_at_rejection o' l.
Proof.
  intros Ho. induction l as [|e l IH]; simpl; [trivial|].
  destruct (rejected e); [intros [H1 H2]; auto | exact IH].
Qed.

Lemma ends_at_rejection_app {A} (o : Outcome A) (l l' : Trace) :
  existsb rejected l = false -> ends_at_rejection o l' -> ends_at_rejection o (l ++ l').
Proof.
  induction l as [|e l IH]; simpl; [trivial|].
  destruct (rejected e); simpl; [discriminate | exact IH].
Qed.

Lemma ends_at_rejection_split {A} (o : Outcome A) (l before after : Trace) (e : Event) :
  ends_at_rejection o l -> l = before ++ e :: after -> rejected e = true ->
  after = [] /\ o = Raise ClientError.
Proof.
  intros H -> He. induction before as [|x before IH]; simpl in H.
  - rewrite He in H. exact H.
  - destruct (rejected x).
    + destruct H as [H _]. now destruct before.
    + auto.
Qed.

(** *** Calm computations *)

Lemma calm_ret {A} (a : A) : calm (ret a).
Proof. intros env t. exists []. simpl. now rewrite app_nil_r. Qed.

Lemma calm_raise {A} (e : Exn) : calm (@raise A e).
Proof. intros env t. exists []. simpl. now rewrite app_nil_r. Qed.

Lemma calm_api (c : Call) : mutating c = false -> calm (api c).
Proof.
  intros H env t. exists [Api c (env t c)]. simpl. split; [reflexivity|].
  rewrite H. now destruct (env t c).
Qed.

Lemma calm_bind {A B} (m : M A) (k : A -> M B) :
  calm m -> (forall a, calm (k a)) -> calm (bind m k).
Proof.
  intros Hm Hk env t. unfold bind.
  destruct (Hm env t) as [l [Ht Hl]].
  destruct (m env t) as [[a|e|c|] t1]; simpl in *; subst t1; try (now exists l).
  destruct (Hk a env (t ++ l)) as [l' [Ht' Hl']].
  exists (l ++ l'). rewrite Ht', app_assoc, existsb_app, Hl, Hl'. auto.
Qed.

Ltac calm_step :=
  first
    [ apply calm_ret
    | apply calm_raise
    | apply calm_api; reflexivity
    | apply calm_bind; [|intros]
    | match goal with
      | |- calm (if ?b then _ else _) => destruct b
      | |- calm (match ?x with _ => _ end) => destruct x
      end ].

Ltac calm_tac := unfold describe_instance, private_ip_address_of, call; repeat calm_step.

(** *** Computations that end at a rejected request *)

Lemma fail_fast_calm {A} (m : M A) : calm m -> fail_fast m.
Proof.
  intros H env t. destruct (H env t) as [l [Ht Hl]].
  exists l. split; [assumption | now apply ends_at_rejection_calm].
Qed.

Lemma fail_fast_ret {A} (a : A) : fail_fast (ret a).
Proof. apply fail_fast_calm, calm_ret. Qed.

Lemma fail_fast_raise {A} (e : Exn) : fail_fast (@raise A e).
Proof. apply fail_fast_calm, calm_raise. Qed.

Lemma fail_fast_exit {A} (code : Z) : fail_fast (@exit A code).
Proof. intros env t. exists []. simpl. now rewrite app_nil_r. Qed.

Lemma fail_fast_out_of_fuel {A} : fail_fast (@out_of_fuel A).
Proof. intros env t. exists []. simpl. now rewrite app_nil_r. Qed.

Lemma fail_fast_time_sleep (seconds : Z) : fail_fast (time_sleep seconds).
Proof. intros env t. exists [Sleep seconds]. simpl. auto. Qed.

Lemma fail_fast_api (c : Call) : mutating c = false -> fail_fast (api c).
Proof. intros H. now apply fail_fast_calm, calm_api. Qed.

Lemma fail_fast_bind {A B} (m : M A) (k : A -> M B) :
  fail_fast m -> (forall a, fail_fast (k a)) -> fail_fast (bind m k).
Proof.
  intros Hm Hk env t. unfold bind.
  destruct (Hm env t) as [l [Ht Hl]].
  destruct (m env t) as [[a|e|c|] t1]; simpl in *; subst t1;
    try (exists l; split; [reflexivity|];
         eapply ends_at_rejection_outcome; [|eassumption]; congruence).
  destruct (Hk a env (t ++ l)) as [l' [Ht' Hl']].
  exists (l ++ l'). rewrite Ht', app_assoc. split; [reflexivity|].
  apply ends_at_rejection_app; [|assumption].
  now apply ends_at_rejection_returned with (a := a).
Qed.

(** A mutating request: the code after it is not reached when the client
    raises. *)
Lemma fail_fast_request {A} (c : Call) (k : Resp -> M A) :
  (forall env t, k RClientError env t = (Raise ClientError, t)) ->
  (forall r, fail_fast (k r)) ->
  fail_fast (bind (api c) k).
Proof.
  intros Hraise Hk env t. unfold bind, api. simpl.
  destruct (Hk (env t c) env (t ++ [Api c (env t c)])) as [l [Ht Hl]].
  exists ([Api c (env t c)] ++ l). rewrite Ht, app_assoc. split; [reflexivity|].
  destruct (env t c); try exact Hl.
  rewrite Hraise in *. simpl in *. destruct (mutating c); [|exact Hl].
  split; [|reflexivity].
  rewrite <- app_nil_r in Ht at 1. now apply app_inv_head in Ht.
Qed.

Lemma fail_fast_try_except {A} (m h : M A) :
  calm m -> fail_fast h -> fail_fast (try_except m h).
Proof.
  intros Hm Hh env t. unfold try_except.
  destruct (Hm env t) as [l [Ht Hl]].
  destruct (m env t) as [[a|e|c|] t1]; simpl in *; subst t1;
    try (exists l; split; [reflexivity | now apply ends_at_rejection_calm]);
    destruct (Hh env (t ++ l)) as [l' [Ht' Hl']];
    exists (l ++ l'); rewrite Ht', app_assoc; (split; [reflexivity|]);
    now apply ends_at_rejection_app.
Qed.

Lemma fail_fast_for_each {A} (xs : list A) (body : A -> M unit) :
  (forall x, fail_fast (body x)) -> fail_fast (for_each xs body).
Proof.
  intros H. induction xs as [|x xs IH]; simpl.
  - apply fail_fast_ret.
  - apply fail_fast_bind; auto.
Qed.

Lemma fail_fast_while_true {A} (fuel : nat) (body : M (option A)) :
  fail_fast body -> fail_fast (while_true fuel body).
Proof.
  intros H. induction fuel as [|fuel IH]; simpl.
  - apply fail_fast_out_of_fuel.
  - apply fail_fast_bind; [assumption|]. intros [a|]; [apply fail_fast_ret | assumption].
Qed.

Create HintDb fail_fast.

Ltac fail_fast_step :=
  first
    [ apply fail_fast_ret
    | apply fail_fast_raise
    | apply fail_fast_exit
    | apply fail_fast_out_of_fuel
    | apply fail_fast_time_sleep
    | apply fail_fast_api; reflexivity
    | solve [auto with fail_fast nocore]
    | apply fail_fast_request; [intros; reflexivity | intros]
    | apply fail_fast_bind; [|intros]
    | apply fail_fast_try_except; [calm_tac|]
    | apply fail_fast_for_each; intros
    | apply fail_fast_while_true
    | match goal with
      | |- fail_fast (if ?b then _ else _) => destruct b
      | |- fail_fast (match ?x with _ => _ end) => destruct x
      end ].

Ltac fail_fast_tac := unfold break_with, continue; repeat fail_fast_step.

Lemma fail_fast_http_status_code (r : Resp) : fail_fast (http_status_code r).
Proof. unfold http_status_code. fail_fast_tac. Qed.
#[local] Hint Resolve fail_fast_http_status_code : fail_fast.

Lemma fail_fast_get_load_balancer (name : string) : fail_fast (get_load_balancer name).
Proof. unfold get_load_balancer. fail_fast_tac. Qed.
#[local] Hint Resolve fail_fast_get_load_balancer : fail_fast.

Lemma fail_fast_get_autoscaling_group (name : string) : fail_fast (get_autoscaling_group name).
Proof. unfold get_autoscaling_group. fail_fast_tac. Qed.
#[local] Hint Resolve fail_fast_get_autoscaling_group : fail_fast.

Lemma fail_fast_get_autoscaling_group_configuration (autoscaler : AutoScalingGroup) :
  fail_fast (get_autoscaling_group_configuration autoscaler).
Proof. unfold get_autoscaling_group_configuration. fail_fast_tac. Qed.
#[local] Hint Resolve fail_fast_get_autoscaling_group_configuration : fail_fast.

Lemma fail_fast_get_instance_configuration (instance : Instance) :
  fail_fast (get_instance_configuration instance).
Proof. unfold get_instance_configuration. fail_fast_tac. Qed.
#[local] Hint Resolve fail_fast_get_instance_configuration : fail_fast.

Lemma fail_fast_get_instances_to_skip (instances : list Instance) (autoscaler : AutoScalingGroup) :
  fail_fast (get_instances_to_skip instances autoscaler).
Proof. induction instances as [|i rest IH]; simpl; fail_fast_tac. Qed.
#[local] Hint Resolve fail_fast_get_instances_to_skip : fail_fast.

Lemma fail_fast_remove_all (instances_to_skip instances_to_kill : list Instance) :
  fail_fast (remove_all instances_to_skip instances_to_kill).
Proof.
  revert instances_to_kill.
  induction instances_to_skip as [|i rest IH]; intros kill; simpl; fail_fast_tac.
Qed.
#[local] Hint Resolve fail_fast_remove_all : fail_fast.

Lemma fail_fast_get_suspended_processes (x : string + AutoScalingGroup) :
  fail_fast (get_suspended_processes x).
Proof. unfold get_suspended_processes. fail_fast_tac. Qed.
#[local] Hint Resolve fail_fast_get_suspended_processes : fail_fast.

Lemma fail_fast_describe_instance (instance_id : string) : fail_fast (describe_instance instance_id).
Proof. unfold describe_instance. fail_fast_tac. Qed.
#[local] Hint Resolve fail_fast_describe_instance : fail_fast.

Lemma fail_fast_get_autoscaler_healthy_instances (x : string + AutoScalingGroup) :
  fail_fast (get_autoscaler_healthy_instances x).
Proof. unfold get_autoscaler_healthy_instances. fail_fast_tac. Qed.
#[local] Hint Resolve fail_fast_get_autoscaler_healthy_instances : fail_fast.

Lemma fail_fast_get_number_of_autoscaler_healthy_instances (x : string + AutoScalingGroup) :
  fail_fast (get_number_of_autoscaler_healthy_instances x).
Proof. unfold get_number_of_autoscaler_healthy_instances. fail_fast_tac. Qed.
#[local] Hint Resolve fail_fast_get_number_of_autoscaler_healthy_instances : fail_fast.

Lemma fail_fast_check_if_autoscaler_is_scaling (name : string) :
  fail_fast (check_if_autoscaler_is_scaling name).
Proof. unfold check_if_autoscaler_is_scaling. fail_fast_tac. Qed.
#[local] Hint Resolve fail_fast_check_if_autoscaler_is_scaling : fail_fast.

Lemma fail_fast_wait_for_autoscaler_to_have_healthy_desired_instances
    (fuel : nat) (x : string + AutoScalingGroup) :
  fail_fast (wait_for_autoscaler_to_have_healthy_desired_instances fuel x).
Proof. unfold wait_for_autoscaler_to_have_healthy_desired_instances. fail_fast_tac. Qed.
#[local] Hint Resolve fail_fast_wait_for_autoscaler_to_have_healthy_desired_instances : fail_fast.

Lemma fail_fast_describe_target_health (arn : string) : fail_fast (describe_target_health arn).
Proof. unfold describe_target_health. fail_fast_tac. Qed.
#[local] Hint Resolve fail_fast_describe_target_health : fail_fast.

Lemma fail_fast_get_instance_ids_of_target_group (arn : string) :
  fail_fast (get_instance_ids_of_target_group arn).
Proof. unfold get_instance_ids_of_target_group. fail_fast_tac. Qed.
#[local] Hint Resolve fail_fast_get_instance_ids_of_target_group : fail_fast.

Lemma fail_fast_get_instance_ids_of_load_balancer (x : string + LoadBalancerDescription) :
  fail_fast (get_instance_ids_of_load_balancer x).
Proof. unfold get_instance_ids_of_load_balancer. fail_fast_tac. Qed.
#[local] Hint Resolve fail_fast_get_instance_ids_of_load_balancer : fail_fast.

Lemma fail_fast_describe_instance_health (name : string) (instances : list string) :
  fail_fast (describe_instance_health name instances).
Proof. unfold describe_instance_health. fail_fast_tac. Qed.
#[local] Hint Resolve fail_fast_describe_instance_health : fail_fast.

Lemma fail_fast_wait_for_complete_targetgroup_autoscaler_attachment
    (fuel : nat) (arn name : string) :
  fail_fast (wait_for_complete_targetgroup_autoscaler_attachment fuel arn name).
Proof. unfold wait_for_complete_targetgroup_autoscaler_attachment. fail_fast_tac. Qed.
#[local] Hint Resolve fail_fast_wait_for_complete_targetgroup_autoscaler_attachment : fail_fast.

Lemma fail_fast_wait_for_complete_loadbalancer_autoscaler_attachment
    (fuel : nat) (lb name : string) :
  fail_fast (wait_for_complete_loadbalancer_autoscaler_attachment fuel lb name).
Proof. unfold wait_for_complete_loadbalancer_autoscaler_attachment. fail_fast_tac. Qed.
#[local] Hint Resolve fail_fast_wait_for_complete_loadbalancer_autoscaler_attachment : fail_fast.

Lemma fail_fast_wait_for_instances_to_detach_from_loadbalancer
    (fuel : nat) (instance_ids : list string) (name : string) :
  fail_fast (wait_for_instances_to_detach_from_loadbalancer fuel instance_ids name).
Proof. unfold wait_for_instances_to_detach_from_loadbalancer. fail_fast_tac. Qed.
#[local] Hint Resolve fail_fast_wait_for_instances_to_detach_from_loadbalancer : fail_fast.

Lemma fail_fast_wait_for_instances_to_detach_from_target_group
    (fuel : nat) (instance_ids : list string) (arn : string) :
  fail_fast (wait_for_instances_to_detach_from_target_group fuel instance_ids arn).
Proof. unfold wait_for_instances_to_detach_from_target_group. fail_fast_tac. Qed.
#[local] Hint Resolve fail_fast_wait_for_instances_to_detach_from_target_group : fail_fast.

Lemma fail_fast_call (command : string) : fail_fast (call command).
Proof. unfold call. fail_fast_tac. Qed.
#[local] Hint Resolve fail_fast_call : fail_fast.

Lemma fail_fast_private_ip_address_of (details : option Ec2Instance) :
  fail_fast (private_ip_address_of details).
Proof. unfold private_ip_address_of. fail_fast_tac. Qed.
#[local] Hint Resolve fail_fast_private_ip_address_of : fail_fast.

Lemma fail_fast_health_up_check_batch (command : string) (new_instances : list Instance)
    (succeeded : bool) :
  fail_fast (health_up_check_batch command new_instances succeeded).
Proof.
  revert succeeded. induction new_instances as [|i rest IH]; intros succeeded; simpl;
    fail_fast_tac.
Qed.
#[local] Hint Resolve fail_fast_health_up_check_batch : fail_fast.

Lemma fail_fast_external_health_up_check (fuel : nat) (command : string)
    (new_instances : list Instance) :
  fail_fast (external_health_up_check fuel command new_instances).
Proof. unfold external_health_up_check. fail_fast_tac. Qed.
#[local] Hint Resolve fail_fast_external_health_up_check : fail_fast.

Lemma fail_fast_run_server_down_command (command : string) (details : option Ec2Instance) :
  fail_fast (run_server_down_command command details).
Proof. unfold run_server_down_command. fail_fast_tac. Qed.
#[local] Hint Resolve fail_fast_run_server_down_command : fail_fast.

Lemma fail_fast_wait_for_attachments (fuel : nat) (options : Options)
    (autoscaler : AutoScalingGroup) :
  fail_fast (wait_for_attachments fuel options autoscaler).
Proof. unfold wait_for_attachments. fail_fast_tac. Qed.
#[local] Hint Resolve fail_fast_wait_for_attachments : fail_fast.

Lemma fail_fast_wait_for_new_instances (fuel : nat) (options : Options)
    (current_instance_list : list Instance) :
  fail_fast (wait_for_new_instances fuel options current_instance_list).
Proof. unfold wait_for_new_instances. fail_fast_tac. Qed.
#[local] Hint Resolve fail_fast_wait_for_new_instances : fail_fast.

Lemma fail_fast_wait_for_instance_removal (fuel : nat) (autoscaler : AutoScalingGroup)
    (instance : Instance) :
  fail_fast (wait_for_instance_removal fuel autoscaler instance).
Proof. unfold wait_for_instance_removal. fail_fast_tac. Qed.
#[local] Hint Resolve fail_fast_wait_for_instance_removal : fail_fast.

Lemma fail_fast_wait_for_detachments (fuel : nat) (autoscaler : AutoScalingGroup)
    (instance_ids : list string) :
  fail_fast (wait_for_detachments fuel autoscaler instance_ids).
Proof. unfold wait_for_detachments. fail_fast_tac. Qed.
#[local] Hint Resolve fail_fast_wait_for_detachments : fail_fast.

(** *** The mutating requests *)

Lemma fail_fast_update_auto_scaling_group_max_size (name : string) (max_size : Z) :
  fail_fast (update_auto_scaling_group_max_size name max_size).
Proof. unfold update_auto_scaling_group_max_size. fail_fast_tac. Qed.
#[local] Hint Resolve fail_fast_update_auto_scaling_group_max_size : fail_fast.

Lemma fail_fast_suspend_processes (name : string) (processes : list string) :
  fail_fast (suspend_processes name processes).
Proof. unfold suspend_processes. fail_fast_tac. Qed.
#[local] Hint Resolve fail_fast_suspend_processes : fail_fast.

Lemma fail_fast_resume_processes (name : string) (processes : list string) :
  fail_fast (resume_processes name processes).
Proof. unfold resume_processes. fail_fast_tac. Qed.
#[local] Hint Resolve fail_fast_resume_processes : fail_fast.

Lemma fail_fast_resume_all_processes (name : string) :
  fail_fast (resume_all_processes name).
Proof. unfold resume_all_processes. fail_fast_tac. Qed.
#[local] Hint Resolve fail_fast_resume_all_processes : fail_fast.

Lemma fail_fast_set_desired_capacity (name : string) (desired_capacity : Z) :
  fail_fast (set_desired_capacity name desired_capacity).
Proof. unfold set_desired_capacity. fail_fast_tac. Qed.
#[local] Hint Resolve fail_fast_set_desired_capacity : fail_fast.

Lemma fail_fast_terminate_instance_in_auto_scaling_group
    (instance_id name : string) (decrement_capacity : bool) :
  fail_fast (terminate_instance_in_auto_scaling_group instance_id name decrement_capacity).
Proof.
  unfold terminate_instance_in_auto_scaling_group.
  destruct decrement_capacity; fail_fast_tac.
Qed.
#[local] Hint Resolve fail_fast_terminate_instance_in_auto_scaling_group : fail_fast.

Lemma fail_fast_deregister_instance_from_load_balancer (instance_id name : string) :
  fail_fast (deregister_instance_from_load_balancer instance_id name).
Proof. unfold deregister_instance_from_load_balancer. fail_fast_tac. Qed.
#[local] Hint Resolve fail_fast_deregister_instance_from_load_balancer : fail_fast.

Lemma fail_fast_deregister_instance_from_target_group (instance_id arn : string) :
  fail_fast (deregister_instance_from_target_group instance_id arn).
Proof. unfold deregister_instance_from_target_group. fail_fast_tac. Qed.
#[local] Hint Resolve fail_fast_deregister_instance_from_target_group : fail_fast.

(** *** The script *)

Lemma fail_fast_deregister_instance (autoscaler : AutoScalingGroup) (instance : Instance) :
  fail_fast (deregister_instance autoscaler instance).
Proof. unfold deregister_instance. fail_fast_tac. Qed.
#[local] Hint Resolve fail_fast_deregister_instance : fail_fast.

Lemma fail_fast_terminate_instance (options : Options) (count i : nat)
    (instance : Instance) (downscaled : bool) :
  fail_fast (terminate_instance options count i instance downscaled).
Proof. unfold terminate_instance. fail_fast_tac. Qed.
#[local] Hint Resolve fail_fast_terminate_instance : fail_fast.

Lemma fail_fast_retire_loop (fuel : nat) (options : Options) (autoscaler : AutoScalingGroup)
    (count : nat) (remaining : list Instance) :
  forall (i : nat) (current_instance_list : list Instance) (downscaled : bool),
    fail_fast (retire_loop fuel options autoscaler count i remaining
                           current_instance_list downscaled).
Proof.
  induction remaining as [|instance rest IH]; intros i current downscaled; simpl;
    fail_fast_tac.
Qed.
#[local] Hint Resolve fail_fast_retire_loop : fail_fast.

Lemma fail_fast_rollout (fuel : nat) (options : Options) (g : Globals) :
  fail_fast (rollout fuel options g).
Proof. unfold rollout. fail_fast_tac. Qed.

Lemma fail_fast_prepare_group (fuel : nat) (options : Options) (group : AutoScalingGroup) :
  fail_fast (prepare_group fuel options group).
Proof. unfold prepare_group. fail_fast_tac. Qed.

Lemma fail_fast_script (fuel : nat) (options : Options) : fail_fast (script fuel options).
Proof.
  unfold script, prepare.
  pose proof (fail_fast_prepare_group fuel options).
  pose proof (fail_fast_rollout fuel options).
  fail_fast_tac.
Qed.

(** A rejected mutating request is the last event of a run, which ends by
    the uncaught [ClientError]. *)
Lemma run_ends_at_rejection (fuel : nat) (options : Options) (env : Env)
    (before after : Trace) (c : Call) :
  snd (run fuel options env) = before ++ Api c RClientError :: after ->
  mutating c = true ->
  after = [] /\ fst (run fuel options env) = Raise ClientError.
Proof.
  intros Ht Hc.
  destruct (fail_fast_script fuel options env []) as [l [Hl H]].
  apply (ends_at_rejection_split _ l before after (Api c RClientError)); auto.
  unfold run in Ht. now rewrite <- Ht, Hl.
Qed.

(** C4 (the code departs from it): a de-registration that does not succeed
    is not logged and passed over.  The client raises [ClientError] for it,
    neither de-registration function catches the exception, and neither does
    the retire loop: in every run, a rejected de-registration, from a load
    balancer or from a target group, is the last event of the trace, and the
    process ends by the uncaught exception with status 1, without trying the
    next source and without entering the drain wait. *)
Theorem rejected_deregistration_aborts_run
    (fuel : nat) (options : Options) (env : Env) (instance_id source : string) :
  (forall t,
     env t (DeregisterInstancesFromLoadBalancer source instance_id) = RClientError ->
     deregister_instance_from_load_balancer instance_id source env t
     = (Raise ClientError,
        t ++ [Api (DeregisterInstancesFromLoadBalancer source instance_id) RClientError]))
  /\ (forall t,
        env t (DeregisterTargets source instance_id) = RClientError ->
        deregister_instance_from_target_group instance_id source env t
        = (Raise ClientError,
           t ++ [Api (DeregisterTargets source instance_id) RClientError]))
  /\ (forall before after c,
        c = DeregisterInstancesFromLoadBalancer source instance_id
        \/ c = DeregisterTargets source instance_id ->
        snd (run fuel options env) = before ++ Api c RClientError :: after ->
        after = []
        /\ fst (run fuel options env) = Raise ClientError
        /\ exit_status (fst (run fuel options env)) = Some 1).
Proof.
  split; [|split].
  - intros t E. unfold deregister_instance_from_load_balancer, http_status_code.
    unfold_monad. now rewrite E.
  - intros t E. unfold deregister_instance_from_target_group, http_status_code.
    unfold_monad. now rewrite E.
  - intros before after c Hc Ht.
    destruct (run_ends_at_rejection fuel options env before after c Ht) as [Hafter Ho].
    + destruct Hc as [-> | ->]; reflexivity.
    + rewrite Ho. auto.
Qed.

Lemma rejected_deregistration_aborts_run_witness :
  deregister_instance_from_load_balancer "i-a" "lb" env_load_balancer_rejects []
  = (Raise ClientError, [Api (DeregisterInstancesFromLoadBalancer "lb" "i-a") RClientError])
  /\ deregister_instance_from_target_group "i-a" "tg" env_target_group_rejects []
     = (Raise ClientError, [Api (DeregisterTargets "tg" "i-a") RClientError])
  /\ skipn 26 (snd (run 3 plain_options env_load_balancer_rejects)) = []
  /\ fst (run 3 plain_options env_load_balancer_rejects) = Raise ClientError
  /\ exit_status (fst (run 3 plain_options env_load_balancer_rejects)) = Some 1.
Proof.
  split; [|split].
  - apply (proj1 (rejected_deregistration_aborts_run
                    3 plain_options env_load_balancer_rejects "i-a" "lb")).
    reflexivity.
  - apply (proj1 (proj2 (rejected_deregistration_aborts_run
                           3 plain_options env_target_group_rejects "i-a" "tg"))).
    reflexivity.
  - apply (proj2 (proj2 (rejected_deregistration_aborts_run
                           3 plain_options env_load_balancer_rejects "i-a" "lb"))
             (firstn 25 (snd (run 3 plain_options env_load_balancer_rejects)))
             (skipn 26 (snd (run 3 plain_options env_load_balancer_rejects)))
             (DeregisterInstancesFromLoadBalancer "lb" "i-a")).
    + left. reflexivity.
    + vm_compute. reflexivity.
Defined.

(** The same on the target group: the retiree had left the load balancer,
    the run dies on the next request; no instance was terminated, the
    desired capacity stays raised, and neither the max size nor the
    suspended processes were restored. *)
Example run_aborts_when_target_group_rejects :
  fst (run 3 plain_options env_target_group_rejects) = Raise ClientError
  /\ mutation_calls (snd (run 3 plain_options env_target_group_rejects))
     = [UpdateAutoScalingGroup "web" 3;
        SuspendProcesses "web" suspend_new_processes;
        SetDesiredCapacity "web" 3;
        DeregisterInstancesFromLoadBalancer "lb" "i-a";
        DeregisterTargets "tg" "i-a"].
Proof. vm_compute. split; reflexivity. Qed.


(** ** Capacity requests of a run *)

Lemma capacity_events_app (t l : Trace) :
  capacity_events (t ++ l) = capacity_events t ++ capacity_events l.
Proof. unfold capacity_events. apply flat_map_app. Qed.

Lemma failed_stopped {A} (o : Outcome A) : failed o -> stopped o.
Proof. destruct o; simpl; auto. Qed.

Lemma failed_exit_status {A} (o : Outcome A) : failed o -> exit_status o = Some 1.
Proof. destruct o; simpl; intros H; subst; auto; contradiction. Qed.

(** *** Quiet computations *)

Lemma quiet_ret {A} (a : A) : quiet (ret a).
Proof. intros env t. simpl. auto. Qed.

Lemma quiet_raise {A} (e : Exn) : quiet (@raise A e).
Proof. intros env t. simpl. auto. Qed.

Lemma quiet_exit_1 {A} : quiet (@exit A 1).
Proof. intros env t. simpl. auto. Qed.

Lemma quiet_out_of_fuel {A} : quiet (@out_of_fuel A).
Proof. intros env t. simpl. auto. Qed.

Lemma quiet_api (c : Call) : capacity c = false -> quiet (api c).
Proof.
  intros H env t. simpl. rewrite capacity_events_app. simpl. rewrite H.
  now rewrite app_nil_r.
Qed.

Lemma quiet_time_sleep (seconds : Z) : quiet (time_sleep seconds).
Proof.
  intros env t. simpl. rewrite capacity_events_app. simpl. now rewrite app_nil_r.
Qed.

Lemma quiet_bind {A B} (m : M A) (k : A -> M B) :
  quiet m -> (forall a, quiet (k a)) -> quiet (bind m k).
Proof.
  intros Hm Hk env t. unfold bind.
  destruct (Hm env t) as [Ht Hp].
  destruct (m env t) as [[a|e|c|] t1]; simpl in *; auto.
  destruct (Hk a env t1) as [Ht1 Hp1]. rewrite Ht1. auto.
Qed.

Lemma quiet_try_except {A} (m h : M A) :
  quiet m -> quiet h -> quiet (try_except m h).
Proof.
  intros Hm Hh env t. unfold try_except.
  destruct (Hm env t) as [Ht Hp].
  destruct (m env t) as [[a|e|c|] t1]; simpl in *; auto;
    destruct (Hh env t1) as [Ht1 Hp1]; rewrite Ht1; auto.
Qed.

Lemma quiet_for_each {A} (xs : list A) (body : A -> M unit) :
  (forall x, quiet (body x)) -> quiet (for_each xs body).
Proof.
  intros H. induction xs as [|x xs IH]; simpl.
  - apply quiet_ret.
  - apply quiet_bind; auto.
Qed.

Lemma quiet_while_true {A} (fuel : nat) (body : M (option A)) :
  quiet body -> quiet (while_true fuel body).
Proof.
  intros H. induction fuel as [|fuel IH]; simpl.
  - apply quiet_out_of_fuel.
  - apply quiet_bind; [assumption|]. intros [a|]; [apply quiet_ret | assumption].
Qed.

Create HintDb quiet.

Ltac quiet_step :=
  first
    [ apply quiet_ret
    | apply quiet_raise
    | apply quiet_exit_1
    | apply quiet_out_of_fuel
    | apply quiet_time_sleep
    | apply quiet_api; reflexivity
    | solve [auto with quiet nocore]
    | apply quiet_bind; [|intros]
    | apply quiet_try_except
    | apply quiet_for_each; intros
    | apply quiet_while_true
    | match goal with
      | |- quiet (if ?b then _ else _) => destruct b
      | |- quiet (match ?x with _ => _ end) => destruct x
      end ].

Ltac quiet_tac := unfold break_with, continue; repeat quiet_step.

Lemma quiet_http_status_code (r : Resp) : quiet (http_status_code r).
Proof. unfold http_status_code. quiet_tac. Qed.
#[local] Hint Resolve quiet_http_status_code : quiet.

Lemma quiet_get_load_balancer (name : string) : quiet (get_load_balancer name).
Proof. unfold get_load_balancer. quiet_tac. Qed.
#[local] Hint Resolve quiet_get_load_balancer : quiet.

Lemma quiet_get_autoscaling_group (name : string) : quiet (get_autoscaling_group name).
Proof. unfold get_autoscaling_group. quiet_tac. Qed.
#[local] Hint Resolve quiet_get_autoscaling_group : quiet.

Lemma quiet_get_autoscaling_group_configuration (autoscaler : AutoScalingGroup) :
  quiet (get_autoscaling_group_configuration autoscaler).
Proof. unfold get_autoscaling_group_configuration. quiet_tac. Qed.
#[local] Hint Resolve quiet_get_autoscaling_group_configuration : quiet.

Lemma quiet_get_instance_configuration (instance : Instance) :
  quiet (get_instance_configuration instance).
Proof. unfold get_instance_configuration. quiet_tac. Qed.
#[local] Hint Resolve quiet_get_instance_configuration : quiet.

Lemma quiet_get_instances_to_skip (instances : list Instance) (autoscaler : AutoScalingGroup) :
  quiet (get_instances_to_skip instances autoscaler).
Proof. induction instances as [|i rest IH]; simpl; quiet_tac. Qed.
#[local] Hint Resolve quiet_get_instances_to_skip : quiet.

Lemma quiet_remove_all (instances_to_skip instances_to_kill : list Instance) :
  quiet (remove_all instances_to_skip instances_to_kill).
Proof.
  revert instances_to_kill.
  induction instances_to_skip as [|i rest IH]; intros kill; simpl; quiet_tac.
Qed.
#[local] Hint Resolve quiet_remove_all : quiet.

Lemma quiet_get_suspended_processes (x : string + AutoScalingGroup) :
  quiet (get_suspended_processes x).
Proof. unfold get_suspended_processes. quiet_tac. Qed.
#[local] Hint Resolve quiet_get_suspended_processes : quiet.

Lemma quiet_describe_instance (instance_id : string) : quiet (describe_instance instance_id).
Proof. unfold describe_instance. quiet_tac. Qed.
#[local] Hint Resolve quiet_describe_instance : quiet.

Lemma quiet_suspend_processes (name : string) (processes : list string) :
  quiet (suspend_processes name processes).
Proof. unfold suspend_processes. quiet_tac. Qed.
#[local] Hint Resolve quiet_suspend_processes : quiet.

Lemma quiet_resume_processes (name : string) (processes : list string) :
  quiet (resume_processes name processes).
Proof. unfold resume_processes. quiet_tac. Qed.
#[local] Hint Resolve quiet_resume_processes : quiet.

Lemma quiet_resume_all_processes (name : string) : quiet (resume_all_processes name).
Proof. unfold resume_all_processes. quiet_tac. Qed.
#[local] Hint Resolve quiet_resume_all_processes : quiet.

Lemma quiet_get_autoscaler_healthy_instances (x : string + AutoScalingGroup) :
  quiet (get_autoscaler_healthy_instances x).
Proof. unfold get_autoscaler_healthy_instances. quiet_tac. Qed.
#[local] Hint Resolve quiet_get_autoscaler_healthy_instances : quiet.

Lemma quiet_get_number_of_autoscaler_healthy_instances (x : string + AutoScalingGroup) :
  quiet (get_number_of_autoscaler_healthy_instances x).
Proof. unfold get_number_of_autoscaler_healthy_instances. quiet_tac. Qed.
#[local] Hint Resolve quiet_get_number_of_autoscaler_healthy_instances : quiet.

Lemma quiet_check_if_autoscaler_is_scaling (name : string) :
  quiet (check_if_autoscaler_is_scaling name).
Proof. unfold check_if_autoscaler_is_scaling. quiet_tac. Qed.
#[local] Hint Resolve quiet_check_if_autoscaler_is_scaling : quiet.

Lemma quiet_deregister_instance_from_load_balancer (instance_id name : string) :
  quiet (deregister_instance_from_load_balancer instance_id name).
Proof. unfold deregister_instance_from_load_balancer. quiet_tac. Qed.
#[local] Hint Resolve quiet_deregister_instance_from_load_balancer : quiet.

Lemma quiet_deregister_instance_from_target_group (instance_id arn : string) :
  quiet (deregister_instance_from_target_group instance_id arn).
Proof. unfold deregister_instance_from_target_group. quiet_tac. Qed.
#[local] Hint Resolve quiet_deregister_instance_from_target_group : quiet.

Lemma quiet_wait_for_autoscaler_to_have_healthy_desired_instances
    (fuel : nat) (x : string + AutoScalingGroup) :
  quiet (wait_for_autoscaler_to_have_healthy_desired_instances fuel x).
Proof. unfold wait_for_autoscaler_to_have_healthy_desired_instances. quiet_tac. Qed.
#[local] Hint Resolve quiet_wait_for_autoscaler_to_have_healthy_desired_instances : quiet.

Lemma quiet_describe_target_health (arn : string) : quiet (describe_target_health arn).
Proof. unfold describe_target_health. quiet_tac. Qed.
#[local] Hint Resolve quiet_describe_target_health : quiet.

Lemma quiet_get_instance_ids_of_target_group (arn : string) :
  quiet (get_instance_ids_of_target_group arn).
Proof. unfold get_instance_ids_of_target_group. quiet_tac. Qed.
#[local] Hint Resolve quiet_get_instance_ids_of_target_group : quiet.

Lemma quiet_get_instance_ids_of_load_balancer (x : string + LoadBalancerDescription) :
  quiet (get_instance_ids_of_load_balancer x).
Proof. unfold get_instance_ids_of_load_balancer. quiet_tac. Qed.
#[local] Hint Resolve quiet_get_instance_ids_of_load_balancer : quiet.

Lemma quiet_describe_instance_health (name : string) (instances : list string) :
  quiet (describe_instance_health name instances).
Proof. unfold describe_instance_health. quiet_tac. Qed.
#[local] Hint Resolve quiet_describe_instance_health : quiet.

Lemma quiet_wait_for_complete_targetgroup_autoscaler_attachment
    (fuel : nat) (arn name : string) :
  quiet (wait_for_complete_targetgroup_autoscaler_attachment fuel arn name).
Proof. unfold wait_for_complete_targetgroup_autoscaler_attachment. quiet_tac. Qed.
#[local] Hint Resolve quiet_wait_for_complete_targetgroup_autoscaler_attachment : quiet.

Lemma quiet_wait_for_complete_loadbalancer_autoscaler_attachment
    (fuel : nat) (lb name : string) :
  quiet (wait_for_complete_loadbalancer_autoscaler_attachment fuel lb name).
Proof. unfold wait_for_complete_loadbalancer_autoscaler_attachment. quiet_tac. Qed.
#[local] Hint Resolve quiet_wait_for_complete_loadbalancer_autoscaler_attachment : quiet.

Lemma quiet_wait_for_instances_to_detach_from_loadbalancer
    (fuel : nat) (instance_ids : list string) (name : string) :
  quiet (wait_for_instances_to_detach_from_loadbalancer fuel instance_ids name).
Proof. unfold wait_for_instances_to_detach_from_loadbalancer. quiet_tac. Qed.
#[local] Hint Resolve quiet_wait_for_instances_to_detach_from_loadbalancer : quiet.

Lemma quiet_wait_for_instances_to_detach_from_target_group
    (fuel : nat) (instance_ids : list string) (arn : string) :
  quiet (wait_for_instances_to_detach_from_target_group fuel instance_ids arn).
Proof. unfold wait_for_instances_to_detach_from_target_group. quiet_tac. Qed.
#[local] Hint Resolve quiet_wait_for_instances_to_detach_from_target_group : quiet.

Lemma quiet_call (command : string) : quiet (call command).
Proof. unfold call. quiet_tac. Qed.
#[local] Hint Resolve quiet_call : quiet.

Lemma quiet_private_ip_address_of (details : option Ec2Instance) :
  quiet (private_ip_address_of details).
Proof. unfold private_ip_address_of. quiet_tac. Qed.
#[local] Hint Resolve quiet_private_ip_address_of : quiet.

Lemma quiet_health_up_check_batch (command : string) (new_instances : list Instance)
    (succeeded : bool) :
  quiet (health_up_check_batch command new_instances succeeded).
Proof.
  revert succeeded. induction new_instances as [|i rest IH]; intros succeeded; simpl;
    quiet_tac.
Qed.
#[local] Hint Resolve quiet_health_up_check_batch : quiet.

Lemma quiet_external_health_up_check (fuel : nat) (command : string)
    (new_instances : list Instance) :
  quiet (external_health_up_check fuel command new_instances).
Proof. unfold external_health_up_check. quiet_tac. Qed.
#[local] Hint Resolve quiet_external_health_up_check : quiet.

Lemma quiet_run_server_down_command (command : string) (details : option Ec2Instance) :
  quiet (run_server_down_command command details).
Proof. unfold run_server_down_command. quiet_tac. Qed.
#[local] Hint Resolve quiet_run_server_down_command : quiet.

Lemma quiet_wait_for_attachments (fuel : nat) (options : Options)
    (autoscaler : AutoScalingGroup) :
  quiet (wait_for_attachments fuel options autoscaler).
Proof. unfold wait_for_attachments. quiet_tac. Qed.
#[local] Hint Resolve quiet_wait_for_attachments : quiet.

Lemma quiet_wait_for_new_instances (fuel : nat) (options : Options)
    (current_instance_list : list Instance) :
  quiet (wait_for_new_instances fuel options current_instance_list).
Proof. unfold wait_for_new_instances. quiet_tac. Qed.
#[local] Hint Resolve quiet_wait_for_new_instances : quiet.

Lemma quiet_deregister_instance (autoscaler : AutoScalingGroup) (instance : Instance) :
  quiet (deregister_instance autoscaler instance).
Proof. unfold deregister_instance. quiet_tac. Qed.
#[local] Hint Resolve quiet_deregister_instance : quiet.

Lemma quiet_wait_for_instance_removal (fuel : nat) (autoscaler : AutoScalingGroup)
    (instance : Instance) :
  quiet (wait_for_instance_removal fuel autoscaler instance).
Proof. unfold wait_for_instance_removal. quiet_tac. Qed.
#[local] Hint Resolve quiet_wait_for_instance_removal : quiet.

Lemma quiet_wait_for_detachments (fuel : nat) (autoscaler : AutoScalingGroup)
    (instance_ids : list string) :
  quiet (wait_for_detachments fuel autoscaler instance_ids).
Proof. unfold wait_for_detachments. quiet_tac. Qed.
#[local] Hint Resolve quiet_wait_for_detachments : quiet.

(** *** Sequences of capacity requests *)

Lemma issues_weaken {A} (F F' : Outcome A -> Prop) (calls : list Call)
    (o : Outcome A) (events : list (Call * Resp)) :
  (F o -> F' o) -> issues F calls o events -> issues F' calls o events.
Proof.
  intros HF H. induction H.
  - apply issues_done. auto.
  - now apply issues_stop.
  - now apply issues_fail.
  - apply issues_ok. auto.
Qed.

(** A computation that returned ended as [final] says. *)
Lemma issues_final {A} (F : Outcome A -> Prop) (calls : list Call) (a : A)
    (events : list (Call * Resp)) :
  issues F calls (Ok a) events -> F (Ok a).
Proof.
  intros H. remember (Ok a) as oa eqn:E. induction H; subst; auto; contradiction.
Qed.

(** A computation that returned made all its requests. *)
Lemma issues_returned {A B} (F : Outcome A -> Prop) (F' : Outcome B -> Prop)
    (calls calls' : list Call) (a : A) (o : Outcome B)
    (events events' : list (Call * Resp)) :
  issues F calls (Ok a) events ->
  issues F' calls' o events' ->
  F (Ok a) /\ issues F' (calls ++ calls') o (events ++ events').
Proof.
  intros H H'. remember (Ok a) as oa eqn:E. induction H; subst.
  - split; assumption.
  - contradiction.
  - contradiction.
  - destruct (IHissues eq_refl) as [HF Hi]. split; [assumption|].
    simpl. now apply issues_ok.
Qed.

Lemma same_stop_stopped {A B} (o : Outcome A) (o' : Outcome B) :
  same_stop o o' -> stopped o -> stopped o'.
Proof. destruct o, o'; simpl; intros; subst; auto; contradiction. Qed.

Lemma same_stop_failed {A B} (o : Outcome A) (o' : Outcome B) :
  same_stop o o' -> failed o -> failed o'.
Proof. destruct o, o'; simpl; intros; subst; auto; contradiction. Qed.

Lemma issues_stopped {A B} (F : Outcome A -> Prop) (F' : Outcome B -> Prop)
    (calls calls' : list Call) (o : Outcome A) (o' : Outcome B)
    (events : list (Call * Resp)) :
  (forall x, F x -> returned x) ->
  same_stop o o' ->
  issues F calls o events ->
  issues F' (calls ++ calls') o' events.
Proof.
  intros HF Hs H. induction H.
  - apply HF in H. destruct o; simpl in *; contradiction.
  - apply issues_stop. eapply same_stop_stopped; eassumption.
  - simpl. apply issues_fail; [assumption|]. eapply same_stop_failed; eassumption.
  - simpl. apply issues_ok. auto.
Qed.

Lemma follows_at_bind {A B} (env : Env) (t : Trace)
    (F : Outcome A -> Prop) (F' : Outcome B -> Prop)
    (calls calls' : list Call) (m : M A) (k : A -> M B) :
  (forall x, F x -> returned x) ->
  follows_at env t F calls m ->
  (forall a t1, m env t = (Ok a, t1) -> F (Ok a) -> follows_at env t1 F' calls' (k a)) ->
  follows_at env t F' (calls ++ calls') (bind m k).
Proof.
  intros HF [events [Ht Hi]] Hk. unfold follows_at, bind.
  destruct (m env t) as [[a|e|c|] t1] eqn:E; simpl in *.
  - assert (F (Ok a)) as Ha by now apply (issues_final F calls a events).
    destruct (Hk a t1 eq_refl Ha) as [events' [Ht' Hi']].
    exists (events ++ events'). split.
    + now rewrite Ht', Ht, app_assoc.
    + now apply (issues_returned F F' calls calls' a _ events events' Hi Hi').
  - exists events. split; [assumption|].
    now apply (issues_stopped F F' calls calls' (Raise e) (Raise e) events HF).
  - exists events. split; [assumption|].
    now apply (issues_stopped F F' calls calls' (Exit c) (Exit c) events HF).
  - exists events. split; [assumption|].
    now apply (issues_stopped F F' calls calls' OutOfFuel OutOfFuel events HF).
Qed.

Lemma follows_bind {A B} (F : Outcome A -> Prop) (F' : Outcome B -> Prop)
    (calls calls' : list Call) (m : M A) (k : A -> M B) :
  (forall x, F x -> returned x) ->
  follows F calls m ->
  (forall a, F (Ok a) -> follows F' calls' (k a)) ->
  follows F' (calls ++ calls') (bind m k).
Proof.
  intros HF Hm Hk env t. apply follows_at_bind with (F := F); auto.
  intros a t1 _ Ha. now apply Hk.
Qed.

Lemma follows_quiet {A} (m : M A) : quiet m -> follows returned [] m.
Proof.
  intros H env t. destruct (H env t) as [Ht Hp]. exists []. split.
  - now rewrite app_nil_r.
  - destruct (fst (m env t)) as [a|e|c|]; simpl in *.
    + now apply issues_done.
    + now apply issues_stop.
    + now apply issues_stop.
    + now apply issues_stop.
Qed.

Lemma follows_quiet_bind {A B} (F : Outcome B -> Prop) (calls : list Call)
    (m : M A) (k : A -> M B) :
  quiet m -> (forall a, follows F calls (k a)) -> follows F calls (bind m k).
Proof.
  intros Hm Hk.
  change calls with ([] ++ calls).
  apply follows_bind with (F := returned); auto using follows_quiet.
Qed.

Lemma follows_weaken {A} (F F' : Outcome A -> Prop) (calls : list Call) (m : M A) :
  (forall o, F o -> F' o) -> follows F calls m -> follows F' calls m.
Proof.
  intros HF H env t. destruct (H env t) as [events [Ht Hi]].
  exists events. split; [assumption|]. eapply issues_weaken; [apply HF | eassumption].
Qed.

Lemma follows_ret {A} (F : Outcome A -> Prop) (a : A) :
  F (Ok a) -> follows F [] (ret a).
Proof.
  intros H env t. exists []. simpl. rewrite app_nil_r. split; [reflexivity|].
  now apply issues_done.
Qed.

Lemma follows_exit_0 : follows (fun o => o = Exit 0) [] (@exit unit 0).
Proof.
  intros env t. exists []. simpl. rewrite app_nil_r. split; [reflexivity|].
  now apply issues_done.
Qed.

(** A capacity request whose answer is checked at once. *)
Lemma follows_request {A} (c : Call) (a : A) (on_failure : M A) :
  capacity c = true ->
  (forall env t, failed (fst (on_failure env t)) /\ snd (on_failure env t) = t) ->
  follows (fun o => o = Ok a) [c]
    (response <- api c ;;
     code <- http_status_code response ;;
     if code =? 200 then ret a else on_failure).
Proof.
  intros Hc Hf env t. unfold follows_at, http_status_code. unfold_monad.
  assert (forall r, capacity_events (t ++ [Api c r]) = capacity_events t ++ [(c, r)]) as Ht.
  { intros r. rewrite capacity_events_app. simpl. now rewrite Hc. }
  destruct (env t c) as [code| | | | | | |] eqn:Er; simpl;
    try (eexists; split; [apply Ht|]; apply issues_fail; [discriminate | exact I]).
  destruct (code =? 200) eqn:C.
  - apply Z.eqb_eq in C. subst code. exists [(c, RStatus 200)]. split; [apply Ht|].
    apply issues_ok. now apply issues_done.
  - apply Z.eqb_neq in C. destruct (Hf env (t ++ [Api c (RStatus code)])) as [Hfail Hsame].
    exists [(c, RStatus code)]. rewrite Hsame. split; [apply Ht|].
    apply issues_fail; [congruence | assumption].
Qed.

Lemma follows_set_desired_capacity (name : string) (desired_capacity : Z) :
  follows (fun o => o = Ok true) [SetDesiredCapacity name desired_capacity]
    (set_desired_capacity name desired_capacity).
Proof.
  unfold set_desired_capacity. apply follows_request; [reflexivity|].
  intros env t. simpl. auto.
Qed.

Lemma follows_terminate_instance_in_auto_scaling_group
    (instance_id name : string) (flag : bool) :
  follows (fun o => o = Ok true) [TerminateInstanceInAutoScalingGroup instance_id flag]
    (terminate_instance_in_auto_scaling_group instance_id name flag).
Proof.
  unfold terminate_instance_in_auto_scaling_group.
  destruct flag; (apply follows_request; [reflexivity|]; intros env t; simpl; auto).
Qed.

(** The max size change, with the [exit(1)] its callers attach to a failure. *)
Lemma follows_update_max_size (name : string) (max_size : Z) :
  follows (fun o => o = Ok tt) [UpdateAutoScalingGroup name max_size]
    (updated <- update_auto_scaling_group_max_size name max_size ;;
     if updated then ret tt else exit 1).
Proof.
  intros env t.
  destruct (follows_request (UpdateAutoScalingGroup name max_size) tt (exit 1)
              eq_refl (fun env t => conj eq_refl eq_refl) env t)
    as [events [Ht Hi]].
  exists events.
  assert ((updated <- update_auto_scaling_group_max_size name max_size ;;
           if updated then ret tt else exit 1) env t
          = (response <- api (UpdateAutoScalingGroup name max_size) ;;
             code <- http_status_code response ;;
             if code =? 200 then ret tt else exit 1) env t) as ->; [|now split].
  unfold update_auto_scaling_group_max_size, http_status_code. unfold_monad.
  destruct (env t (UpdateAutoScalingGroup name max_size)) as [code| | | | | | |];
    try reflexivity.
  now destruct (code =? 200).
Qed.

(** *** The retire loop *)

Lemma follows_terminate_instance (options : Options) (count i : nat)
    (instance : Instance) (rest : list Instance) (downscaled : bool) :
  (i + S (length rest))%nat = count ->
  follows (fun o => o = Ok (match rest with [] => true | _ => downscaled end))
    [TerminateInstanceInAutoScalingGroup
       (InstanceId instance) (match rest with [] => true | _ => false end)]
    (terminate_instance options count i instance downscaled).
Proof.
  intros Hcount. unfold terminate_instance.
  destruct (Z.of_nat i + 1 =? Z.of_nat count) eqn:C.
  - apply Z.eqb_eq in C. destruct rest as [|x rest]; [|simpl in Hcount; lia].
    change [TerminateInstanceInAutoScalingGroup (InstanceId instance) true]
      with ([TerminateInstanceInAutoScalingGroup (InstanceId instance) true] ++ []).
    apply follows_bind with (F := fun o => o = Ok true).
    + intros x ->. exact I.
    + apply follows_terminate_instance_in_auto_scaling_group.
    + intros _ _. now apply follows_ret.
  - apply Z.eqb_neq in C. destruct rest as [|x rest]; [simpl in Hcount; lia|].
    change [TerminateInstanceInAutoScalingGroup (InstanceId instance) false]
      with ([TerminateInstanceInAutoScalingGroup (InstanceId instance) false] ++ []).
    apply follows_bind with (F := fun o => o = Ok true).
    + intros y ->. exact I.
    + apply follows_terminate_instance_in_auto_scaling_group.
    + intros _ _. now apply follows_ret.
Qed.

Ltac quiet_prefix :=
  repeat (apply follows_quiet_bind; [solve [quiet_tac] | intros]).

Lemma follows_retire_loop (fuel : nat) (options : Options) (autoscaler : AutoScalingGroup)
    (count : nat) (remaining : list Instance) :
  forall (i : nat) (current_instance_list : list Instance) (downscaled : bool),
    (i + length remaining)%nat = count ->
    follows (fun o => o = Ok (match remaining with [] => downscaled | _ => true end))
      (retire_calls remaining)
      (retire_loop fuel options autoscaler count i remaining current_instance_list
                   downscaled).
Proof.
  induction remaining as [|instance rest IH]; intros i current downscaled Hcount.
  - simpl. now apply follows_ret.
  - simpl retire_loop. simpl retire_calls. quiet_prefix.
    change (?c :: retire_calls rest) with ([c] ++ retire_calls rest).
    apply follows_bind
      with (F := fun o => o = Ok (match rest with [] => true | _ => downscaled end)).
    + intros x ->. exact I.
    + apply follows_terminate_instance. simpl in Hcount. lia.
    + intros d Hd. quiet_prefix.
      eapply follows_weaken; [|apply IH; simpl in Hcount; lia].
      intros o ->. inversion Hd. now destruct rest.
Qed.

(** *** The run after the preparation *)

Lemma follows_restore_max_size (options : Options) (g : Globals) :
  follows (fun o => o = Exit 0)
    (if autoscaler_old_max_size g =? autoscaler_old_desired_capacity g
     then [UpdateAutoScalingGroup (opt_autoscaler options) (autoscaler_old_max_size g)]
     else [])
    ((if autoscaler_old_max_size g =? autoscaler_old_desired_capacity g
      then
        updated <- update_auto_scaling_group_max_size (opt_autoscaler options)
                     (autoscaler_old_max_size g) ;;
        if updated then ret tt else exit 1
      else ret tt) ;;;
     @exit unit 0).
Proof.
  destruct (autoscaler_old_max_size g =? autoscaler_old_desired_capacity g).
  - change [UpdateAutoScalingGroup (opt_autoscaler options) (autoscaler_old_max_size g)]
      with ([UpdateAutoScalingGroup (opt_autoscaler options) (autoscaler_old_max_size g)]
              ++ []).
    apply follows_bind with (F := fun o => o = Ok tt).
    + intros x ->. exact I.
    + apply follows_update_max_size.
    + intros _ _. apply follows_exit_0.
  - apply follows_quiet_bind; [quiet_tac|]. intros _. apply follows_exit_0.
Qed.

Lemma follows_set_desired_capacity_step (name : string) (desired_capacity : Z) :
  follows (fun o => o = Ok tt) [SetDesiredCapacity name desired_capacity]
    (set_desired_capacity name desired_capacity ;;; ret tt).
Proof.
  change [SetDesiredCapacity name desired_capacity]
    with ([SetDesiredCapacity name desired_capacity] ++ []).
  apply follows_bind with (F := fun o => o = Ok true).
  - intros x ->. exact I.
  - apply follows_set_desired_capacity.
  - intros _ _. now apply follows_ret.
Qed.

Lemma follows_rollout (fuel : nat) (options : Options) (g : Globals) :
  follows (fun o => o = Exit 0) (rollout_calls options g) (rollout fuel options g).
Proof.
  unfold rollout, rollout_calls.
  apply follows_bind with (F := fun o => o = Ok tt).
  { intros x ->. exact I. }
  { destruct (instances_to_kill g) as [|instance rest]; simpl.
    - now apply follows_ret.
    - replace (Z.pos (Pos.of_succ_nat (length rest)) >? 0) with true by reflexivity.
      apply follows_set_desired_capacity_step. }
  intros _ _.
  apply follows_bind
    with (F := fun o => o = Ok (match instances_to_kill g with [] => false | _ => true end)).
  { intros x ->. exact I. }
  { now apply follows_retire_loop. }
  intros downscaled Hd. inversion Hd as [Hdown]. clear Hd.
  apply follows_quiet_bind; [quiet_tac|]. intros _.
  apply follows_bind with (F := fun o => o = Ok tt).
  { intros x ->. exact I. }
  { destruct (instances_to_kill g) as [|instance rest]; simpl.
    - apply follows_set_desired_capacity_step.
    - now apply follows_ret. }
  intros _ _.
  apply follows_quiet_bind; [quiet_tac|]. intros _.
  apply follows_restore_max_size.
Qed.

(** *** The preparation *)

Lemma follows_prepare_group (fuel : nat) (options : Options) (group : AutoScalingGroup) :
  follows (fun o => exists g, o = Ok g
                              /\ autoscaler_old_max_size g = MaxSize group
                              /\ autoscaler_old_desired_capacity g = DesiredCapacity group)
    (prepare_calls options group)
    (prepare_group fuel options group).
Proof.
  unfold prepare_group, prepare_calls. cbv zeta.
  rewrite <- (app_nil_r (if MaxSize group =? DesiredCapacity group then _ else _)).
  apply follows_bind with (F := fun o => o = Ok tt).
  { intros x ->. exact I. }
  { destruct (MaxSize group =? DesiredCapacity group).
    - apply follows_update_max_size.
    - now apply follows_ret. }
  intros _ _. quiet_prefix.
  apply follows_ret. eexists. split; [reflexivity|]. split; reflexivity.
Qed.

(** A quiet continuation adds no capacity request. *)
Lemma quiet_continuation {A B} (m : M A) (k : A -> M B) (env : Env) (t : Trace) :
  (forall a, quiet (k a)) ->
  capacity_events (snd (bind m k env t)) = capacity_events (snd (m env t)).
Proof.
  intros Hk. unfold bind. destruct (m env t) as [[a|e|c|] t1]; simpl; try reflexivity.
  apply Hk.
Qed.

(** When the group is at its max size, the first thing the preparation
    does is to ask for one more. *)
Lemma prepare_group_capacity_events (fuel : nat) (options : Options)
    (group : AutoScalingGroup) (env : Env) (t : Trace) :
  capacity_events (snd (prepare_group fuel options group env t))
  = capacity_events t
    ++ (if MaxSize group =? DesiredCapacity group
        then [(UpdateAutoScalingGroup (opt_autoscaler options) (MaxSize group + 1),
               env t (UpdateAutoScalingGroup (opt_autoscaler options) (MaxSize group + 1)))]
        else []).
Proof.
  unfold prepare_group. cbv zeta. rewrite quiet_continuation.
  - destruct (MaxSize group =? DesiredCapacity group).
    + unfold update_auto_scaling_group_max_size, http_status_code. unfold_monad.
      destruct (env t (UpdateAutoScalingGroup (opt_autoscaler options) (MaxSize group + 1)))
        as [code| | | | | | |]; simpl; try destruct (code =? 200); simpl;
        rewrite capacity_events_app; reflexivity.
    + simpl. now rewrite app_nil_r.
  - intros _. quiet_tac.
Qed.

(** *** What a sequence of requests tells *)

Lemma issues_prefix {A} (F : Outcome A -> Prop) (calls : list Call) (o : Outcome A)
    (events : list (Call * Resp)) :
  issues F calls o events -> exists later, calls = map fst events ++ later.
Proof.
  intros H. induction H.
  - now exists [].
  - now exists calls.
  - now exists calls.
  - destruct IHissues as [later ->]. now exists later.
Qed.

Lemma issues_complete {A} (F : Outcome A -> Prop) (calls : list Call) (o : Outcome A)
    (events : list (Call * Resp)) :
  issues F calls o events -> ~ stopped o -> events = acknowledged calls.
Proof.
  intros H Hns. induction H.
  - reflexivity.
  - contradiction.
  - exfalso. now apply Hns, failed_stopped.
  - simpl. f_equal. auto.
Qed.

Lemma issues_not_stopped {A} (F : Outcome A -> Prop) (calls : list Call) (o : Outcome A)
    (events : list (Call * Resp)) :
  issues F calls o events -> ~ stopped o -> F o.
Proof.
  intros H Hns. induction H; auto.
  - contradiction.
  - exfalso. now apply Hns, failed_stopped.
Qed.

Lemma stopped_or_not {A} (o : Outcome A) : stopped o \/ ~ stopped o.
Proof.
  destruct o as [a|e|code|]; simpl; auto.
  destruct (Z.eq_dec code 1); auto.
Qed.

Lemma issues_failure {A} (F : Outcome A -> Prop) (calls : list Call) (o : Outcome A)
    (events : list (Call * Resp)) (c : Call) (r : Resp) :
  issues F calls o events -> In (c, r) events -> r <> RStatus 200 -> failed o.
Proof.
  intros H Hin Hr. induction H.
  - destruct Hin.
  - destruct Hin.
  - destruct Hin as [Heq | []]. assumption.
  - destruct Hin as [Heq | Hin]; [|auto]. inversion Heq. congruence.
Qed.

Lemma terminate_calls_capacity (t : Trace) :
  terminate_calls t = flat_map termination_of (map fst (capacity_events t)).
Proof.
  induction t as [|e t IH]; [reflexivity|].
  change (e :: t) with ([e] ++ t).
  unfold terminate_calls in *. rewrite flat_map_app, capacity_events_app, map_app, flat_map_app.
  rewrite IH. f_equal.
  destruct e as [c r|n]; [|reflexivity]. destruct c; reflexivity.
Qed.

Lemma max_size_updates_capacity (t : Trace) :
  max_size_updates t = flat_map max_size_of (capacity_events t).
Proof.
  induction t as [|e t IH]; [reflexivity|].
  change (e :: t) with ([e] ++ t).
  unfold max_size_updates in *. rewrite flat_map_app, capacity_events_app, flat_map_app.
  rewrite IH. f_equal.
  destruct e as [c r|n]; [|reflexivity]. destruct c; reflexivity.
Qed.

Lemma desired_capacity_updates_capacity (t : Trace) :
  desired_capacity_updates t = flat_map desired_capacity_of (capacity_events t).
Proof.
  induction t as [|e t IH]; [reflexivity|].
  change (e :: t) with ([e] ++ t).
  unfold desired_capacity_updates in *.
  rewrite flat_map_app, capacity_events_app, flat_map_app.
  rewrite IH. f_equal.
  destruct e as [c r|n]; [|reflexivity]. destruct c; reflexivity.
Qed.

Lemma desired_capacity_after_capacity (t : Trace) (d : Z) :
  desired_capacity_after d t = fold_left apply_request (capacity_events t) d.
Proof.
  unfold desired_capacity_after. revert d.
  induction t as [|e t IH]; intros d; [reflexivity|].
  change (e :: t) with ([e] ++ t).
  rewrite capacity_events_app, !fold_left_app, <- IH. f_equal.
  destruct e as [c r|n]; [|reflexivity]. destruct c; reflexivity.
Qed.

(** *** The whole run *)

Lemma prepare_found (fuel : nat) (options : Options) (env : Env)
    (group : AutoScalingGroup) (others : list AutoScalingGroup) :
  opt_autoscaler options <> "" ->
  env [] (DescribeAutoScalingGroups (opt_autoscaler options)) = RGroups (group :: others) ->
  prepare fuel options env []
  = prepare_group fuel options group env
      [Api (DescribeAutoScalingGroups (opt_autoscaler options)) (RGroups (group :: others))].
Proof.
  intros Hname E. unfold prepare, get_autoscaling_group. unfold_monad.
  apply String.eqb_neq in Hname. rewrite Hname. simpl. now rewrite E.
Qed.

Lemma run_follows (fuel : nat) (options : Options) (env : Env)
    (group : AutoScalingGroup) (others : list AutoScalingGroup) (calls : list Call) :
  opt_autoscaler options <> "" ->
  env [] (DescribeAutoScalingGroups (opt_autoscaler options)) = RGroups (group :: others) ->
  (forall g t1, prepare fuel options env [] = (Ok g, t1) -> calls = rollout_calls options g) ->
  issues (fun o => o = Exit 0) (prepare_calls options group ++ calls)
         (fst (run fuel options env)) (capacity_events (snd (run fuel options env))).
Proof.
  intros Hname E Hcalls.
  assert (follows_at env [] (fun o => o = Exit 0) (prepare_calls options group ++ calls)
                     (script fuel options)) as [events [Ht Hi]].
  { unfold script.
    apply follows_at_bind
      with (F := fun o => exists g, o = Ok g
                                    /\ autoscaler_old_max_size g = MaxSize group
                                    /\ autoscaler_old_desired_capacity g
                                       = DesiredCapacity group).
    - intros x [g [-> _]]. exact I.
    - unfold follows_at. rewrite (prepare_found fuel options env group others Hname E).
      exact (follows_prepare_group fuel options group env
               [Api (DescribeAutoScalingGroups (opt_autoscaler options))
                    (RGroups (group :: others))]).
    - intros g t1 Hg _. rewrite (Hcalls g t1 Hg). apply follows_rollout. }
  unfold run. simpl in Ht. now rewrite Ht.
Qed.

(** ** Validation *)

(** C9: when the first lookup of the group does not answer with a group,
    the process ends with status 1 and has made no mutating request. *)
Theorem missing_group_aborts_without_mutation
    (fuel : nat) (options : Options) (env : Env)
    (Hmissing : forall group others,
        env [] (DescribeAutoScalingGroups (opt_autoscaler options))
        <> RGroups (group :: others)) :
  exit_status (fst (run fuel options env)) = Some 1
  /\ mutation_calls (snd (run fuel options env)) = [].
Proof.
  unfold run, script, prepare, get_autoscaling_group. unfold_monad.
  destruct (String.eqb (opt_autoscaler options) ""); simpl; [split; reflexivity|].
  destruct (env [] (DescribeAutoScalingGroups (opt_autoscaler options)))
    as [|[|group others]| | | | | |] eqn:E; simpl; try (split; reflexivity).
  exfalso. exact (Hmissing group others eq_refl).
Qed.

Lemma missing_group_aborts_without_mutation_witness :
  exit_status (fst (run 10 plain_options env_no_group)) = Some 1
  /\ mutation_calls (snd (run 10 plain_options env_no_group)) = [].
Proof.
  apply (missing_group_aborts_without_mutation 10 plain_options env_no_group).
  intros group others. discriminate.
Defined.

Lemma prepare_returned (fuel : nat) (options : Options) (env : Env)
    (g : Globals) (t1 : Trace) :
  prepare fuel options env [] = (Ok g, t1) ->
  opt_autoscaler options <> ""
  /\ exists group others,
       env [] (DescribeAutoScalingGroups (opt_autoscaler options))
       = RGroups (group :: others).
Proof.
  unfold prepare, get_autoscaling_group. unfold_monad.
  destruct (String.eqb (opt_autoscaler options) "") eqn:Hname; simpl; [discriminate|].
  apply String.eqb_neq in Hname.
  destruct (env [] (DescribeAutoScalingGroups (opt_autoscaler options)))
    as [|[|group others]| | | | | |] eqn:E; simpl; try discriminate.
  intros _. split; [assumption|]. now exists group, others.
Qed.

(** The capacity requests of a run whose preparation returned [g]. *)
Lemma run_issues (fuel : nat) (options : Options) (env : Env) (g : Globals) (t1 : Trace) :
  prepare fuel options env [] = (Ok g, t1) ->
  exists group others,
    env [] (DescribeAutoScalingGroups (opt_autoscaler options)) = RGroups (group :: others)
    /\ autoscaler_old_max_size g = MaxSize group
    /\ autoscaler_old_desired_capacity g = DesiredCapacity group
    /\ issues (fun o => o = Exit 0) (prepare_calls options group ++ rollout_calls options g)
              (fst (run fuel options env)) (capacity_events (snd (run fuel options env))).
Proof.
  intros Hprep.
  destruct (prepare_returned fuel options env g t1 Hprep) as [Hname [group [others E]]].
  exists group, others. split; [assumption|].
  pose proof (follows_prepare_group fuel options group env
                [Api (DescribeAutoScalingGroups (opt_autoscaler options))
                     (RGroups (group :: others))]) as [events [_ Hi]].
  rewrite <- (prepare_found fuel options env group others Hname E), Hprep in Hi.
  apply issues_final in Hi. destruct Hi as [g' [Hg' [Hmax Hdesired]]].
  inversion Hg'. subst g'.
  split; [assumption|]. split; [assumption|].
  apply run_follows with (others := others); try assumption.
  intros g' t1' Hprep'. rewrite Hprep in Hprep'. now inversion Hprep'.
Qed.

Lemma terminations_of_retire_calls (earlier : list Instance) (final : Instance) :
  flat_map termination_of (retire_calls (earlier ++ [final]))
  = map (fun instance => (InstanceId instance, false)) earlier
    ++ [(InstanceId final, true)].
Proof.
  induction earlier as [|x earlier IH]; [reflexivity|].
  simpl. rewrite IH. now destruct earlier.
Qed.

Lemma terminations_of_run_calls (options : Options) (group : AutoScalingGroup) (g : Globals) :
  flat_map termination_of (prepare_calls options group ++ rollout_calls options g)
  = flat_map termination_of (retire_calls (instances_to_kill g)).
Proof.
  unfold prepare_calls, rollout_calls. rewrite !flat_map_app.
  destruct (MaxSize group =? DesiredCapacity group);
    destruct (autoscaler_old_max_size g =? autoscaler_old_desired_capacity g);
    destruct (instances_to_kill g); simpl; now rewrite ?app_nil_r.
Qed.

(** ** The retire loop decrements once *)

Lemma flagged_terminations (earlier : list Instance) (final : Instance) :
  filter (fun call : string * bool => snd call)
         (map (fun instance => (InstanceId instance, false)) earlier
          ++ [(InstanceId final, true)])
  = [(InstanceId final, true)].
Proof. induction earlier as [|x earlier IH]; [reflexivity | exact IH]. Qed.

(** C1: a run that retires [earlier ++ [final]] either stops (by an
    exception, by [exit(1)] or out of fuel) or ends with [exit(0)] having
    made exactly these termination requests: one for every instance of
    [earlier], in order, without the decrement, then one for [final] with
    the decrement; so exactly one termination carries the decrement, and it
    is the last one.  In a run that stops, the terminations made so far are
    the first ones of that list. *)
Theorem decrement_goes_with_last_termination
    (fuel : nat) (options : Options) (env : Env) (g : Globals) (t1 : Trace)
    (earlier : list Instance) (final : Instance)
    (Hprepared : prepare fuel options env [] = (Ok g, t1))
    (Hretirees : instances_to_kill g = earlier ++ [final]) :
  let expected :=
    map (fun instance => (InstanceId instance, false)) earlier
    ++ [(InstanceId final, true)] in
  let made := terminate_calls (snd (run fuel options env)) in
  (exists later, expected = made ++ later)
  /\ (stopped (fst (run fuel options env))
      \/ fst (run fuel options env) = Exit 0
         /\ made = expected
         /\ filter (fun call : string * bool => snd call) made
            = [(InstanceId final, true)]).
Proof.
  intros expected made. subst made.
  destruct (run_issues fuel options env g t1 Hprepared)
    as (group & others & _ & _ & _ & Hi).
  assert (flat_map termination_of (prepare_calls options group ++ rollout_calls options g)
          = expected) as Hall.
  { rewrite terminations_of_run_calls, Hretirees. apply terminations_of_retire_calls. }
  rewrite terminate_calls_capacity. split.
  - destruct (issues_prefix _ _ _ _ Hi) as [later Hlater].
    exists (flat_map termination_of later).
    now rewrite <- Hall, Hlater, flat_map_app.
  - destruct (stopped_or_not (fst (run fuel options env))) as [Hs | Hns]; [now left | right].
    assert (flat_map termination_of (map fst (capacity_events (snd (run fuel options env))))
            = expected) as Hmade.
    { rewrite (issues_complete _ _ _ _ Hi Hns).
      unfold acknowledged. rewrite map_map. simpl. now rewrite map_id. }
    split; [exact (issues_not_stopped _ _ _ _ Hi Hns)|].
    split; [exact Hmade|].
    rewrite Hmade. apply flagged_terminations.
Qed.

Lemma decrement_goes_with_last_termination_witness :
  fst (run 3 plain_options (env_rolling 200)) = Exit 0
  /\ terminate_calls (snd (run 3 plain_options (env_rolling 200)))
     = [("i-a", false); ("i-b", true)]
  /\ filter (fun call : string * bool => snd call)
            (terminate_calls (snd (run 3 plain_options (env_rolling 200))))
     = [("i-b", true)].
Proof.
  destruct (proj2 (decrement_goes_with_last_termination
                     3 plain_options (env_rolling 200)
                     (match fst (prepare 3 plain_options (env_rolling 200) []) with
                      | Ok g => g
                      | _ => mkGlobals 0 0 one_instance_group [] []
                      end)
                     (snd (prepare 3 plain_options (env_rolling 200) []))
                     [mkInstance "i-a" "Healthy" (Some "lc-2") None]
                     (mkInstance "i-b" "Healthy" (Some "lc-2") None)
                     ltac:(vm_compute; reflexivity) ltac:(vm_compute; reflexivity)))
    as [Hstopped | Hcompleted].
  - vm_compute in Hstopped. discriminate.
  - exact Hcompleted.
Defined.

(** ** Head room *)

(** A run that ends with [exit(0)] went through the preparation. *)
Lemma run_exit_0_prepared (fuel : nat) (options : Options) (env : Env) :
  fst (run fuel options env) = Exit 0 ->
  exists g t1, prepare fuel options env [] = (Ok g, t1).
Proof.
  intros Hexit. unfold run, script, bind in Hexit.
  destruct (prepare fuel options env []) as [[g|e|c|] t1] eqn:Hprep; simpl in Hexit;
    try discriminate.
  - now exists g, t1.
  - exfalso. inversion Hexit. subst c.
    unfold prepare, get_autoscaling_group in Hprep. unfold_monad.
    destruct (String.eqb (opt_autoscaler options) "") eqn:Hname; simpl in Hprep;
      [discriminate|].
    destruct (env [] (DescribeAutoScalingGroups (opt_autoscaler options)))
      as [|[|group others]| | | | | |] eqn:E; simpl in Hprep; try discriminate.
    pose proof (follows_prepare_group fuel options group env
                  [Api (DescribeAutoScalingGroups (opt_autoscaler options))
                       (RGroups (group :: others))]) as [events [_ Hi]].
    rewrite Hprep in Hi. simpl in Hi.
    apply issues_not_stopped in Hi; [|simpl; discriminate].
    destruct Hi as [g [Hg _]]. discriminate.
Qed.

Lemma max_size_of_retire_calls (remaining : list Instance) :
  flat_map max_size_of (acknowledged (retire_calls remaining)) = [].
Proof. induction remaining as [|x rest IH]; [reflexivity | exact IH]. Qed.

Lemma max_size_of_run_calls (options : Options) (group : AutoScalingGroup) (g : Globals) :
  autoscaler_old_max_size g = MaxSize group ->
  autoscaler_old_desired_capacity g = DesiredCapacity group ->
  flat_map max_size_of
    (acknowledged (prepare_calls options group ++ rollout_calls options g))
  = if MaxSize group =? DesiredCapacity group
    then [(MaxSize group + 1, RStatus 200); (MaxSize group, RStatus 200)]
    else [].
Proof.
  intros Hmax Hdesired. unfold prepare_calls, rollout_calls, acknowledged.
  rewrite Hmax, Hdesired, !map_app, !flat_map_app.
  fold (acknowledged (retire_calls (instances_to_kill g))).
  rewrite max_size_of_retire_calls.
  destruct (MaxSize group =? DesiredCapacity group); destruct (instances_to_kill g);
    reflexivity.
Qed.

Lemma max_size_of_In (events : list (Call * Resp)) (size : Z) (answer : Resp) :
  In (size, answer) (flat_map max_size_of events) ->
  exists c, In (c, answer) events.
Proof.
  intros H. apply in_flat_map in H. destruct H as [[c r] [Hin Hm]].
  destruct c; simpl in Hm; try contradiction.
  destruct Hm as [Heq | []]. inversion Heq. subst. eauto.
Qed.

(** The capacity requests of a run that found its group. *)
Lemma run_issues_found (fuel : nat) (options : Options) (env : Env)
    (group : AutoScalingGroup) (others : list AutoScalingGroup) :
  opt_autoscaler options <> "" ->
  env [] (DescribeAutoScalingGroups (opt_autoscaler options)) = RGroups (group :: others) ->
  exists calls,
    issues (fun o => o = Exit 0) (prepare_calls options group ++ calls)
           (fst (run fuel options env)) (capacity_events (snd (run fuel options env)))
    /\ (MaxSize group <> DesiredCapacity group ->
        flat_map max_size_of (acknowledged calls) = []).
Proof.
  intros Hname E.
  destruct (prepare fuel options env []) as [o t1] eqn:Hprep.
  assert (forall g, o = Ok g ->
                    autoscaler_old_max_size g = MaxSize group
                    /\ autoscaler_old_desired_capacity g = DesiredCapacity group) as Hg.
  { intros g ->. destruct (run_issues fuel options env g t1 Hprep)
      as (group' & others' & E' & Hmax & Hdesired & _).
    rewrite E in E'. inversion E'. subst. auto. }
  exists (match o with Ok g => rollout_calls options g | _ => [] end). split.
  - apply run_follows with (others := others); try assumption.
    intros g t1' Hprep'. rewrite Hprep in Hprep'. now inversion Hprep'.
  - intros Hne. destruct o as [g| | |]; try reflexivity.
    destruct (Hg g eq_refl) as [Hmax Hdesired].
    unfold rollout_calls, acknowledged. rewrite Hmax, Hdesired, !map_app, !flat_map_app.
    fold (acknowledged (retire_calls (instances_to_kill g))).
    rewrite max_size_of_retire_calls.
    apply Z.eqb_neq in Hne. rewrite Hne. now destruct (instances_to_kill g).
Qed.

Lemma max_size_of_prefix (events : list (Call * Resp)) (later : list Call) :
  flat_map max_size_of (acknowledged (map fst events ++ later)) = [] ->
  flat_map max_size_of events = [].
Proof.
  induction events as [|[c r] events IH]; [reflexivity|].
  simpl. intros H. apply app_eq_nil in H. destruct H as [Hc Hrest].
  rewrite (IH Hrest). destruct c; simpl in *; try reflexivity. discriminate.
Qed.

(** The capacity requests of a run start with those of its preparation. *)
Lemma run_capacity_events_start (fuel : nat) (options : Options) (env : Env) :
  exists later,
    capacity_events (snd (run fuel options env))
    = capacity_events (snd (prepare fuel options env [])) ++ later.
Proof.
  unfold run, script, bind.
  destruct (prepare fuel options env []) as [[g|e|c|] t1]; simpl;
    try (exists []; now rewrite app_nil_r).
  destruct (follows_rollout fuel options g env t1) as [events [Ht _]].
  now exists events.
Qed.

(** C5: the max size is raised, by exactly one, if and only if the group
    found at the start of the run has its desired capacity equal to its max
    size; a run that then completes has set it back to the value it had, as
    its last capacity request; and when a max size request is not answered
    with status 200 the process ends with status 1. *)
Theorem max_size_bumped_and_restored
    (fuel : nat) (options : Options) (env : Env)
    (group : AutoScalingGroup) (others : list AutoScalingGroup)
    (Hname : opt_autoscaler options <> "")
    (Hfound : env [] (DescribeAutoScalingGroups (opt_autoscaler options))
              = RGroups (group :: others)) :
  (MaxSize group <> DesiredCapacity group ->
   max_size_updates (snd (run fuel options env)) = [])
  /\ (MaxSize group = DesiredCapacity group ->
      exists answer later,
        max_size_updates (snd (run fuel options env))
        = (MaxSize group + 1, answer) :: later)
  /\ (MaxSize group = DesiredCapacity group ->
      fst (run fuel options env) = Exit 0 ->
      max_size_updates (snd (run fuel options env))
      = [(MaxSize group + 1, RStatus 200); (MaxSize group, RStatus 200)])
  /\ (forall size answer,
        In (size, answer) (max_size_updates (snd (run fuel options env))) ->
        answer <> RStatus 200 ->
        exit_status (fst (run fuel options env)) = Some 1).
Proof.
  rewrite max_size_updates_capacity.
  destruct (run_issues_found fuel options env group others Hname Hfound)
    as [calls [Hi Hnone]].
  split; [|split; [|split]].
  - intros Hne. destruct (issues_prefix _ _ _ _ Hi) as [later Hlater].
    apply max_size_of_prefix with (later := later). rewrite <- Hlater.
    unfold prepare_calls. apply Z.eqb_neq in Hne as Hneb. rewrite Hneb. simpl. auto.
  - intros Heq. destruct (run_capacity_events_start fuel options env) as [later ->].
    rewrite (prepare_found fuel options env group others Hname Hfound).
    rewrite prepare_group_capacity_events.
    apply Z.eqb_eq in Heq. rewrite Heq. simpl.
    eexists. eexists. reflexivity.
  - intros Heq Hexit.
    destruct (run_exit_0_prepared fuel options env Hexit) as [g [t1 Hprep]].
    destruct (run_issues fuel options env g t1 Hprep)
      as (group' & others' & E' & Hmax & Hdesired & Hall).
    rewrite Hfound in E'. inversion E'. subst group' others'.
    rewrite (issues_complete _ _ _ _ Hall).
    + rewrite (max_size_of_run_calls options group g Hmax Hdesired).
      apply Z.eqb_eq in Heq. now rewrite Heq.
    + rewrite Hexit. simpl. discriminate.
  - intros size answer Hin Hanswer.
    apply max_size_of_In in Hin. destruct Hin as [c Hin].
    apply failed_exit_status. eapply issues_failure; eassumption.
Qed.

Lemma max_size_bumped_and_restored_witness :
  max_size_updates (snd (run 3 plain_options (env_rolling 200)))
  = [(3, RStatus 200); (2, RStatus 200)].
Proof.
  apply (proj1 (proj2 (proj2 (max_size_bumped_and_restored
                                3 plain_options (env_rolling 200)
                                (fleet []) [] ltac:(discriminate) eq_refl)))).
  - reflexivity.
  - vm_compute. reflexivity.
Defined.

(** ** Nothing to retire *)

Lemma run_calls_nothing_to_retire (options : Options) (group : AutoScalingGroup) (g : Globals) :
  instances_to_kill g = [] ->
  forall c, In c (prepare_calls options group ++ rollout_calls options g) ->
            (exists name size, c = UpdateAutoScalingGroup name size)
            \/ c = SetDesiredCapacity (opt_autoscaler options)
                                      (autoscaler_old_desired_capacity g).
Proof.
  intros Hempty c Hin. unfold prepare_calls, rollout_calls in Hin. rewrite Hempty in Hin.
  simpl in Hin.
  destruct (MaxSize group =? DesiredCapacity group);
    destruct (autoscaler_old_max_size g =? autoscaler_old_desired_capacity g);
    simpl in Hin; intuition (subst; eauto).
Qed.

Lemma desired_capacity_kept (d : Z) (events : list (Call * Resp)) :
  (forall c r, In (c, r) events ->
               (exists name size, c = UpdateAutoScalingGroup name size)
               \/ exists name, c = SetDesiredCapacity name d) ->
  fold_left apply_request events d = d.
Proof.
  induction events as [|[c r] events IH]; intros H; [reflexivity|].
  cbn [fold_left]. assert (apply_request d (c, r) = d) as ->.
  { destruct (H c r (or_introl eq_refl)) as [[name [size ->]] | [name ->]].
    - reflexivity.
    - simpl. destruct r as [code| | | | | | |]; try reflexivity.
      destruct code as [|[p|p|]|p]; try reflexivity.
      repeat (destruct p as [p|p|]; try reflexivity). }
  apply IH. intros c' r' Hin. apply (H c' r'). now right.
Qed.

(** C6: when the list of instances to retire is empty, the run makes no
    termination request; the only desired capacity it ever asks for is the
    one the group had when the run started, so that no increase is made and
    the desired capacity the run leaves is the one it found. *)
Theorem nothing_to_retire_keeps_desired_capacity
    (fuel : nat) (options : Options) (env : Env) (g : Globals) (t1 : Trace)
    (Hprepared : prepare fuel options env [] = (Ok g, t1))
    (Hempty : instances_to_kill g = []) :
  exists group others,
    env [] (DescribeAutoScalingGroups (opt_autoscaler options)) = RGroups (group :: others)
    /\ terminate_calls (snd (run fuel options env)) = []
    /\ (forall v answer,
          In (v, answer) (desired_capacity_updates (snd (run fuel options env))) ->
          v = DesiredCapacity group)
    /\ desired_capacity_after (DesiredCapacity group) (snd (run fuel options env))
       = DesiredCapacity group
    /\ (fst (run fuel options env) = Exit 0 ->
        desired_capacity_updates (snd (run fuel options env))
        = [(DesiredCapacity group, RStatus 200)]).
Proof.
  destruct (run_issues fuel options env g t1 Hprepared)
    as (group & others & E & Hmax & Hdesired & Hi).
  exists group, others. split; [assumption|].
  destruct (issues_prefix _ _ _ _ Hi) as [later Hlater].
  pose proof (run_calls_nothing_to_retire options group g Hempty) as Hcalls.
  rewrite Hlater, Hdesired in Hcalls.
  assert (forall c r, In (c, r) (capacity_events (snd (run fuel options env))) ->
                      (exists name size, c = UpdateAutoScalingGroup name size)
                      \/ c = SetDesiredCapacity (opt_autoscaler options)
                                                (DesiredCapacity group)) as Hevents.
  { intros c r Hin. apply Hcalls. apply in_or_app. left.
    change c with (fst (c, r)). now apply in_map. }
  split; [|split; [|split]].
  - rewrite terminate_calls_capacity.
    pose proof (terminations_of_run_calls options group g) as Hterm.
    rewrite Hempty, Hlater, flat_map_app in Hterm. simpl in Hterm.
    now apply app_eq_nil in Hterm.
  - intros v answer Hin. rewrite desired_capacity_updates_capacity in Hin.
    apply in_flat_map in Hin. destruct Hin as [[c r] [Hin Hc]].
    destruct (Hevents c r Hin) as [[name [size ->]] | ->]; simpl in Hc.
    + contradiction.
    + destruct Hc as [Heq | []]. now inversion Heq.
  - rewrite desired_capacity_after_capacity. apply desired_capacity_kept.
    intros c r Hin. destruct (Hevents c r Hin) as [H | ->]; [now left | right; eauto].
  - intros Hexit. rewrite desired_capacity_updates_capacity.
    rewrite (issues_complete _ _ _ _ Hi) by (rewrite Hexit; simpl; discriminate).
    unfold prepare_calls, rollout_calls, acknowledged. rewrite Hempty, Hdesired.
    destruct (MaxSize group =? DesiredCapacity group);
      destruct (autoscaler_old_max_size g =? DesiredCapacity group); reflexivity.
Qed.

Lemma nothing_to_retire_keeps_desired_capacity_witness :
  exists group others,
    env_rolling 200 [] (DescribeAutoScalingGroups "web") = RGroups (group :: others)
    /\ terminate_calls (snd (run 3 skip_updated_options (env_rolling 200))) = []
    /\ (forall v answer,
          In (v, answer)
             (desired_capacity_updates (snd (run 3 skip_updated_options (env_rolling 200)))) ->
          v = DesiredCapacity group)
    /\ desired_capacity_after (DesiredCapacity group)
         (snd (run 3 skip_updated_options (env_rolling 200)))
       = DesiredCapacity group
    /\ (fst (run 3 skip_updated_options (env_rolling 200)) = Exit 0 ->
        desired_capacity_updates (snd (run 3 skip_updated_options (env_rolling 200)))
        = [(DesiredCapacity group, RStatus 200)]).
Proof.
  apply (nothing_to_retire_keeps_desired_capacity
           3 skip_updated_options (env_rolling 200)
           (match fst (prepare 3 skip_updated_options (env_rolling 200) []) with
            | Ok g => g
            | _ => mkGlobals 0 0 one_instance_group [mkInstance "" "" None None] []
            end)
           (snd (prepare 3 skip_updated_options (env_rolling 200) []))).
  - vm_compute. reflexivity.
  - vm_compute. reflexivity.
Defined.

(** * Further properties of the script *)

(** ** When the polling loops do return *)

(** An iteration that reaches [break] ends the loop. *)
Lemma while_true_breaks {A} (fuel : nat) (body : M (option A)) (env : Env)
    (t t1 : Trace) (a : A) :
  body env t = (Ok (Some a), t1) ->
  while_true (S fuel) body env t = (Ok a, t1).
Proof. intros H. simpl. unfold bind. now rewrite H. Qed.

(** An iteration that raises, exits or runs out of fuel ends the loop the same way. *)
Lemma while_true_raises {A} (fuel : nat) (body : M (option A)) (env : Env)
    (t t1 : Trace) (e : Exn) :
  body env t = (Raise e, t1) ->
  while_true (S fuel) body env t = (Raise e, t1).
Proof. intros H. simpl. unfold bind. now rewrite H. Qed.

Lemma while_true_exits {A} (fuel : nat) (body : M (option A)) (env : Env)
    (t t1 : Trace) (code : Z) :
  body env t = (Exit code, t1) ->
  while_true (S fuel) body env t = (Exit code, t1).
Proof. intros H. simpl. unfold bind. now rewrite H. Qed.

(** The detachment waits return from the first poll whose snapshot holds
    none of the ids, without sleeping; with no id to wait for they still
    make that one poll. *)
Theorem detachment_wait_returns_once_absent
    (fuel : nat) (instance_ids : list string) (source : string) (env : Env) (t : Trace) :
  (forall loadbalancer others,
      env t (DescribeLoadBalancers source) = RLoadBalancers (loadbalancer :: others) ->
      (forall id, In id instance_ids -> ~ In id (LbInstances loadbalancer)) ->
      wait_for_instances_to_detach_from_loadbalancer (S fuel) instance_ids source env t
      = (Ok tt, t ++ [Api (DescribeLoadBalancers source)
                          (RLoadBalancers (loadbalancer :: others))]))
  /\ (forall target_group,
        env t (DescribeTargetHealth source) = RTargetHealth target_group ->
        (forall id, In id instance_ids -> ~ In id (map TargetId target_group)) ->
        wait_for_instances_to_detach_from_target_group (S fuel) instance_ids source env t
        = (Ok tt, t ++ [Api (DescribeTargetHealth source) (RTargetHealth target_group)])).
Proof.
  split.
  - intros lb others E Habsent.
    unfold wait_for_instances_to_detach_from_loadbalancer. apply while_true_breaks.
    unfold get_load_balancer, get_instance_ids_of_load_balancer. unfold_monad.
    rewrite E. apply count_present_zero in Habsent. now rewrite Habsent.
  - intros tg E Habsent.
    unfold wait_for_instances_to_detach_from_target_group. apply while_true_breaks.
    unfold describe_target_health. unfold_monad.
    rewrite E. apply count_present_zero in Habsent. now rewrite Habsent.
Qed.

Lemma detachment_wait_returns_once_absent_witness :
  wait_for_instances_to_detach_from_loadbalancer 1 ["i-old"] "lb" env_detached []
  = (Ok tt, [Api (DescribeLoadBalancers "lb")
                 (RLoadBalancers [mkLoadBalancerDescription []])])
  /\ wait_for_instances_to_detach_from_target_group 1 [] "tg" env_attached []
     = (Ok tt, [Api (DescribeTargetHealth "tg")
                    (RTargetHealth [mkTargetHealthDescription "i-old" "draining"])]).
Proof.
  split.
  - apply (proj1 (detachment_wait_returns_once_absent 0 ["i-old"] "lb" env_detached [])).
    + reflexivity.
    + intros id _ [].
  - apply (proj2 (detachment_wait_returns_once_absent 0 [] "tg" env_attached [])).
    + reflexivity.
    + intros id [].
Defined.

(** A traffic source that cannot be described ends the detachment wait by
    an exception, whatever the ids and even when there are none: a load
    balancer that is not found is not taken for one the instances left. *)
Theorem detachment_wait_raises_when_source_missing
    (fuel : nat) (instance_ids : list string) (source : string) (env : Env) (t : Trace) :
  (env t (DescribeLoadBalancers source) = RLoadBalancers [] ->
   wait_for_instances_to_detach_from_loadbalancer (S fuel) instance_ids source env t
   = (Raise (Exception "No loadbalancer found with name"),
      t ++ [Api (DescribeLoadBalancers source) (RLoadBalancers [])]))
  /\ (env t (DescribeLoadBalancers source) = RClientError ->
      wait_for_instances_to_detach_from_loadbalancer (S fuel) instance_ids source env t
      = (Raise (Exception "Error searching for loadbalancer with name"),
         t ++ [Api (DescribeLoadBalancers source) RClientError]))
  /\ (env t (DescribeTargetHealth source) = RClientError ->
      wait_for_instances_to_detach_from_target_group (S fuel) instance_ids source env t
      = (Raise ClientError, t ++ [Api (DescribeTargetHealth source) RClientError])).
Proof.
  split; [|split]; intros E.
  - unfold wait_for_instances_to_detach_from_loadbalancer. apply while_true_raises.
    unfold get_load_balancer. unfold_monad. now rewrite E.
  - unfold wait_for_instances_to_detach_from_loadbalancer. apply while_true_raises.
    unfold get_load_balancer. unfold_monad. now rewrite E.
  - unfold wait_for_instances_to_detach_from_target_group. apply while_true_raises.
    unfold describe_target_health. unfold_monad. now rewrite E.
Qed.

Lemma detachment_wait_raises_when_source_missing_witness :
  wait_for_instances_to_detach_from_loadbalancer 1 [] "lb" env_no_load_balancer []
  = (Raise (Exception "No loadbalancer found with name"),
     [Api (DescribeLoadBalancers "lb") (RLoadBalancers [])])
  /\ wait_for_instances_to_detach_from_loadbalancer 1 [] "lb" env_unreachable []
     = (Raise (Exception "Error searching for loadbalancer with name"),
        [Api (DescribeLoadBalancers "lb") RClientError])
  /\ wait_for_instances_to_detach_from_target_group 1 [] "tg" env_unreachable []
     = (Raise ClientError, [Api (DescribeTargetHealth "tg") RClientError]).
Proof.
  split; [|split].
  - apply (proj1 (detachment_wait_raises_when_source_missing
                    0 [] "lb" env_no_load_balancer [])).
    reflexivity.
  - apply (proj1 (proj2 (detachment_wait_raises_when_source_missing
                           0 [] "lb" env_unreachable []))).
    reflexivity.
  - apply (proj2 (proj2 (detachment_wait_raises_when_source_missing
                           0 [] "tg" env_unreachable []))).
    reflexivity.
Defined.

(** The attachment waits return from the first iteration in which every
    healthy member of the group is healthy (InService) in the source and
    the healthy members are as many as the desired capacity, without
    sleeping.  With C2 this makes the condition exact. *)
Theorem attachment_wait_returns_once_complete
    (fuel : nat) (source autoscaling_group_name : string) (env : Env) (t : Trace) :
  (forall target_group group others,
      env t (DescribeTargetHealth source) = RTargetHealth target_group ->
      env (t ++ [Api (DescribeTargetHealth source) (RTargetHealth target_group)])
          (DescribeAutoScalingGroups autoscaling_group_name) = RGroups (group :: others) ->
      (forall instance,
          In instance (Instances group) -> HealthStatus instance = "Healthy" ->
          exists target, In target target_group
                         /\ TargetId target = InstanceId instance
                         /\ TargetHealthState target = "healthy") ->
      healthy_count group = DesiredCapacity group ->
      wait_for_complete_targetgroup_autoscaler_attachment
        (S fuel) source autoscaling_group_name env t
      = (Ok tt,
         t ++ [Api (DescribeTargetHealth source) (RTargetHealth target_group);
               Api (DescribeAutoScalingGroups autoscaling_group_name)
                   (RGroups (group :: others))]))
  /\ (forall loadbalancer lbs states group others,
        env t (DescribeLoadBalancers source) = RLoadBalancers (loadbalancer :: lbs) ->
        env (t ++ [Api (DescribeLoadBalancers source) (RLoadBalancers (loadbalancer :: lbs))])
            (DescribeInstanceHealth source (LbInstances loadbalancer))
        = RInstanceStates states ->
        env (t ++ [Api (DescribeLoadBalancers source) (RLoadBalancers (loadbalancer :: lbs));
                   Api (DescribeInstanceHealth source (LbInstances loadbalancer))
                       (RInstanceStates states)])
            (DescribeAutoScalingGroups autoscaling_group_name) = RGroups (group :: others) ->
        (forall instance,
            In instance (Instances group) -> HealthStatus instance = "Healthy" ->
            exists state, In state states
                          /\ StateInstanceId state = InstanceId instance
                          /\ State state = "InService") ->
        healthy_count group = DesiredCapacity group ->
        wait_for_complete_loadbalancer_autoscaler_attachment
          (S fuel) source autoscaling_group_name env t
        = (Ok tt,
           t ++ [Api (DescribeLoadBalancers source) (RLoadBalancers (loadbalancer :: lbs));
                 Api (DescribeInstanceHealth source (LbInstances loadbalancer))
                     (RInstanceStates states);
                 Api (DescribeAutoScalingGroups autoscaling_group_name)
                     (RGroups (group :: others))])).
Proof.
  split.
  - intros tg g others E1 E2 Hall Hcount.
    unfold wait_for_complete_targetgroup_autoscaler_attachment. apply while_true_breaks.
    unfold describe_target_health, get_autoscaling_group,
      get_autoscaler_healthy_instances.
    unfold_monad. rewrite E1, E2.
    assert (forall instance, In instance (filter healthy (Instances g)) ->
              In (InstanceId instance)
                 (map TargetId
                    (filter (fun i => String.eqb (TargetHealthState i) "healthy") tg)))
      as Hin.
    { intros instance Hi. apply healthy_members in Hi. destruct Hi as [Hi Hh].
      apply healthy_target_ids. now apply Hall. }
    match goal with |- context [if ?c then _ else _] => assert (c = true) as -> end.
    { apply attachment_test. split; [assumption|].
      rewrite count_present_full by assumption. exact Hcount. }
    now rewrite <- app_assoc.
  - intros lb lbs states g others E1 E2 E3 Hall Hcount.
    unfold wait_for_complete_loadbalancer_autoscaler_attachment. apply while_true_breaks.
    unfold get_load_balancer, get_instance_ids_of_load_balancer,
      describe_instance_health, get_autoscaling_group,
      get_autoscaler_healthy_instances.
    unfold_monad. rewrite E1, E2.
    replace ((t ++ [Api (DescribeLoadBalancers source) (RLoadBalancers (lb :: lbs))])
               ++ [Api (DescribeInstanceHealth source (LbInstances lb))
                       (RInstanceStates states)])
      with (t ++ [Api (DescribeLoadBalancers source) (RLoadBalancers (lb :: lbs));
                  Api (DescribeInstanceHealth source (LbInstances lb))
                      (RInstanceStates states)])
      by now rewrite <- app_assoc.
    rewrite E3.
    assert (forall instance, In instance (filter healthy (Instances g)) ->
              In (InstanceId instance)
                 (flatten_instance_health_array_from_loadbalancer_only_healthy states))
      as Hin.
    { intros instance Hi. apply healthy_members in Hi. destruct Hi as [Hi Hh].
      apply in_service_ids. now apply Hall. }
    match goal with |- context [if ?c then _ else _] => assert (c = true) as -> end.
    { apply attachment_test. split; [assumption|].
      rewrite count_present_full by assumption. exact Hcount. }
    now rewrite <- app_assoc.
Qed.

Lemma attachment_wait_returns_once_complete_witness :
  wait_for_complete_targetgroup_autoscaler_attachment 1 "tg" "web" env_in_service []
  = (Ok tt,
     [Api (DescribeTargetHealth "tg")
          (RTargetHealth [mkTargetHealthDescription "i-1" "healthy"]);
      Api (DescribeAutoScalingGroups "web") (RGroups [one_instance_group])])
  /\ wait_for_complete_loadbalancer_autoscaler_attachment 1 "lb" "web" env_in_service []
     = (Ok tt,
        [Api (DescribeLoadBalancers "lb")
             (RLoadBalancers [mkLoadBalancerDescription ["i-1"]]);
         Api (DescribeInstanceHealth "lb" ["i-1"])
             (RInstanceStates [mkInstanceState "i-1" "InService"]);
         Api (DescribeAutoScalingGroups "web") (RGroups [one_instance_group])]).
Proof.
  split.
  - apply (proj1 (attachment_wait_returns_once_complete 0 "tg" "web" env_in_service [])).
    + reflexivity.
    + reflexivity.
    + intros instance [<- | []] _.
      exists (mkTargetHealthDescription "i-1" "healthy"). simpl. auto.
    + reflexivity.
  - apply (proj2 (attachment_wait_returns_once_complete 0 "lb" "web" env_in_service [])).
    + reflexivity.
    + reflexivity.
    + reflexivity.
    + intros instance [<- | []] _.
      exists (mkInstanceState "i-1" "InService"). simpl. auto.
    + reflexivity.
Defined.

(** The attachment waits also block on the desired capacity alone: when
    the healthy members of the group just fetched are not as many as its
    desired capacity, the wait sleeps and polls again, even if every one of
    them is in service. *)
Theorem attachment_wait_blocks_on_desired_capacity
    (fuel : nat) (source autoscaling_group_name : string) (env : Env) (t : Trace)
    (group : AutoScalingGroup) (others : list AutoScalingGroup)
    (Hdesired : healthy_count group <> DesiredCapacity group) :
  (forall target_group,
      env t (DescribeTargetHealth source) = RTargetHealth target_group ->
      env (t ++ [Api (DescribeTargetHealth source) (RTargetHealth target_group)])
          (DescribeAutoScalingGroups autoscaling_group_name) = RGroups (group :: others) ->
      wait_for_complete_targetgroup_autoscaler_attachment
        (S fuel) source autoscaling_group_name env t
      = wait_for_complete_targetgroup_autoscaler_attachment
          fuel source autoscaling_group_name env
          (t ++ [Api (DescribeTargetHealth source) (RTargetHealth target_group);
                 Api (DescribeAutoScalingGroups autoscaling_group_name)
                     (RGroups (group :: others));
                 Sleep 10]))
  /\ (forall loadbalancer lbs states,
        env t (DescribeLoadBalancers source) = RLoadBalancers (loadbalancer :: lbs) ->
        env (t ++ [Api (DescribeLoadBalancers source) (RLoadBalancers (loadbalancer :: lbs))])
            (DescribeInstanceHealth source (LbInstances loadbalancer))
        = RInstanceStates states ->
        env (t ++ [Api (DescribeLoadBalancers source) (RLoadBalancers (loadbalancer :: lbs));
                   Api (DescribeInstanceHealth source (LbInstances loadbalancer))
                       (RInstanceStates states)])
            (DescribeAutoScalingGroups autoscaling_group_name) = RGroups (group :: others) ->
        wait_for_complete_loadbalancer_autoscaler_attachment
          (S fuel) source autoscaling_group_name env t
        = wait_for_complete_loadbalancer_autoscaler_attachment
            fuel source autoscaling_group_name env
            (t ++ [Api (DescribeLoadBalancers source) (RLoadBalancers (loadbalancer :: lbs));
                   Api (DescribeInstanceHealth source (LbInstances loadbalancer))
                       (RInstanceStates states);
                   Api (DescribeAutoScalingGroups autoscaling_group_name)
                       (RGroups (group :: others));
                   Sleep 10])).
Proof.
  split.
  - intros tg Htargets Hgroup.
    unfold wait_for_complete_targetgroup_autoscaler_attachment.
    apply while_true_continues.
    unfold describe_target_health, get_autoscaling_group, get_autoscaler_healthy_instances.
    unfold_monad. rewrite Htargets, Hgroup.
    match goal with |- context [if ?c then _ else _] => destruct c eqn:C end.
    + exfalso. apply attachment_test in C. destruct C as [Hall Hcount].
      apply Hdesired. unfold healthy_count. now rewrite <- Hcount, count_present_full.
    + now rewrite <- !app_assoc.
  - intros lb lbs states E1 E2 E3.
    unfold wait_for_complete_loadbalancer_autoscaler_attachment.
    apply while_true_continues.
    unfold get_load_balancer, get_instance_ids_of_load_balancer,
      describe_instance_health, get_autoscaling_group,
      get_autoscaler_healthy_instances.
    unfold_monad. rewrite E1, E2.
    replace ((t ++ [Api (DescribeLoadBalancers source) (RLoadBalancers (lb :: lbs))])
               ++ [Api (DescribeInstanceHealth source (LbInstances lb))
                       (RInstanceStates states)])
      with (t ++ [Api (DescribeLoadBalancers source) (RLoadBalancers (lb :: lbs));
                  Api (DescribeInstanceHealth source (LbInstances lb))
                      (RInstanceStates states)])
      by now rewrite <- app_assoc.
    rewrite E3.
    match goal with |- context [if ?c then _ else _] => destruct c eqn:C end.
    + exfalso. apply attachment_test in C. destruct C as [Hall Hcount].
      apply Hdesired. unfold healthy_count. now rewrite <- Hcount, count_present_full.
    + now rewrite <- !app_assoc.
Qed.

Lemma attachment_wait_blocks_on_desired_capacity_witness :
  wait_for_complete_targetgroup_autoscaler_attachment 2 "tg" "web" env_launching []
  = wait_for_complete_targetgroup_autoscaler_attachment 1 "tg" "web" env_launching
      [Api (DescribeTargetHealth "tg")
           (RTargetHealth [mkTargetHealthDescription "i-1" "healthy"]);
       Api (DescribeAutoScalingGroups "web") (RGroups [launching_group]);
       Sleep 10]
  /\ wait_for_complete_loadbalancer_autoscaler_attachment 2 "lb" "web" env_launching []
     = wait_for_complete_loadbalancer_autoscaler_attachment 1 "lb" "web" env_launching
         [Api (DescribeLoadBalancers "lb")
              (RLoadBalancers [mkLoadBalancerDescription ["i-1"]]);
          Api (DescribeInstanceHealth "lb" ["i-1"])
              (RInstanceStates [mkInstanceState "i-1" "InService"]);
          Api (DescribeAutoScalingGroups "web") (RGroups [launching_group]);
          Sleep 10].
Proof.
  assert (healthy_count launching_group <> DesiredCapacity launching_group) as H
    by (vm_compute; discriminate).
  split.
  - apply (proj1 (attachment_wait_blocks_on_desired_capacity
                    1 "tg" "web" env_launching [] launching_group [] H));
      reflexivity.
  - apply (proj2 (attachment_wait_blocks_on_desired_capacity
                    1 "lb" "web" env_launching [] launching_group [] H));
      reflexivity.
Defined.

(** The base line wait returns from the first iteration in which the polled
    healthy count is the frozen desired capacity and the single group
    fetched again by the is-scaling check has as many healthy members as
    its desired capacity; when the second fetch shows a group that is still
    scaling, the wait sleeps 5 seconds and polls again. *)
Theorem baseline_wait_returns_once_converged
    (fuel : nat) (x : string + AutoScalingGroup) (descriptor : AutoScalingGroup)
    (env : Env) (t t1 : Trace)
    (polled : AutoScalingGroup) (others : list AutoScalingGroup)
    (refetched : AutoScalingGroup)
    (Hentry : match x with
              | inl name => get_autoscaling_group name
              | inr definition => ret definition
              end env t = (Ok descriptor, t1))
    (Hpolled : env t1 (DescribeAutoScalingGroups (AutoScalingGroupName descriptor))
               = RGroups (polled :: others))
    (Hcount : healthy_count polled = DesiredCapacity descriptor)
    (Hrefetched :
       env (t1 ++ [Api (DescribeAutoScalingGroups (AutoScalingGroupName descriptor))
                       (RGroups (polled :: others))])
           (DescribeAutoScalingGroups (AutoScalingGroupName descriptor))
       = RGroups [refetched]) :
  (healthy_count refetched = DesiredCapacity refetched ->
   wait_for_autoscaler_to_have_healthy_desired_instances (S fuel) x env t
   = (Ok tt,
      t1 ++ [Api (DescribeAutoScalingGroups (AutoScalingGroupName descriptor))
                 (RGroups (polled :: others));
             Api (DescribeAutoScalingGroups (AutoScalingGroupName descriptor))
                 (RGroups [refetched])]))
  /\ (healthy_count refetched <> DesiredCapacity refetched ->
      wait_for_autoscaler_to_have_healthy_desired_instances (S fuel) x env t
      = wait_for_autoscaler_to_have_healthy_desired_instances fuel (inr descriptor) env
          (t1 ++ [Api (DescribeAutoScalingGroups (AutoScalingGroupName descriptor))
                      (RGroups (polled :: others));
                  Api (DescribeAutoScalingGroups (AutoScalingGroupName descriptor))
                      (RGroups [refetched]);
                  Sleep 5])).
Proof.
  unfold healthy_count in *.
  split; intros Hscaling;
    unfold wait_for_autoscaler_to_have_healthy_desired_instances;
    unfold bind at 1; rewrite Hentry.
  - apply while_true_breaks.
    unfold get_number_of_autoscaler_healthy_instances, get_autoscaler_healthy_instances,
      check_if_autoscaler_is_scaling, get_autoscaling_group.
    unfold get_number_of_autoscaler_healthy_instances, get_autoscaler_healthy_instances.
    unfold_monad. rewrite Hpolled, Hcount, Z.eqb_refl. simpl.
    rewrite Hrefetched, Hscaling, Z.eqb_refl. simpl. now rewrite <- app_assoc.
  - rewrite bind_ret. apply while_true_continues.
    unfold get_number_of_autoscaler_healthy_instances, get_autoscaler_healthy_instances,
      check_if_autoscaler_is_scaling, get_autoscaling_group.
    unfold get_number_of_autoscaler_healthy_instances, get_autoscaler_healthy_instances.
    unfold_monad. rewrite Hpolled, Hcount, Z.eqb_refl. simpl.
    rewrite Hrefetched. apply Z.eqb_neq in Hscaling. rewrite Hscaling. simpl.
    now rewrite <- !app_assoc.
Qed.

Lemma baseline_wait_returns_once_converged_witness :
  wait_for_autoscaler_to_have_healthy_desired_instances 1 (inl "web") env_in_service []
  = (Ok tt,
     [Api (DescribeAutoScalingGroups "web") (RGroups [one_instance_group]);
      Api (DescribeAutoScalingGroups "web") (RGroups [one_instance_group]);
      Api (DescribeAutoScalingGroups "web") (RGroups [one_instance_group])])
  /\ wait_for_autoscaler_to_have_healthy_desired_instances
       2 (inr launching_group_settled) env_launching []
     = wait_for_autoscaler_to_have_healthy_desired_instances
         1 (inr launching_group_settled) env_launching
         [Api (DescribeAutoScalingGroups "web") (RGroups [launching_group]);
          Api (DescribeAutoScalingGroups "web") (RGroups [launching_group]);
          Sleep 5].
Proof.
  split.
  - apply (proj1 (baseline_wait_returns_once_converged
                    0 (inl "web") one_instance_group env_in_service
                    [] [Api (DescribeAutoScalingGroups "web") (RGroups [one_instance_group])]
                    one_instance_group [] one_instance_group
                    eq_refl eq_refl eq_refl eq_refl)).
    reflexivity.
  - apply (proj2 (baseline_wait_returns_once_converged
                    1 (inr launching_group_settled) launching_group_settled env_launching
                    [] [] launching_group [] launching_group
                    eq_refl eq_refl eq_refl eq_refl)).
    vm_compute. discriminate.
Defined.

(** A group that is gone ends the base line wait and the process with
    status 1 instead of being polled for ever: the poll raises when its
    lookup finds no group, and the is-scaling check calls [exit(1)] when its
    own lookup does not find exactly one. *)
Theorem baseline_wait_ends_when_group_is_gone
    (fuel : nat) (x : string + AutoScalingGroup) (descriptor : AutoScalingGroup)
    (env : Env) (t t1 : Trace)
    (Hentry : match x with
              | inl name => get_autoscaling_group name
              | inr definition => ret definition
              end env t = (Ok descriptor, t1)) :
  (env t1 (DescribeAutoScalingGroups (AutoScalingGroupName descriptor)) = RGroups [] ->
   wait_for_autoscaler_to_have_healthy_desired_instances (S fuel) x env t
   = (Raise (Exception "Error searching for autoscaling group with name"),
      t1 ++ [Api (DescribeAutoScalingGroups (AutoScalingGroupName descriptor))
                 (RGroups [])]))
  /\ (forall polled others,
        env t1 (DescribeAutoScalingGroups (AutoScalingGroupName descriptor))
        = RGroups (polled :: others) ->
        healthy_count polled = DesiredCapacity descriptor ->
        env (t1 ++ [Api (DescribeAutoScalingGroups (AutoScalingGroupName descriptor))
                        (RGroups (polled :: others))])
            (DescribeAutoScalingGroups (AutoScalingGroupName descriptor))
        = RGroups [] ->
        wait_for_autoscaler_to_have_healthy_desired_instances (S fuel) x env t
        = (Exit 1,
           t1 ++ [Api (DescribeAutoScalingGroups (AutoScalingGroupName descriptor))
                      (RGroups (polled :: others));
                  Api (DescribeAutoScalingGroups (AutoScalingGroupName descriptor))
                      (RGroups [])])).
Proof.
  split.
  - intros E. unfold wait_for_autoscaler_to_have_healthy_desired_instances.
    unfold bind at 1. rewrite Hentry. apply while_true_raises.
    unfold get_number_of_autoscaler_healthy_instances, get_autoscaler_healthy_instances,
      get_autoscaling_group.
    unfold_monad. now rewrite E.
  - intros polled others E1 Hcount E2.
    unfold wait_for_autoscaler_to_have_healthy_desired_instances.
    unfold bind at 1. rewrite Hentry. apply while_true_exits.
    unfold get_number_of_autoscaler_healthy_instances, get_autoscaler_healthy_instances,
      check_if_autoscaler_is_scaling, get_autoscaling_group.
    unfold_monad. rewrite E1. unfold healthy_count in Hcount.
    rewrite Hcount, Z.eqb_refl. simpl. rewrite E2. now rewrite <- app_assoc.
Qed.

Lemma baseline_wait_ends_when_group_is_gone_witness :
  wait_for_autoscaler_to_have_healthy_desired_instances
    1 (inr one_instance_group) env_no_group []
  = (Raise (Exception "Error searching for autoscaling group with name"),
     [Api (DescribeAutoScalingGroups "web") (RGroups [])])
  /\ wait_for_autoscaler_to_have_healthy_desired_instances
       1 (inr one_instance_group) env_group_deleted []
     = (Exit 1,
        [Api (DescribeAutoScalingGroups "web") (RGroups [one_instance_group]);
         Api (DescribeAutoScalingGroups "web") (RGroups [])]).
Proof.
  split.
  - apply (proj1 (baseline_wait_ends_when_group_is_gone
                    0 (inr one_instance_group) one_instance_group env_no_group
                    [] [] eq_refl)).
    reflexivity.
  - apply (proj2 (baseline_wait_ends_when_group_is_gone
                    0 (inr one_instance_group) one_instance_group env_group_deleted
                    [] [] eq_refl) one_instance_group []); reflexivity.
Defined.

(** ** Leaving out the instances that are already up to date *)

Lemma option_string_eqb_eq (a b : option string) :
  option_string_eqb a b = true <-> a = b.
Proof.
  destruct a as [x|], b as [y|]; simpl; try (split; congruence).
  rewrite String.eqb_eq. split; congruence.
Qed.

Lemma Instance_eqb_eq (a b : Instance) : Instance_eqb a b = true <-> a = b.
Proof.
  unfold Instance_eqb. rewrite !andb_true_iff, !String.eqb_eq, !option_string_eqb_eq.
  destruct a, b; simpl. split.
  - intros [[[-> ->] ->] ->]. reflexivity.
  - intros H. inversion H. auto.
Qed.

Lemma remove_all_cons_other (x : Instance) (skip : list Instance) :
  (forall y, In y skip -> y <> x) ->
  forall (kill remaining : list Instance) (env : Env) (t : Trace),
    remove_all skip kill env t = (Ok remaining, t) ->
    remove_all skip (x :: kill) env t = (Ok (x :: remaining), t).
Proof.
  induction skip as [|y skip IH]; intros Hother kill remaining env t H; simpl in *.
  - unfold ret in *. now inversion H.
  - assert (Instance_eqb x y = false) as ->.
    { destruct (Instance_eqb x y) eqn:E; [|reflexivity].
      apply Instance_eqb_eq in E. exfalso. apply (Hother y); auto. }
    destruct (list_remove y kill) as [rest|]; [|discriminate].
    apply IH; [|assumption]. intros z Hz. apply Hother. now right.
Qed.

Lemma remove_all_filter (p : Instance -> bool) (instances : list Instance)
    (env : Env) (t : Trace) :
  remove_all (filter p instances) instances env t
  = (Ok (filter (fun instance => negb (p instance)) instances), t).
Proof.
  induction instances as [|x instances IH]; [reflexivity|].
  simpl. destruct (p x) eqn:Hp; simpl.
  - assert (Instance_eqb x x = true) as -> by now apply Instance_eqb_eq.
    exact IH.
  - apply remove_all_cons_other; [|exact IH].
    intros y Hy ->. apply filter_In in Hy. destruct Hy as [_ Hy]. congruence.
Qed.

Lemma get_instances_to_skip_filter (instances : list Instance) (autoscaler : AutoScalingGroup)
    (group_configuration : string) (configuration : Instance -> string)
    (env : Env) (t : Trace) :
  (forall env t,
      get_autoscaling_group_configuration autoscaler env t = (Ok group_configuration, t)) ->
  (forall instance env t,
      In instance instances ->
      get_instance_configuration instance env t = (Ok (configuration instance), t)) ->
  get_instances_to_skip instances autoscaler env t
  = (Ok (filter (fun instance => String.eqb group_configuration (configuration instance))
                instances), t).
Proof.
  intros Hgroup Hinstance. induction instances as [|x instances IH]; [reflexivity|].
  simpl. unfold bind. rewrite Hgroup, Hinstance by now left.
  rewrite IH by (intros; apply Hinstance; now right).
  now destruct (String.eqb group_configuration (configuration x)).
Qed.

(** With [-c], when the configuration of the group and of every healthy
    instance can be read, the instances left to retire are exactly those
    whose configuration is not the one of the group, in their original
    order: the [remove] calls never miss and never take away another
    instance. *)
Theorem skip_updated_keeps_outdated_instances
    (instances : list Instance) (autoscaler : AutoScalingGroup)
    (group_configuration : string) (configuration : Instance -> string)
    (env : Env) (t : Trace)
    (Hgroup : forall env t,
        get_autoscaling_group_configuration autoscaler env t = (Ok group_configuration, t))
    (Hinstance : forall instance env t,
        In instance instances ->
        get_instance_configuration instance env t = (Ok (configuration instance), t)) :
  (instances_to_skip <- get_instances_to_skip instances autoscaler ;;
   remove_all instances_to_skip instances) env t
  = (Ok (filter (fun instance =>
                   negb (String.eqb group_configuration (configuration instance)))
                instances), t).
Proof.
  unfold bind.
  rewrite (get_instances_to_skip_filter instances autoscaler group_configuration
             configuration env t Hgroup Hinstance).
  apply remove_all_filter.
Qed.

Lemma skip_updated_keeps_outdated_instances_witness :
  (instances_to_skip <- get_instances_to_skip mixed_instances mixed_group ;;
   remove_all instances_to_skip mixed_instances) env_unreachable []
  = (Ok [mkInstance "i-a" "Healthy" (Some "lc-1") None], []).
Proof.
  apply (skip_updated_keeps_outdated_instances
           mixed_instances mixed_group "lc-2"
           (fun instance =>
              match LaunchConfigurationName instance, LaunchTemplate instance with
              | Some c, _ => c
              | None, Some c => c
              | None, None => ""
              end)
           env_unreachable []).
  - intros env t. reflexivity.
  - intros instance env t [<- | [<- | [<- | []]]]; reflexivity.
Defined.

Lemma group_configuration_found (autoscaler : AutoScalingGroup) (env : Env) (t : Trace) :
  truthy (GroupLaunchConfigurationName autoscaler) = true
  \/ MixedInstancesPolicy autoscaler <> None ->
  exists configuration,
    get_autoscaling_group_configuration autoscaler env t = (Ok configuration, t).
Proof.
  unfold get_autoscaling_group_configuration.
  destruct (GroupLaunchConfigurationName autoscaler) as [c|];
    [destruct (truthy (Some c))|];
    try (intros _; eexists; reflexivity);
    (destruct (MixedInstancesPolicy autoscaler) as [p|];
     [intros _; eexists; reflexivity | intros [H | H]; [discriminate | contradiction]]).
Qed.

Lemma instance_configuration_found (instance : Instance) (env : Env) (t : Trace) :
  truthy (LaunchConfigurationName instance) = true \/ LaunchTemplate instance <> None ->
  exists configuration, get_instance_configuration instance env t = (Ok configuration, t).
Proof.
  unfold get_instance_configuration.
  destruct (LaunchConfigurationName instance) as [c|];
    [destruct (truthy (Some c))|];
    try (intros _; eexists; reflexivity);
    (destruct (LaunchTemplate instance) as [p|];
     [intros _; eexists; reflexivity | intros [H | H]; [discriminate | contradiction]]).
Qed.

Lemma instance_configuration_missing (instance : Instance) (env : Env) (t : Trace) :
  truthy (LaunchConfigurationName instance) = false ->
  LaunchTemplate instance = None ->
  get_instance_configuration instance env t
  = (Raise (Exception ("Error searching configuration for instance with id ["
                       ++ InstanceId instance ++ "]")%string), t).
Proof.
  intros Hname Htemplate. unfold get_instance_configuration. rewrite Htemplate.
  destruct (LaunchConfigurationName instance) as [c|]; [rewrite Hname|]; reflexivity.
Qed.

(** With [-c], the comparison of the configurations raises as soon as one
    cannot be told.  A group that reports neither a launch configuration
    name nor a mixed instances policy raises at the first instance, with the
    name of the group in the message.  With a group configured either way,
    the first instance, wherever it stands in the list, that reports neither
    a launch configuration name nor a launch template raises, with its id in
    the message.  With no healthy instance at all the configuration of the
    group is not even looked at. *)
Theorem skip_updated_raises_without_configuration
    (autoscaler : AutoScalingGroup) (env : Env) (t : Trace) :
  (forall instance rest,
     truthy (GroupLaunchConfigurationName autoscaler) = false ->
     MixedInstancesPolicy autoscaler = None ->
     get_instances_to_skip (instance :: rest) autoscaler env t
     = (Raise (Exception
                 ("Error searching configuration for autoscaling group with name ["
                  ++ AutoScalingGroupName autoscaler ++ "]")%string), t))
  /\ (forall before instance after,
        truthy (GroupLaunchConfigurationName autoscaler) = true
        \/ MixedInstancesPolicy autoscaler <> None ->
        (forall other,
           In other before ->
           truthy (LaunchConfigurationName other) = true \/ LaunchTemplate other <> None) ->
        truthy (LaunchConfigurationName instance) = false ->
        LaunchTemplate instance = None ->
        get_instances_to_skip (before ++ instance :: after) autoscaler env t
        = (Raise (Exception
                    ("Error searching configuration for instance with id ["
                     ++ InstanceId instance ++ "]")%string), t))
  /\ get_instances_to_skip [] autoscaler env t = (Ok [], t).
Proof.
  split; [|split].
  - intros instance rest Hname Hpolicy. simpl.
    unfold bind, get_autoscaling_group_configuration.
    rewrite Hpolicy. destruct (GroupLaunchConfigurationName autoscaler) as [c|];
      [rewrite Hname|]; reflexivity.
  - intros before instance after Hgroup Hbefore Hname Htemplate.
    destruct (group_configuration_found autoscaler env t Hgroup) as [gc Hgc].
    induction before as [|other before IH]; simpl; unfold bind at 1; rewrite Hgc;
      unfold bind at 1.
    + now rewrite (instance_configuration_missing instance env t Hname Htemplate).
    + destruct (instance_configuration_found other env t) as [ic Hic];
        [apply Hbefore; now left|].
      rewrite Hic. unfold bind at 1. rewrite IH; [reflexivity|].
      intros other' Hin. apply Hbefore. now right.
  - reflexivity.
Qed.

Lemma skip_updated_raises_without_configuration_witness :
  get_instances_to_skip mixed_instances unconfigured_group env_unreachable []
  = (Raise (Exception
              "Error searching configuration for autoscaling group with name [web]"), [])
  /\ get_instances_to_skip
       (mixed_instances ++ [mkInstance "i-x" "Healthy" (Some "") None;
                            mkInstance "i-y" "Healthy" None None])
       policy_group env_unreachable []
     = (Raise (Exception "Error searching configuration for instance with id [i-x]"), [])
  /\ get_instances_to_skip
       (mkInstance "i-x" "Healthy" None None :: mixed_instances)
       mixed_group env_unreachable []
     = (Raise (Exception "Error searching configuration for instance with id [i-x]"), [])
  /\ get_instances_to_skip [] unconfigured_group env_unreachable [] = (Ok [], []).
Proof.
  split; [|split; [|split]].
  - apply (proj1 (skip_updated_raises_without_configuration
                    unconfigured_group env_unreachable [])
             (mkInstance "i-a" "Healthy" (Some "lc-1") None)
             [mkInstance "i-b" "Healthy" (Some "lc-2") None;
              mkInstance "i-c" "Healthy" None (Some "lc-2")]); reflexivity.
  - apply (proj1 (proj2 (skip_updated_raises_without_configuration
                           policy_group env_unreachable []))
             mixed_instances (mkInstance "i-x" "Healthy" (Some "") None)
             [mkInstance "i-y" "Healthy" None None]).
    + right. discriminate.
    + intros other [<- | [<- | [<- | []]]]; simpl; auto; right; discriminate.
    + reflexivity.
    + reflexivity.
  - apply (proj1 (proj2 (skip_updated_raises_without_configuration
                           mixed_group env_unreachable []))
             [] (mkInstance "i-x" "Healthy" None None) mixed_instances).
    + left. reflexivity.
    + intros other [].
    + reflexivity.
    + reflexivity.
  - apply (proj2 (proj2 (skip_updated_raises_without_configuration
                           unconfigured_group env_unreachable []))).
Defined.

(** ** What the custom up check does ensure *)

Lemma no_failed_hook_nil : no_failed_hook [].
Proof. intros command retval []. Qed.

Lemma no_failed_hook_app (l l' : Trace) :
  no_failed_hook l -> no_failed_hook l' -> no_failed_hook (l ++ l').
Proof.
  intros H H' command retval Hin. apply in_app_or in Hin.
  destruct Hin; [eapply H | eapply H']; eassumption.
Qed.

Lemma no_failed_hook_describe (id : string) (r : Resp) :
  no_failed_hook [Api (DescribeInstances id) r].
Proof. intros command retval [H | []]. discriminate. Qed.

Lemma no_failed_hook_call (command : string) (r : Resp) :
  (forall retval, r = RRetval retval -> retval = 0) ->
  no_failed_hook [Api (ShellCall command) r].
Proof. intros H c retval [Heq | []]. inversion Heq. subst. now apply H. Qed.

(** A pass over the new instances that ends with the flag set started with
    the flag set and saw no hook exit with a non-zero status. *)
Lemma health_up_check_batch_clean (command : string) (new_instances : list Instance) :
  forall (succeeded : bool) (env : Env) (t t' : Trace),
    health_up_check_batch command new_instances succeeded env t = (Ok true, t') ->
    succeeded = true
    /\ exists batch, t' = t ++ batch /\ no_failed_hook batch.
Proof.
  induction new_instances as [|instance rest IH]; intros succeeded env t t' H.
  - simpl in H. unfold ret in H. inversion H. subst. split; [reflexivity|].
    exists []. split; [now rewrite app_nil_r | apply no_failed_hook_nil].
  - simpl in H. unfold bind at 1 in H.
    unfold try_except, describe_instance, private_ip_address_of, call in H.
    unfold_monad.
    destruct (env t (DescribeInstances (InstanceId instance)))
      as [| | | | |reservations| |] eqn:E; simpl in H;
      try (apply IH in H; destruct H as [Hs [batch [-> Hclean]]]; split; [assumption|];
           eexists; split; [now rewrite <- app_assoc|];
           apply no_failed_hook_app; [apply no_failed_hook_describe | assumption]).
    destruct (hd_error (concat reservations)) as [[eid [pip|] pub]|]; simpl in H;
      try (apply IH in H; destruct H as [Hs [batch [-> Hclean]]]; split; [assumption|];
           eexists; split; [now rewrite <- app_assoc|];
           apply no_failed_hook_app; [apply no_failed_hook_describe | assumption]).
    match type of H with
    | context [env ?t1 (ShellCall ?c)] =>
        destruct (env t1 (ShellCall c)) as [| | | | | |retval|] eqn:Ecall
    end; simpl in H;
      try (apply IH in H; destruct H as [Hs [batch [-> Hclean]]]; split; [assumption|];
           eexists; split; [now rewrite <- !app_assoc|];
           apply no_failed_hook_app; [apply no_failed_hook_describe|];
           apply no_failed_hook_app; [apply no_failed_hook_call; discriminate | assumption]).
    destruct (retval =? 0) eqn:C; simpl in H.
    + apply Z.eqb_eq in C. subst retval.
      apply IH in H. destruct H as [Hs [batch [-> Hclean]]]. split; [assumption|].
      eexists. split; [now rewrite <- !app_assoc|].
      apply no_failed_hook_app; [apply no_failed_hook_describe|].
      apply no_failed_hook_app; [|assumption].
      apply no_failed_hook_call. intros r Hr. now inversion Hr.
    + apply IH in H. destruct H as [Hs _]. discriminate.
Qed.

(** The custom up check returns only from a pass over the new instances in
    which no hook invocation exited with a non-zero status.  (Instances for
    which the hook could not be run at all do not count, which is where the
    code departs from C3.) *)
Theorem up_check_returns_after_clean_batch
    (fuel : nat) (command : string) (new_instances : list Instance)
    (env : Env) (t t' : Trace)
    (Hreturns : external_health_up_check fuel command new_instances env t = (Ok tt, t')) :
  exists t0 batch,
    t' = t0 ++ batch
    /\ health_up_check_batch command new_instances true env t0 = (Ok true, t')
    /\ no_failed_hook batch.
Proof.
  unfold external_health_up_check in Hreturns.
  apply while_true_returns in Hreturns. destruct Hreturns as [t0 H].
  unfold bind in H.
  destruct (health_up_check_batch command new_instances true env t0)
    as [[[|]|e|c|] t1] eqn:Hbatch; simpl in H; try discriminate.
  unfold break_with, ret in H. inversion H. subst t1.
  destruct (health_up_check_batch_clean _ _ _ _ _ _ Hbatch) as [_ [batch [-> Hclean]]].
  now exists t0, batch.
Qed.

Lemma up_check_returns_after_clean_batch_witness :
  exists t0 batch,
    snd (external_health_up_check 1 "check NEW_INSTANCE_ID"
           [mkInstance "i-c" "Healthy" (Some "lc-2") None] (env_rolling 200) [])
    = t0 ++ batch
    /\ health_up_check_batch "check NEW_INSTANCE_ID"
         [mkInstance "i-c" "Healthy" (Some "lc-2") None] true (env_rolling 200) t0
       = (Ok true,
          snd (external_health_up_check 1 "check NEW_INSTANCE_ID"
                 [mkInstance "i-c" "Healthy" (Some "lc-2") None] (env_rolling 200) []))
    /\ no_failed_hook batch.
Proof.
  apply (up_check_returns_after_clean_batch
           1 "check NEW_INSTANCE_ID" [mkInstance "i-c" "Healthy" (Some "lc-2") None]
           (env_rolling 200) []).
  vm_compute. reflexivity.
Defined.

(** ** Waiting for the replacement *)

Lemma filter_none {A} (f : A -> bool) (l : list A) :
  (forall x, In x l -> f x = false) -> filter f l = [].
Proof.
  intros H. induction l as [|x l IH]; [reflexivity|].
  simpl. rewrite (H x) by now left. apply IH. intros y Hy. apply H. now right.
Qed.

(** The wait for new instances returns only with a list that is not empty:
    the healthy members of the group just polled whose id was not in the
    list the caller holds; while every healthy id is known already it
    sleeps 10 seconds and polls again. *)
Theorem wait_for_new_instances_returns_newcomers
    (fuel : nat) (options : Options) (known : list Instance) (env : Env) (t : Trace) :
  (forall new_instances t',
      wait_for_new_instances fuel options known env t = (Ok new_instances, t') ->
      new_instances <> []
      /\ exists t0 group others,
           t' = t0 ++ [Api (DescribeAutoScalingGroups (opt_autoscaler options))
                           (RGroups (group :: others))]
           /\ new_instances
              = filter (fun instance => negb (id_in instance known))
                       (filter healthy (Instances group)))
  /\ (forall group others,
        env t (DescribeAutoScalingGroups (opt_autoscaler options))
        = RGroups (group :: others) ->
        (forall instance,
            In instance (Instances group) -> HealthStatus instance = "Healthy" ->
            In (InstanceId instance) (map InstanceId known)) ->
        wait_for_new_instances (S fuel) options known env t
        = wait_for_new_instances fuel options known env
            (t ++ [Api (DescribeAutoScalingGroups (opt_autoscaler options))
                       (RGroups (group :: others));
                   Sleep 10])).
Proof.
  split.
  - intros new_instances t' H. unfold wait_for_new_instances in H.
    apply while_true_returns in H. destruct H as [t0 H].
    unfold get_autoscaler_healthy_instances, get_autoscaling_group in H. unfold_monad.
    destruct (env t0 (DescribeAutoScalingGroups (opt_autoscaler options)))
      as [|[|group others]| | | | | |] eqn:E; try discriminate.
    rewrite find_new_filter in H.
    destruct (filter (fun instance => negb (id_in instance known))
                     (filter healthy (Instances group))) as [|x xs] eqn:Hnew;
      simpl in H; [discriminate|].
    inversion H; subst. split; [discriminate|].
    exists t0, group, others. split; [reflexivity | now symmetry].
  - intros group others E Hknown. unfold wait_for_new_instances.
    apply while_true_continues.
    unfold get_autoscaler_healthy_instances, get_autoscaling_group. unfold_monad.
    rewrite E, find_new_filter.
    assert (filter (fun instance => negb (id_in instance known))
                   (filter healthy (Instances group)) = []) as ->.
    { apply filter_none. intros instance Hi.
      apply healthy_members in Hi. destruct Hi as [Hi Hh].
      apply negb_false_iff, id_in_spec. now apply Hknown. }
    simpl. now rewrite <- app_assoc.
Qed.

Lemma wait_for_new_instances_returns_newcomers_witness :
  ([mkInstance "i-b" "Healthy" (Some "lc-2") None] <> []
   /\ exists t0 group others,
        [Api (DescribeAutoScalingGroups "web") (RGroups [fleet []])]
        = t0 ++ [Api (DescribeAutoScalingGroups "web") (RGroups (group :: others))]
        /\ [mkInstance "i-b" "Healthy" (Some "lc-2") None]
           = filter (fun instance =>
                       negb (id_in instance [mkInstance "i-a" "Healthy" (Some "lc-2") None]))
                    (filter healthy (Instances group)))
  /\ wait_for_new_instances 2 plain_options
       [mkInstance "i-1" "Healthy" None None] env_in_service []
     = wait_for_new_instances 1 plain_options
         [mkInstance "i-1" "Healthy" None None] env_in_service
         [Api (DescribeAutoScalingGroups "web") (RGroups [one_instance_group]); Sleep 10].
Proof.
  split.
  - apply (proj1 (wait_for_new_instances_returns_newcomers
                    1 plain_options [mkInstance "i-a" "Healthy" (Some "lc-2") None]
                    (env_rolling 200) [])
             [mkInstance "i-b" "Healthy" (Some "lc-2") None]
             [Api (DescribeAutoScalingGroups "web") (RGroups [fleet []])]).
    vm_compute. reflexivity.
  - apply (proj2 (wait_for_new_instances_returns_newcomers
                    1 plain_options [mkInstance "i-1" "Healthy" None None]
                    env_in_service [])
             one_instance_group []).
    + reflexivity.
    + intros instance [<- | []] _. simpl. auto.
Defined.

(** ** The unused detachment wait *)

(** [wait_for_complete_targetgroup_autoscaler_detachment] returns from an
    iteration exactly when no healthy member of the group is listed by the
    target group, in whatever state: it returns only from such an iteration,
    and from such an iteration it returns at once, without sleeping and,
    unlike the attachment wait, whatever the desired capacity of the group;
    while a healthy member is listed it sleeps 10 seconds and polls again. *)
Theorem targetgroup_detachment_wait_blocks_while_listed
    (fuel : nat) (source autoscaling_group_name : string) (env : Env) (t t' : Trace) :
  (wait_for_complete_targetgroup_autoscaler_detachment
     fuel source autoscaling_group_name env t = (Ok tt, t') ->
   exists t0 target_group group others,
     t' = t0 ++ [Api (DescribeTargetHealth source) (RTargetHealth target_group);
                 Api (DescribeAutoScalingGroups autoscaling_group_name)
                     (RGroups (group :: others))]
     /\ forall instance,
          In instance (Instances group) -> HealthStatus instance = "Healthy" ->
          ~ In (InstanceId instance) (map TargetId target_group))
  /\ (forall target_group group others instance,
        env t (DescribeTargetHealth source) = RTargetHealth target_group ->
        env (t ++ [Api (DescribeTargetHealth source) (RTargetHealth target_group)])
            (DescribeAutoScalingGroups autoscaling_group_name) = RGroups (group :: others) ->
        In instance (Instances group) -> HealthStatus instance = "Healthy" ->
        In (InstanceId instance) (map TargetId target_group) ->
        wait_for_complete_targetgroup_autoscaler_detachment
          (S fuel) source autoscaling_group_name env t
        = wait_for_complete_targetgroup_autoscaler_detachment
            fuel source autoscaling_group_name env
            (t ++ [Api (DescribeTargetHealth source) (RTargetHealth target_group);
                   Api (DescribeAutoScalingGroups autoscaling_group_name)
                       (RGroups (group :: others));
                   Sleep 10]))
  /\ (forall target_group group others,
        env t (DescribeTargetHealth source) = RTargetHealth target_group ->
        env (t ++ [Api (DescribeTargetHealth source) (RTargetHealth target_group)])
            (DescribeAutoScalingGroups autoscaling_group_name) = RGroups (group :: others) ->
        (forall instance,
           In instance (Instances group) -> HealthStatus instance = "Healthy" ->
           ~ In (InstanceId instance) (map TargetId target_group)) ->
        wait_for_complete_targetgroup_autoscaler_detachment
          (S fuel) source autoscaling_group_name env t
        = (Ok tt,
           t ++ [Api (DescribeTargetHealth source) (RTargetHealth target_group);
                 Api (DescribeAutoScalingGroups autoscaling_group_name)
                     (RGroups (group :: others))])).
Proof.
  split; [|split].
  - intros H. apply while_true_returns in H. destruct H as [t0 H].
    unfold describe_target_health, get_autoscaler_healthy_instances,
      get_autoscaling_group in H.
    unfold_monad.
    destruct (env t0 (DescribeTargetHealth source)) as [| | | |tg| | |] eqn:E1;
      try discriminate.
    destruct (env (t0 ++ [Api (DescribeTargetHealth source) (RTargetHealth tg)])
                  (DescribeAutoScalingGroups autoscaling_group_name))
      as [|[|g others]| | | | | |] eqn:E2; try discriminate.
    match type of H with context [if ?c then _ else _] => destruct c eqn:C end;
      try discriminate.
    inversion H; subst. apply Z.eqb_eq in C.
    exists t0, tg, g, others. split; [now rewrite <- app_assoc|].
    intros instance Hin Hh.
    apply (proj1 (count_present_zero _ _) C). apply in_map.
    now apply healthy_members.
  - intros tg g others instance E1 E2 Hin Hh Hlisted.
    unfold wait_for_complete_targetgroup_autoscaler_detachment.
    apply while_true_continues.
    unfold describe_target_health, get_autoscaler_healthy_instances,
      get_autoscaling_group.
    unfold_monad. rewrite E1, E2.
    match goal with |- context [if ?c then _ else _] => destruct c eqn:C end.
    + exfalso. apply Z.eqb_eq in C.
      apply (proj1 (count_present_zero _ _) C (InstanceId instance)); [|assumption].
      apply in_map. now apply healthy_members.
    + now rewrite <- !app_assoc.
  - intros tg g others E1 E2 Hclear.
    unfold wait_for_complete_targetgroup_autoscaler_detachment.
    apply while_true_breaks.
    unfold describe_target_health, get_autoscaler_healthy_instances,
      get_autoscaling_group.
    unfold_monad. rewrite E1, E2.
    match goal with |- context [if ?c then _ else _] => destruct c eqn:C end.
    + now rewrite <- !app_assoc.
    + exfalso. apply Z.eqb_neq in C. apply C.
      apply (proj2 (count_present_zero _ _)).
      intros id Hid. apply in_map_iff in Hid. destruct Hid as [instance [<- Hin]].
      apply filter_In in Hin. destruct Hin as [Hin Hh].
      apply Hclear; [assumption|]. now apply String.eqb_eq.
Qed.

Lemma targetgroup_detachment_wait_blocks_while_listed_witness :
  (exists t0 target_group group others,
     [Api (DescribeTargetHealth "tg") (RTargetHealth []);
      Api (DescribeAutoScalingGroups "web") (RGroups [one_instance_group])]
     = t0 ++ [Api (DescribeTargetHealth "tg") (RTargetHealth target_group);
              Api (DescribeAutoScalingGroups "web") (RGroups (group :: others))]
     /\ forall instance,
          In instance (Instances group) -> HealthStatus instance = "Healthy" ->
          ~ In (InstanceId instance) (map TargetId target_group))
  /\ wait_for_complete_targetgroup_autoscaler_detachment 2 "tg" "web" env_out_of_service []
     = wait_for_complete_targetgroup_autoscaler_detachment 1 "tg" "web" env_out_of_service
         [Api (DescribeTargetHealth "tg")
              (RTargetHealth [mkTargetHealthDescription "i-1" "initial"]);
          Api (DescribeAutoScalingGroups "web") (RGroups [one_instance_group]);
          Sleep 10]
  /\ wait_for_complete_targetgroup_autoscaler_detachment 1 "tg" "web"
       env_launching_detached []
     = (Ok tt,
        [Api (DescribeTargetHealth "tg")
             (RTargetHealth [mkTargetHealthDescription "i-2" "draining"]);
         Api (DescribeAutoScalingGroups "web") (RGroups [launching_group])]).
Proof.
  split; [|split].
  - apply (proj1 (targetgroup_detachment_wait_blocks_while_listed
                    1 "tg" "web" env_group_without_targets [] _)).
    reflexivity.
  - apply (proj1 (proj2 (targetgroup_detachment_wait_blocks_while_listed
                           1 "tg" "web" env_out_of_service [] [])))
      with (instance := mkInstance "i-1" "Healthy" (Some "lc-1") None).
    + reflexivity.
    + reflexivity.
    + simpl; auto.
    + reflexivity.
    + simpl; auto.
  - apply (proj2 (proj2 (targetgroup_detachment_wait_blocks_while_listed
                           0 "tg" "web" env_launching_detached [] []))).
    + reflexivity.
    + reflexivity.
    + intros instance [<- | [<- | []]] Hh [Hid | []]; discriminate.
Defined.

(** ** The mutating requests of a run *)

Lemma mutation_calls_app (t l : Trace) :
  mutation_calls (t ++ l) = mutation_calls t ++ mutation_calls l.
Proof. unfold mutation_calls. apply flat_map_app. Qed.

(** *** Silent computations *)

Lemma silent_ret {A} (a : A) : silent (ret a).
Proof. intros env t. simpl. auto. Qed.

Lemma silent_raise {A} (e : Exn) : silent (@raise A e).
Proof. intros env t. simpl. auto. Qed.

Lemma silent_exit_1 {A} : silent (@exit A 1).
Proof. intros env t. simpl. auto. Qed.

Lemma silent_out_of_fuel {A} : silent (@out_of_fuel A).
Proof. intros env t. simpl. auto. Qed.

Lemma silent_api (c : Call) : mutating c = false -> silent (api c).
Proof.
  intros H env t. simpl. rewrite mutation_calls_app. simpl. rewrite H.
  now rewrite app_nil_r.
Qed.

Lemma silent_time_sleep (seconds : Z) : silent (time_sleep seconds).
Proof.
  intros env t. simpl. rewrite mutation_calls_app. simpl. now rewrite app_nil_r.
Qed.

Lemma silent_bind {A B} (m : M A) (k : A -> M B) :
  silent m -> (forall a, silent (k a)) -> silent (bind m k).
Proof.
  intros Hm Hk env t. unfold bind.
  destruct (Hm env t) as [Ht Hp].
  destruct (m env t) as [[a|e|c|] t1]; simpl in *; auto.
  destruct (Hk a env t1) as [Ht1 Hp1]. rewrite Ht1. auto.
Qed.

Lemma silent_try_except {A} (m h : M A) :
  silent m -> silent h -> silent (try_except m h).
Proof.
  intros Hm Hh env t. unfold try_except.
  destruct (Hm env t) as [Ht Hp].
  destruct (m env t) as [[a|e|c|] t1]; simpl in *; auto;
    destruct (Hh env t1) as [Ht1 Hp1]; rewrite Ht1; auto.
Qed.

Lemma silent_for_each {A} (xs : list A) (body : A -> M unit) :
  (forall x, silent (body x)) -> silent (for_each xs body).
Proof.
  intros H. induction xs as [|x xs IH]; simpl.
  - apply silent_ret.
  - apply silent_bind; auto.
Qed.

Lemma silent_while_true {A} (fuel : nat) (body : M (option A)) :
  silent body -> silent (while_true fuel body).
Proof.
  intros H. induction fuel as [|fuel IH]; simpl.
  - apply silent_out_of_fuel.
  - apply silent_bind; [assumption|]. intros [a|]; [apply silent_ret | assumption].
Qed.

Create HintDb silent.

Ltac silent_step :=
  first
    [ apply silent_ret
    | apply silent_raise
    | apply silent_exit_1
    | apply silent_out_of_fuel
    | apply silent_time_sleep
    | apply silent_api; reflexivity
    | solve [auto with silent nocore]
    | apply silent_bind; [|intros]
    | apply silent_try_except
    | apply silent_for_each; intros
    | apply silent_while_true
    | match goal with
      | |- silent (if ?b then _ else _) => destruct b
      | |- silent (match ?x with _ => _ end) => destruct x
      end ].

Ltac silent_tac := unfold break_with, continue; repeat silent_step.

Lemma silent_http_status_code (r : Resp) : silent (http_status_code r).
Proof. unfold http_status_code. silent_tac. Qed.
#[local] Hint Resolve silent_http_status_code : silent.

Lemma silent_get_load_balancer (name : string) : silent (get_load_balancer name).
Proof. unfold get_load_balancer. silent_tac. Qed.
#[local] Hint Resolve silent_get_load_balancer : silent.

Lemma silent_get_autoscaling_group (name : string) : silent (get_autoscaling_group name).
Proof. unfold get_autoscaling_group. silent_tac. Qed.
#[local] Hint Resolve silent_get_autoscaling_group : silent.

Lemma silent_get_autoscaling_group_configuration (autoscaler : AutoScalingGroup) :
  silent (get_autoscaling_group_configuration autoscaler).
Proof. unfold get_autoscaling_group_configuration. silent_tac. Qed.
#[local] Hint Resolve silent_get_autoscaling_group_configuration : silent.

Lemma silent_get_instance_configuration (instance : Instance) :
  silent (get_instance_configuration instance).
Proof. unfold get_instance_configuration. silent_tac. Qed.
#[local] Hint Resolve silent_get_instance_configuration : silent.

Lemma silent_get_instances_to_skip (instances : list Instance) (autoscaler : AutoScalingGroup) :
  silent (get_instances_to_skip instances autoscaler).
Proof. induction instances as [|i rest IH]; simpl; silent_tac. Qed.
#[local] Hint Resolve silent_get_instances_to_skip : silent.

Lemma silent_remove_all (instances_to_skip instances_to_kill : list Instance) :
  silent (remove_all instances_to_skip instances_to_kill).
Proof.
  revert instances_to_kill.
  induction instances_to_skip as [|i rest IH]; intros kill; simpl; silent_tac.
Qed.
#[local] Hint Resolve silent_remove_all : silent.

Lemma silent_get_suspended_processes (x : string + AutoScalingGroup) :
  silent (get_suspended_processes x).
Proof. unfold get_suspended_processes. silent_tac. Qed.
#[local] Hint Resolve silent_get_suspended_processes : silent.

Lemma silent_describe_instance (instance_id : string) : silent (describe_instance instance_id).
Proof. unfold describe_instance. silent_tac. Qed.
#[local] Hint Resolve silent_describe_instance : silent.

Lemma silent_get_autoscaler_healthy_instances (x : string + AutoScalingGroup) :
  silent (get_autoscaler_healthy_instances x).
Proof. unfold get_autoscaler_healthy_instances. silent_tac. Qed.
#[local] Hint Resolve silent_get_autoscaler_healthy_instances : silent.

Lemma silent_get_number_of_autoscaler_healthy_instances (x : string + AutoScalingGroup) :
  silent (get_number_of_autoscaler_healthy_instances x).
Proof. unfold get_number_of_autoscaler_healthy_instances. silent_tac. Qed.
#[local] Hint Resolve silent_get_number_of_autoscaler_healthy_instances : silent.

Lemma silent_check_if_autoscaler_is_scaling (name : string) :
  silent (check_if_autoscaler_is_scaling name).
Proof. unfold check_if_autoscaler_is_scaling. silent_tac. Qed.
#[local] Hint Resolve silent_check_if_autoscaler_is_scaling : silent.

Lemma silent_wait_for_autoscaler_to_have_healthy_desired_instances
    (fuel : nat) (x : string + AutoScalingGroup) :
  silent (wait_for_autoscaler_to_have_healthy_desired_instances fuel x).
Proof. unfold wait_for_autoscaler_to_have_healthy_desired_instances. silent_tac. Qed.
#[local] Hint Resolve silent_wait_for_autoscaler_to_have_healthy_desired_instances : silent.

Lemma silent_describe_target_health (arn : string) : silent (describe_target_health arn).
Proof. unfold describe_target_health. silent_tac. Qed.
#[local] Hint Resolve silent_describe_target_health : silent.

Lemma silent_get_instance_ids_of_target_group (arn : string) :
  silent (get_instance_ids_of_target_group arn).
Proof. unfold get_instance_ids_of_target_group. silent_tac. Qed.
#[local] Hint Resolve silent_get_instance_ids_of_target_group : silent.

Lemma silent_get_instance_ids_of_load_balancer (x : string + LoadBalancerDescription) :
  silent (get_instance_ids_of_load_balancer x).
Proof. unfold get_instance_ids_of_load_balancer. silent_tac. Qed.
#[local] Hint Resolve silent_get_instance_ids_of_load_balancer : silent.

Lemma silent_describe_instance_health (name : string) (instances : list string) :
  silent (describe_instance_health name instances).
Proof. unfold describe_instance_health. silent_tac. Qed.
#[local] Hint Resolve silent_describe_instance_health : silent.

Lemma silent_wait_for_complete_targetgroup_autoscaler_attachment
    (fuel : nat) (arn name : string) :
  silent (wait_for_complete_targetgroup_autoscaler_attachment fuel arn name).
Proof. unfold wait_for_complete_targetgroup_autoscaler_attachment. silent_tac. Qed.
#[local] Hint Resolve silent_wait_for_complete_targetgroup_autoscaler_attachment : silent.

Lemma silent_wait_for_complete_loadbalancer_autoscaler_attachment
    (fuel : nat) (lb name : string) :
  silent (wait_for_complete_loadbalancer_autoscaler_attachment fuel lb name).
Proof. unfold wait_for_complete_loadbalancer_autoscaler_attachment. silent_tac. Qed.
#[local] Hint Resolve silent_wait_for_complete_loadbalancer_autoscaler_attachment : silent.

Lemma silent_wait_for_instances_to_detach_from_loadbalancer
    (fuel : nat) (instance_ids : list string) (name : string) :
  silent (wait_for_instances_to_detach_from_loadbalancer fuel instance_ids name).
Proof. unfold wait_for_instances_to_detach_from_loadbalancer. silent_tac. Qed.
#[local] Hint Resolve silent_wait_for_instances_to_detach_from_loadbalancer : silent.

Lemma silent_wait_for_instances_to_detach_from_target_group
    (fuel : nat) (instance_ids : list string) (arn : string) :
  silent (wait_for_instances_to_detach_from_target_group fuel instance_ids arn).
Proof. unfold wait_for_instances_to_detach_from_target_group. silent_tac. Qed.
#[local] Hint Resolve silent_wait_for_instances_to_detach_from_target_group : silent.

Lemma silent_wait_for_complete_targetgroup_autoscaler_detachment
    (fuel : nat) (arn name : string) :
  silent (wait_for_complete_targetgroup_autoscaler_detachment fuel arn name).
Proof. unfold wait_for_complete_targetgroup_autoscaler_detachment. silent_tac. Qed.

Lemma silent_call (command : string) : silent (call command).
Proof. unfold call. silent_tac. Qed.
#[local] Hint Resolve silent_call : silent.

Lemma silent_private_ip_address_of (details : option Ec2Instance) :
  silent (private_ip_address_of details).
Proof. unfold private_ip_address_of. silent_tac. Qed.
#[local] Hint Resolve silent_private_ip_address_of : silent.

Lemma silent_health_up_check_batch (command : string) (new_instances : list Instance)
    (succeeded : bool) :
  silent (health_up_check_batch command new_instances succeeded).
Proof.
  revert succeeded. induction new_instances as [|i rest IH]; intros succeeded; simpl;
    silent_tac.
Qed.
#[local] Hint Resolve silent_health_up_check_batch : silent.

Lemma silent_external_health_up_check (fuel : nat) (command : string)
    (new_instances : list Instance) :
  silent (external_health_up_check fuel command new_instances).
Proof. unfold external_health_up_check. silent_tac. Qed.
#[local] Hint Resolve silent_external_health_up_check : silent.

Lemma silent_run_server_down_command (command : string) (details : option Ec2Instance) :
  silent (run_server_down_command command details).
Proof. unfold run_server_down_command. silent_tac. Qed.
#[local] Hint Resolve silent_run_server_down_command : silent.

Lemma silent_wait_for_attachments (fuel : nat) (options : Options)
    (autoscaler : AutoScalingGroup) :
  silent (wait_for_attachments fuel options autoscaler).
Proof. unfold wait_for_attachments. silent_tac. Qed.
#[local] Hint Resolve silent_wait_for_attachments : silent.

Lemma silent_wait_for_new_instances (fuel : nat) (options : Options)
    (current_instance_list : list Instance) :
  silent (wait_for_new_instances fuel options current_instance_list).
Proof. unfold wait_for_new_instances. silent_tac. Qed.
#[local] Hint Resolve silent_wait_for_new_instances : silent.

Lemma silent_wait_for_instance_removal (fuel : nat) (autoscaler : AutoScalingGroup)
    (instance : Instance) :
  silent (wait_for_instance_removal fuel autoscaler instance).
Proof. unfold wait_for_instance_removal. silent_tac. Qed.
#[local] Hint Resolve silent_wait_for_instance_removal : silent.

Lemma silent_wait_for_detachments (fuel : nat) (autoscaler : AutoScalingGroup)
    (instance_ids : list string) :
  silent (wait_for_detachments fuel autoscaler instance_ids).
Proof. unfold wait_for_detachments. silent_tac. Qed.
#[local] Hint Resolve silent_wait_for_detachments : silent.

(** *** Sequences of mutating requests *)

Lemma proper_returned_or_stopped {A} (o : Outcome A) :
  proper o -> returned o \/ stopped o.
Proof. destruct o; simpl; auto. Qed.

Lemma performs_at_bind {A B} (env : Env) (t : Trace)
    (F : Outcome A -> Prop) (F' : Outcome B -> Prop)
    (calls calls' : list Call) (m : M A) (k : A -> M B) :
  (forall x, F x -> returned x) ->
  performs_at env t F calls m ->
  (forall a t1, m env t = (Ok a, t1) -> F (Ok a) -> performs_at env t1 F' calls' (k a)) ->
  performs_at env t F' (calls ++ calls') (bind m k).
Proof.
  intros HF (made & Ht & [later Hlater] & Hend) Hk. unfold performs_at, bind.
  destruct (m env t) as [[a|e|c|] t1] eqn:E; simpl in *.
  - destruct Hend as [[] | [-> Ha]].
    destruct (Hk a t1 eq_refl Ha) as (made' & Ht' & [later' Hlater'] & Hend').
    exists (calls ++ made'). split; [now rewrite Ht', Ht, app_assoc|]. split.
    + exists later'. now rewrite Hlater', app_assoc.
    + destruct Hend' as [Hs | [-> Hf]]; auto.
  - exists made. split; [assumption|]. split.
    + exists (later ++ calls'). now rewrite Hlater, app_assoc.
    + now left.
  - exists made. split; [assumption|]. split.
    + exists (later ++ calls'). now rewrite Hlater, app_assoc.
    + left. destruct Hend as [Hs | [_ Hf]]; [assumption|]. now apply HF in Hf.
  - exists made. split; [assumption|]. split.
    + exists (later ++ calls'). now rewrite Hlater, app_assoc.
    + now left.
Qed.

Lemma performs_bind {A B} (F : Outcome A -> Prop) (F' : Outcome B -> Prop)
    (calls calls' : list Call) (m : M A) (k : A -> M B) :
  (forall x, F x -> returned x) ->
  performs F calls m ->
  (forall a, F (Ok a) -> performs F' calls' (k a)) ->
  performs F' (calls ++ calls') (bind m k).
Proof.
  intros HF Hm Hk env t. apply performs_at_bind with (F := F); auto.
  intros a t1 _ Ha. now apply Hk.
Qed.

Lemma performs_silent {A} (m : M A) : silent m -> performs returned [] m.
Proof.
  intros H env t. destruct (H env t) as [Ht Hp]. exists []. split.
  - now rewrite app_nil_r.
  - split; [now exists []|].
    destruct (proper_returned_or_stopped _ Hp); auto.
Qed.

Lemma performs_silent_bind {A B} (F : Outcome B -> Prop) (calls : list Call)
    (m : M A) (k : A -> M B) :
  silent m -> (forall a, performs F calls (k a)) -> performs F calls (bind m k).
Proof.
  intros Hm Hk. change calls with ([] ++ calls).
  apply performs_bind with (F := returned); auto using performs_silent.
Qed.

Lemma performs_weaken {A} (F F' : Outcome A -> Prop) (calls : list Call) (m : M A) :
  (forall o, F o -> F' o) -> performs F calls m -> performs F' calls m.
Proof.
  intros HF H env t. destruct (H env t) as (made & Ht & Hlater & Hend).
  exists made. split; [assumption|]. split; [assumption|].
  destruct Hend as [Hs | [Hm Hf]]; auto.
Qed.

Lemma performs_ret {A} (F : Outcome A -> Prop) (a : A) :
  F (Ok a) -> performs F [] (ret a).
Proof.
  intros H env t. exists []. simpl. rewrite app_nil_r. split; [reflexivity|].
  split; [now exists []|]. auto.
Qed.

Lemma performs_exit_0 : performs (fun o => o = Exit 0) [] (@exit unit 0).
Proof.
  intros env t. exists []. simpl. rewrite app_nil_r. split; [reflexivity|].
  split; [now exists []|]. auto.
Qed.

Lemma performs_exit_1 {A} (F : Outcome A -> Prop) : performs F [] (@exit A 1).
Proof.
  intros env t. exists []. simpl. rewrite app_nil_r. split; [reflexivity|].
  split; [now exists []|]. now left.
Qed.

(** A mutating request, and the silent reading of its answer. *)
Lemma performs_request {A} (c : Call) (k : Resp -> M A) :
  mutating c = true ->
  (forall r, silent (k r)) ->
  performs returned [c] (bind (api c) k).
Proof.
  intros Hc Hk env t. unfold performs_at, bind, api.
  destruct (Hk (env t c) env (t ++ [Api c (env t c)])) as [Ht Hp].
  exists [c]. split.
  - rewrite Ht, mutation_calls_app. simpl. now rewrite Hc.
  - split; [now exists []|].
    destruct (proper_returned_or_stopped _ Hp); auto.
Qed.

Ltac request := apply performs_request; [reflexivity | intros; silent_tac].

Lemma performs_update_auto_scaling_group_max_size (name : string) (max_size : Z) :
  performs returned [UpdateAutoScalingGroup name max_size]
    (update_auto_scaling_group_max_size name max_size).
Proof. unfold update_auto_scaling_group_max_size. request. Qed.

Lemma performs_suspend_processes (name : string) (processes : list string) :
  performs returned [SuspendProcesses name processes] (suspend_processes name processes).
Proof. unfold suspend_processes. request. Qed.

Lemma performs_resume_processes (name : string) (processes : list string) :
  performs returned [ResumeProcesses name (Some processes)]
    (resume_processes name processes).
Proof. unfold resume_processes. request. Qed.

Lemma performs_resume_all_processes (name : string) :
  performs returned [ResumeProcesses name None] (resume_all_processes name).
Proof. unfold resume_all_processes. request. Qed.

Lemma performs_deregister_instance_from_load_balancer (instance_id name : string) :
  performs returned [DeregisterInstancesFromLoadBalancer name instance_id]
    (deregister_instance_from_load_balancer instance_id name).
Proof. unfold deregister_instance_from_load_balancer. request. Qed.

Lemma performs_deregister_instance_from_target_group (instance_id arn : string) :
  performs returned [DeregisterTargets arn instance_id]
    (deregister_instance_from_target_group instance_id arn).
Proof. unfold deregister_instance_from_target_group. request. Qed.

Lemma performs_set_desired_capacity (name : string) (desired_capacity : Z) :
  performs returned [SetDesiredCapacity name desired_capacity]
    (set_desired_capacity name desired_capacity).
Proof. unfold set_desired_capacity. request. Qed.

Lemma performs_terminate_instance_in_auto_scaling_group
    (instance_id name : string) (flag : bool) :
  performs returned [TerminateInstanceInAutoScalingGroup instance_id flag]
    (terminate_instance_in_auto_scaling_group instance_id name flag).
Proof. unfold terminate_instance_in_auto_scaling_group. destruct flag; request. Qed.

(** A request whose result the script drops. *)
Lemma performs_then_ret {A B} (c : Call) (m : M A) (b : B) :
  performs returned [c] m ->
  performs (fun o => o = Ok b) [c] (m ;;; ret b).
Proof.
  intros H. change [c] with ([c] ++ []).
  apply performs_bind with (F := returned); auto.
  intros _ _. now apply performs_ret.
Qed.

Lemma performs_for_each {A} (calls : A -> list Call) (xs : list A) (body : A -> M unit) :
  (forall x, performs returned (calls x) (body x)) ->
  performs returned (flat_map calls xs) (for_each xs body).
Proof.
  intros H. induction xs as [|x xs IH]; simpl.
  - now apply performs_ret.
  - apply performs_bind with (F := returned); auto.
Qed.

Lemma flat_map_singleton {A B} (f : A -> B) (l : list A) :
  flat_map (fun x => [f x]) l = map f l.
Proof. induction l as [|x l IH]; simpl; [reflexivity | now rewrite IH]. Qed.

Ltac silent_prefix :=
  repeat (apply performs_silent_bind; [solve [silent_tac] | intro]).

Lemma performs_deregister_instance (autoscaler : AutoScalingGroup) (instance : Instance) :
  performs returned
    (map (fun name => DeregisterInstancesFromLoadBalancer name (InstanceId instance))
         (LoadBalancerNames autoscaler)
     ++ map (fun name => DeregisterTargets name (InstanceId instance))
            (TargetGroupARNs autoscaler))
    (deregister_instance autoscaler instance).
Proof.
  unfold deregister_instance. rewrite <- !flat_map_singleton.
  apply performs_bind with (F := returned); auto.
  - apply performs_for_each. intros name.
    eapply performs_weaken; [|apply performs_then_ret,
                               performs_deregister_instance_from_load_balancer].
    intros o ->. exact I.
  - intros _ _. apply performs_for_each. intros name.
    eapply performs_weaken; [|apply performs_then_ret,
                               performs_deregister_instance_from_target_group].
    intros o ->. exact I.
Qed.

Lemma performs_terminate_instance (options : Options) (count i : nat)
    (instance : Instance) (rest : list Instance) (downscaled : bool) :
  (i + S (length rest))%nat = count ->
  performs (fun o => o = Ok (match rest with [] => true | _ => downscaled end))
    [TerminateInstanceInAutoScalingGroup
       (InstanceId instance) (match rest with [] => true | _ => false end)]
    (terminate_instance options count i instance downscaled).
Proof.
  intros Hcount. unfold terminate_instance.
  destruct (Z.of_nat i + 1 =? Z.of_nat count) eqn:C.
  - apply Z.eqb_eq in C. destruct rest as [|x rest]; [|simpl in Hcount; lia].
    apply performs_then_ret, performs_terminate_instance_in_auto_scaling_group.
  - apply Z.eqb_neq in C. destruct rest as [|x rest]; [simpl in Hcount; lia|].
    apply performs_then_ret, performs_terminate_instance_in_auto_scaling_group.
Qed.

Lemma performs_retire_loop (fuel : nat) (options : Options) (autoscaler : AutoScalingGroup)
    (count : nat) (remaining : list Instance) :
  forall (i : nat) (current_instance_list : list Instance) (downscaled : bool),
    (i + length remaining)%nat = count ->
    performs (fun o => o = Ok (match remaining with [] => downscaled | _ => true end))
      (retire_mutations autoscaler remaining)
      (retire_loop fuel options autoscaler count i remaining current_instance_list
                   downscaled).
Proof.
  induction remaining as [|instance rest IH]; intros i current downscaled Hcount.
  - simpl. now apply performs_ret.
  - simpl retire_loop. cbn [retire_mutations]. silent_prefix.
    rewrite app_assoc.
    apply performs_bind with (F := returned); auto.
    { apply performs_deregister_instance. }
    intros _ _. silent_prefix.
    apply performs_bind
      with (F := fun o => o = Ok (match rest with [] => true | _ => downscaled end)).
    + intros x ->. exact I.
    + apply performs_terminate_instance. simpl in Hcount. lia.
    + intros d Hd. silent_prefix.
      eapply performs_weaken; [|apply IH; simpl in Hcount; lia].
      intros o ->. inversion Hd. now destruct rest.
Qed.

Lemma performs_update_max_size_or_exit (name : string) (max_size : Z) :
  performs (fun o => o = Ok tt) [UpdateAutoScalingGroup name max_size]
    (updated <- update_auto_scaling_group_max_size name max_size ;;
     if updated then ret tt else exit 1).
Proof.
  change [UpdateAutoScalingGroup name max_size]
    with ([UpdateAutoScalingGroup name max_size] ++ []).
  apply performs_bind with (F := returned); auto.
  - apply performs_update_auto_scaling_group_max_size.
  - intros [|] _; [now apply performs_ret | apply performs_exit_1].
Qed.

Lemma performs_rollout (fuel : nat) (options : Options) (g : Globals) :
  performs (fun o => o = Exit 0) (rollout_mutations options g) (rollout fuel options g).
Proof.
  unfold rollout, rollout_mutations.
  apply performs_bind with (F := fun o => o = Ok tt).
  { intros x ->. exact I. }
  { destruct (instances_to_kill g) as [|instance rest]; simpl.
    - now apply performs_ret.
    - replace (Z.pos (Pos.of_succ_nat (length rest)) >? 0) with true by reflexivity.
      apply performs_then_ret, performs_set_desired_capacity. }
  intros _ _.
  apply performs_bind
    with (F := fun o => o = Ok (match instances_to_kill g with [] => false | _ => true end)).
  { intros x ->. exact I. }
  { now apply performs_retire_loop. }
  intros downscaled Hd. inversion Hd as [Hdown]. clear Hd.
  apply performs_silent_bind; [silent_tac|]. intros _.
  apply performs_bind with (F := fun o => o = Ok tt).
  { intros x ->. exact I. }
  { destruct (instances_to_kill g) as [|instance rest]; simpl.
    - apply performs_then_ret, performs_set_desired_capacity.
    - now apply performs_ret. }
  intros _ _.
  apply performs_bind with (F := fun o => o = Ok tt).
  { intros x ->. exact I. }
  { destruct (opt_force options).
    - apply performs_then_ret, performs_resume_all_processes.
    - apply performs_then_ret, performs_resume_processes. }
  intros _ _.
  rewrite <- (app_nil_r (if autoscaler_old_max_size g =? _ then _ else _)).
  apply performs_bind with (F := fun o => o = Ok tt).
  { intros x ->. exact I. }
  { destruct (autoscaler_old_max_size g =? autoscaler_old_desired_capacity g).
    - apply performs_update_max_size_or_exit.
    - now apply performs_ret. }
  intros _ _. apply performs_exit_0.
Qed.

Lemma performs_prepare_group (fuel : nat) (options : Options) (group : AutoScalingGroup) :
  performs (fun o => exists g, o = Ok g
                               /\ autoscaler_old_max_size g = MaxSize group
                               /\ autoscaler_old_desired_capacity g = DesiredCapacity group)
    (prepare_mutations options group)
    (prepare_group fuel options group).
Proof.
  unfold prepare_group, prepare_mutations, prepare_calls. cbv zeta.
  apply performs_bind with (F := fun o => o = Ok tt).
  { intros x ->. exact I. }
  { destruct (MaxSize group =? DesiredCapacity group).
    - apply performs_update_max_size_or_exit.
    - now apply performs_ret. }
  intros _ _.
  apply performs_bind with (F := returned); auto.
  { destruct (opt_force options).
    - eapply performs_weaken; [|apply performs_then_ret, performs_resume_all_processes].
      intros o ->. exact I.
    - apply performs_silent. silent_tac. }
  intros _ _.
  rewrite <- (app_nil_r [SuspendProcesses _ _]).
  apply performs_bind with (F := returned); auto.
  { apply performs_suspend_processes. }
  intros _ _. silent_prefix.
  apply performs_ret. eexists. split; [reflexivity|]. split; reflexivity.
Qed.

(** *** The whole run *)

(** The mutating requests of a run whose preparation returned [g]. *)
Lemma run_performs
    (fuel : nat) (options : Options) (env : Env) (g : Globals) (t1 : Trace) :
  prepare fuel options env [] = (Ok g, t1) ->
  exists group others,
    env [] (DescribeAutoScalingGroups (opt_autoscaler options)) = RGroups (group :: others)
    /\ autoscaler_old_max_size g = MaxSize group
    /\ autoscaler_old_desired_capacity g = DesiredCapacity group
    /\ performs_at env [] (fun o => o = Exit 0)
                   (prepare_mutations options group ++ rollout_mutations options g)
                   (script fuel options).
Proof.
  intros Hprepared.
  destruct (prepare_returned fuel options env g t1 Hprepared) as [Hname [group [others E]]].
  exists group, others. split; [assumption|].
  pose proof (performs_prepare_group fuel options group env
                [Api (DescribeAutoScalingGroups (opt_autoscaler options))
                     (RGroups (group :: others))]) as Hp.
  unfold performs_at in Hp.
  rewrite <- (prepare_found fuel options env group others Hname E) in Hp.
  assert (autoscaler_old_max_size g = MaxSize group
          /\ autoscaler_old_desired_capacity g = DesiredCapacity group) as [Hmax Hdesired].
  { destruct Hp as (made & _ & _ & Hend). rewrite Hprepared in Hend. simpl in Hend.
    destruct Hend as [[] | [_ [g' [Hg' H]]]]. inversion Hg'. now subst. }
  split; [assumption|]. split; [assumption|].
  unfold script.
  apply performs_at_bind
    with (F := fun o => exists g, o = Ok g
                                  /\ autoscaler_old_max_size g = MaxSize group
                                  /\ autoscaler_old_desired_capacity g
                                     = DesiredCapacity group).
  - intros x [g' [-> _]]. exact I.
  - exact Hp.
  - intros g' t1' Hg' _. rewrite Hprepared in Hg'. inversion Hg'. subst.
    apply performs_rollout.
Qed.

(** What [performs_at] says of the requests made from an empty history. *)
Lemma performs_at_made {A} (env : Env) (F : Outcome A -> Prop) (calls : list Call)
    (m : M A) :
  performs_at env [] F calls m ->
  (exists later, calls = mutation_calls (snd (m env [])) ++ later)
  /\ (~ stopped (fst (m env [])) -> mutation_calls (snd (m env [])) = calls).
Proof.
  intros (made & Ht & Hlater & Hend). simpl in Ht. rewrite Ht. split; [assumption|].
  intros Hns. destruct Hend as [Hs | [Hm _]]; [contradiction | assumption].
Qed.

(** Every mutating request of a run, in order.  For a run whose preparation
    chose the instances to retire, the mutating requests made are always the
    first ones of: the max size raised by one if the group was at its max
    size; under [--force] all processes resumed; the three ancillary
    processes suspended; the desired capacity raised by one if there is an
    instance to retire; for each instance to retire, in order, its
    de-registration from every load balancer and every target group followed
    by its termination, the last one with the decrement; the desired
    capacity set back if nothing was retired; the processes resumed; the max
    size set back if it was raised.  A run that ends with [exit(0)] has made
    exactly these requests. *)
Theorem run_mutations_in_order
    (fuel : nat) (options : Options) (env : Env) (g : Globals) (t1 : Trace)
    (Hprepared : prepare fuel options env [] = (Ok g, t1)) :
  exists group others,
    env [] (DescribeAutoScalingGroups (opt_autoscaler options)) = RGroups (group :: others)
    /\ autoscaler_old_max_size g = MaxSize group
    /\ autoscaler_old_desired_capacity g = DesiredCapacity group
    /\ (exists later,
          prepare_mutations options group ++ rollout_mutations options g
          = mutation_calls (snd (run fuel options env)) ++ later)
    /\ (fst (run fuel options env) = Exit 0 ->
        mutation_calls (snd (run fuel options env))
        = prepare_mutations options group ++ rollout_mutations options g).
Proof.
  destruct (run_performs fuel options env g t1 Hprepared)
    as (group & others & E & Hmax & Hdesired & Hp).
  apply performs_at_made in Hp. destruct Hp as [Hprefix Hall].
  exists group, others.
  split; [assumption|]. split; [assumption|]. split; [assumption|].
  split; [exact Hprefix|].
  intros Hexit. apply Hall. unfold run in Hexit. rewrite Hexit. simpl. discriminate.
Qed.

Lemma run_mutations_in_order_witness :
  mutation_calls (snd (run 3 plain_options (env_rolling 200)))
  = [UpdateAutoScalingGroup "web" 3;
     SuspendProcesses "web" suspend_new_processes;
     SetDesiredCapacity "web" 3;
     DeregisterInstancesFromLoadBalancer "lb" "i-a";
     DeregisterTargets "tg" "i-a";
     TerminateInstanceInAutoScalingGroup "i-a" false;
     DeregisterInstancesFromLoadBalancer "lb" "i-b";
     DeregisterTargets "tg" "i-b";
     TerminateInstanceInAutoScalingGroup "i-b" true;
     ResumeProcesses "web" (Some suspend_new_processes);
     UpdateAutoScalingGroup "web" 2].
Proof.
  destruct (run_mutations_in_order
              3 plain_options (env_rolling 200)
              (match fst (prepare 3 plain_options (env_rolling 200) []) with
               | Ok g => g
               | _ => mkGlobals 0 0 one_instance_group [] []
               end)
              (snd (prepare 3 plain_options (env_rolling 200) []))
              ltac:(vm_compute; reflexivity))
    as (group & others & E & _ & _ & _ & Hall).
  inversion E. subst group others.
  rewrite Hall by (vm_compute; reflexivity).
  vm_compute. reflexivity.
Defined.

(** *** Consequences *)

Lemma process_calls_of_retire_mutations (autoscaler : AutoScalingGroup)
    (remaining : list Instance) :
  filter (fun c => match c with
                   | SuspendProcesses _ _ | ResumeProcesses _ _ => true
                   | _ => false
                   end) (retire_mutations autoscaler remaining) = [].
Proof.
  induction remaining as [|instance rest IH]; [reflexivity|].
  cbn [retire_mutations]. rewrite !filter_app, IH, app_nil_r.
  assert (forall (f : string -> Call) (l : list string),
             (forall x, match f x with
                        | SuspendProcesses _ _ | ResumeProcesses _ _ => true
                        | _ => false
                        end = false) ->
             filter (fun c => match c with
                              | SuspendProcesses _ _ | ResumeProcesses _ _ => true
                              | _ => false
                              end) (map f l) = []) as Hmap.
  { intros f l Hf. induction l as [|x l IHl]; [reflexivity|]. simpl. now rewrite Hf. }
  rewrite !Hmap by reflexivity. reflexivity.
Qed.

(** In a run that completes, what was suspended is resumed: without
    [--force] the process requests are the suspension of the three
    ancillary processes and, after the last termination, their resumption;
    with [--force] all processes are resumed first and last. *)
Theorem processes_resumed_by_completed_run
    (fuel : nat) (options : Options) (env : Env) (g : Globals) (t1 : Trace)
    (Hprepared : prepare fuel options env [] = (Ok g, t1))
    (Hcompleted : fst (run fuel options env) = Exit 0) :
  process_calls (snd (run fuel options env))
  = if opt_force options
    then [ResumeProcesses (opt_autoscaler options) None;
          SuspendProcesses (opt_autoscaler options) suspend_new_processes;
          ResumeProcesses (opt_autoscaler options) None]
    else [SuspendProcesses (opt_autoscaler options) suspend_new_processes;
          ResumeProcesses (opt_autoscaler options) (Some suspend_new_processes)].
Proof.
  destruct (run_performs fuel options env g t1 Hprepared)
    as (group & others & _ & _ & _ & Hp).
  apply performs_at_made in Hp. destruct Hp as [_ Hall].
  unfold process_calls. unfold run in *. rewrite Hall by (rewrite Hcompleted; discriminate).
  unfold prepare_mutations, rollout_mutations, prepare_calls.
  rewrite !filter_app, process_calls_of_retire_mutations.
  destruct (MaxSize group =? DesiredCapacity group);
    destruct (autoscaler_old_max_size g =? autoscaler_old_desired_capacity g);
    destruct (instances_to_kill g); destruct (opt_force options); reflexivity.
Qed.

Lemma processes_resumed_by_completed_run_witness :
  process_calls (snd (run 3 plain_options (env_rolling 200)))
  = [SuspendProcesses "web" suspend_new_processes;
     ResumeProcesses "web" (Some suspend_new_processes)].
Proof.
  apply (processes_resumed_by_completed_run
           3 plain_options (env_rolling 200)
           (match fst (prepare 3 plain_options (env_rolling 200) []) with
            | Ok g => g
            | _ => mkGlobals 0 0 one_instance_group [] []
            end)
           (snd (prepare 3 plain_options (env_rolling 200) []))).
  - vm_compute. reflexivity.
  - vm_compute. reflexivity.
Defined.

Lemma split_at_first {A} (P : A -> Prop) (p : list A) :
  forall (x : A) (s b : list A) (y : A) (r : list A),
    (forall c, In c p -> ~ P c) -> P y ->
    p ++ x :: s = b ++ y :: r ->
    (b = p /\ x = y /\ s = r) \/ (exists b', b = p ++ x :: b' /\ s = b' ++ y :: r).
Proof.
  induction p as [|c p IH]; intros x s b y r Hp Hy H.
  - destruct b as [|z b]; simpl in H; inversion H; subst.
    + now left.
    + right. now exists b.
  - destruct b as [|z b]; simpl in H; inversion H; subst.
    + exfalso. apply (Hp y); [now left | assumption].
    + destruct (IH x s b y r) as [[-> [-> ->]] | [b' [-> ->]]]; auto.
      * intros c Hc. apply Hp. now right.
      * right. now exists b'.
Qed.

Lemma deregistered_before_terminated (autoscaler : AutoScalingGroup)
    (remaining : list Instance) :
  forall (pre post before : list Call) (id : string) (flag : bool) (rest : list Call),
    (forall c, In c pre -> ~ is_termination c) ->
    (forall c, In c post -> ~ is_termination c) ->
    pre ++ retire_mutations autoscaler remaining ++ post
    = before ++ TerminateInstanceInAutoScalingGroup id flag :: rest ->
    (forall name, In name (LoadBalancerNames autoscaler) ->
                  In (DeregisterInstancesFromLoadBalancer name id) before)
    /\ (forall arn, In arn (TargetGroupARNs autoscaler) ->
                    In (DeregisterTargets arn id) before).
Proof.
  induction remaining as [|instance l IH]; intros pre post before id flag rest Hpre Hpost H.
  - exfalso. simpl in H.
    assert (In (TerminateInstanceInAutoScalingGroup id flag) (pre ++ post)) as Hin.
    { rewrite H. apply in_or_app. right. now left. }
    apply in_app_or in Hin. destruct Hin as [Hin | Hin];
      [apply (Hpre _ Hin) | apply (Hpost _ Hin)]; now exists id, flag.
  - cbn [retire_mutations] in H.
    set (lbs := map (fun name => DeregisterInstancesFromLoadBalancer name (InstanceId instance))
                    (LoadBalancerNames autoscaler)) in *.
    set (tgs := map (fun name => DeregisterTargets name (InstanceId instance))
                    (TargetGroupARNs autoscaler)) in *.
    assert ((pre ++ lbs ++ tgs)
              ++ TerminateInstanceInAutoScalingGroup
                   (InstanceId instance) (match l with [] => true | _ => false end)
              :: (retire_mutations autoscaler l ++ post)
            = before ++ TerminateInstanceInAutoScalingGroup id flag :: rest) as H'.
    { rewrite <- H. rewrite <- !app_assoc. reflexivity. }
    apply (split_at_first is_termination) in H'.
    + destruct H' as [[-> [Heq _]] | [b' [-> Hrest]]].
      * inversion Heq. subst id. split; intros name Hname; apply in_or_app; right;
          apply in_or_app; [left | right]; try subst lbs; try subst tgs;
          apply in_map_iff; exists name; auto.
      * destruct (IH [] post b' id flag rest ltac:(intros c []) Hpost Hrest) as [Hl Ht].
        split; intros name Hname; apply in_or_app; right; right; auto.
    + intros c Hc [id' [flag' ->]]. apply in_app_or in Hc. destruct Hc as [Hc | Hc].
      * apply (Hpre _ Hc). now exists id', flag'.
      * try subst lbs; try subst tgs. apply in_app_or in Hc.
        destruct Hc as [Hc | Hc]; apply in_map_iff in Hc;
          destruct Hc as [name [Hc _]]; discriminate.
    + now exists id, flag.
Qed.

(** Whenever a run asks for the termination of an instance, it has asked
    before for its de-registration from every load balancer and every
    target group of the group. *)
Theorem deregistration_precedes_termination
    (fuel : nat) (options : Options) (env : Env) (g : Globals) (t1 : Trace)
    (before after : list Call) (id : string) (flag : bool)
    (Hprepared : prepare fuel options env [] = (Ok g, t1))
    (Hterminated : mutation_calls (snd (run fuel options env))
                   = before ++ TerminateInstanceInAutoScalingGroup id flag :: after) :
  (forall name, In name (LoadBalancerNames (autoscaler g)) ->
                In (DeregisterInstancesFromLoadBalancer name id) before)
  /\ (forall arn, In arn (TargetGroupARNs (autoscaler g)) ->
                  In (DeregisterTargets arn id) before).
Proof.
  destruct (run_performs fuel options env g t1 Hprepared)
    as (group & others & _ & _ & _ & Hp).
  apply performs_at_made in Hp. destruct Hp as [[later Hlater] _].
  unfold run in Hterminated. rewrite Hterminated in Hlater. unfold rollout_mutations in Hlater.
  rewrite <- !app_assoc in Hlater. simpl in Hlater.
  set (bump := match instances_to_kill g with
               | [] => []
               | _ => [SetDesiredCapacity (opt_autoscaler options)
                                          (DesiredCapacity (autoscaler g) + 1)]
               end) in *.
  rewrite (app_assoc (prepare_mutations options group) bump) in Hlater.
  apply (deregistered_before_terminated _ _ _ _ _ _ _ _) with (3 := Hlater).
  - intros c Hc [id' [flag' ->]]. unfold prepare_mutations, prepare_calls in Hc.
    subst bump.
    destruct (MaxSize group =? DesiredCapacity group); destruct (opt_force options);
      destruct (instances_to_kill g); simpl in Hc; intuition discriminate.
  - intros c Hc [id' [flag' ->]].
    destruct (autoscaler_old_max_size g =? autoscaler_old_desired_capacity g);
      destruct (opt_force options); destruct (instances_to_kill g);
      simpl in Hc; intuition discriminate.
Qed.

Lemma deregistration_precedes_termination_witness :
  (forall name, In name ["lb"] ->
                In (DeregisterInstancesFromLoadBalancer name "i-b")
                   [UpdateAutoScalingGroup "web" 3;
                    SuspendProcesses "web" suspend_new_processes;
                    SetDesiredCapacity "web" 3;
                    DeregisterInstancesFromLoadBalancer "lb" "i-a";
                    DeregisterTargets "tg" "i-a";
                    TerminateInstanceInAutoScalingGroup "i-a" false;
                    DeregisterInstancesFromLoadBalancer "lb" "i-b";
                    DeregisterTargets "tg" "i-b"])
  /\ (forall arn, In arn ["tg"] ->
                  In (DeregisterTargets arn "i-b")
                     [UpdateAutoScalingGroup "web" 3;
                      SuspendProcesses "web" suspend_new_processes;
                      SetDesiredCapacity "web" 3;
                      DeregisterInstancesFromLoadBalancer "lb" "i-a";
                      DeregisterTargets "tg" "i-a";
                      TerminateInstanceInAutoScalingGroup "i-a" false;
                      DeregisterInstancesFromLoadBalancer "lb" "i-b";
                      DeregisterTargets "tg" "i-b"]).
Proof.
  apply (deregistration_precedes_termination
           3 plain_options (env_rolling 200)
           (match fst (prepare 3 plain_options (env_rolling 200) []) with
            | Ok g => g
            | _ => mkGlobals 0 0 one_instance_group [] []
            end)
           (snd (prepare 3 plain_options (env_rolling 200) []))
           _ [ResumeProcesses "web" (Some suspend_new_processes);
              UpdateAutoScalingGroup "web" 2] "i-b" true).
  - vm_compute. reflexivity.
  - vm_compute. reflexivity.
Defined.

(** ** Validation of the suspended processes *)

(** Without [--force], a group that has one of [Terminate], [Launch],
    [HealthCheck] or [AddToLoadBalancer] suspended ends the run with
    [exit(1)] right after the lookup, or right after the max size was
    raised when the group was at its max size: the raised max size is
    left in place, and no process is suspended or resumed. *)
Theorem suspended_required_process_aborts
    (fuel : nat) (options : Options) (env : Env)
    (group : AutoScalingGroup) (others : list AutoScalingGroup) (process : string)
    (Hforce : opt_force options = false)
    (Hname : opt_autoscaler options <> "")
    (Hfound : env [] (DescribeAutoScalingGroups (opt_autoscaler options))
              = RGroups (group :: others))
    (Hrequired : In process required_processes)
    (Hsuspended : In process (SuspendedProcesses group))
    (Hraised : MaxSize group = DesiredCapacity group ->
               env [Api (DescribeAutoScalingGroups (opt_autoscaler options))
                        (RGroups (group :: others))]
                   (UpdateAutoScalingGroup (opt_autoscaler options) (MaxSize group + 1))
               = RStatus 200) :
  run fuel options env
  = (Exit 1,
     Api (DescribeAutoScalingGroups (opt_autoscaler options)) (RGroups (group :: others))
     :: (if MaxSize group =? DesiredCapacity group
         then [Api (UpdateAutoScalingGroup (opt_autoscaler options) (MaxSize group + 1))
                   (RStatus 200)]
         else [])).
Proof.
  assert (existsb (fun p => str_in p (SuspendedProcesses group)) required_processes = true)
    as Hcheck.
  { apply existsb_exists. exists process. split; [assumption | now apply str_in_In]. }
  unfold run, script. unfold bind at 1.
  rewrite (prepare_found fuel options env group others Hname Hfound).
  unfold prepare_group. cbv zeta. unfold bind at 1.
  destruct (MaxSize group =? DesiredCapacity group) eqn:Heq.
  - apply Z.eqb_eq in Heq.
    unfold update_auto_scaling_group_max_size, http_status_code, get_suspended_processes.
    unfold_monad. rewrite (Hraised Heq), Hforce. cbn -[existsb required_processes].
    now rewrite Hcheck.
  - unfold get_suspended_processes. unfold_monad. rewrite Hforce. cbn -[existsb required_processes].
    now rewrite Hcheck.
Qed.

Lemma suspended_required_process_aborts_witness :
  run 3 plain_options env_launch_suspended
  = (Exit 1,
     [Api (DescribeAutoScalingGroups "web") (RGroups [launch_suspended_group]);
      Api (UpdateAutoScalingGroup "web" 3) (RStatus 200)]).
Proof.
  apply (suspended_required_process_aborts
           3 plain_options env_launch_suspended launch_suspended_group [] "Launch").
  - reflexivity.
  - discriminate.
  - reflexivity.
  - simpl; auto.
  - simpl; auto.
  - reflexivity.
Defined.

(** ** Desired capacity after a rollout *)

Lemma apply_retire_calls (remaining : list Instance) (d : Z) :
  fold_left apply_request (acknowledged (retire_calls remaining)) d
  = match remaining with [] => d | _ => d - 1 end.
Proof.
  revert d. induction remaining as [|instance rest IH]; intros d; [reflexivity|].
  cbn [retire_calls acknowledged map fold_left].
  fold (acknowledged (retire_calls rest)). rewrite IH.
  destruct rest; reflexivity.
Qed.

Lemma desired_capacity_of_retire_calls (remaining : list Instance) :
  flat_map desired_capacity_of (acknowledged (retire_calls remaining)) = [].
Proof. induction remaining as [|x rest IH]; [reflexivity | exact IH]. Qed.

(** A run that retired at least one instance and completed leaves the
    desired capacity the group had when the instances to retire were chosen:
    it was raised by one before the loop and lowered by one with the last
    termination, and no other request touched it. *)
Theorem completed_run_restores_desired_capacity
    (fuel : nat) (options : Options) (env : Env) (g : Globals) (t1 : Trace) (d : Z)
    (Hprepared : prepare fuel options env [] = (Ok g, t1))
    (Hretirees : instances_to_kill g <> [])
    (Hcompleted : fst (run fuel options env) = Exit 0) :
  desired_capacity_after d (snd (run fuel options env)) = DesiredCapacity (autoscaler g)
  /\ desired_capacity_updates (snd (run fuel options env))
     = [(DesiredCapacity (autoscaler g) + 1, RStatus 200)].
Proof.
  destruct (run_issues fuel options env g t1 Hprepared)
    as (group & others & _ & _ & _ & Hi).
  apply issues_complete in Hi; [|rewrite Hcompleted; simpl; discriminate].
  rewrite desired_capacity_after_capacity, desired_capacity_updates_capacity, Hi.
  unfold prepare_calls, rollout_calls, acknowledged.
  rewrite !map_app, !fold_left_app, !flat_map_app.
  fold (acknowledged (retire_calls (instances_to_kill g))).
  rewrite apply_retire_calls.
  rewrite desired_capacity_of_retire_calls.
  destruct (instances_to_kill g) as [|instance rest]; [contradiction|].
  destruct (MaxSize group =? DesiredCapacity group);
    destruct (autoscaler_old_max_size g =? autoscaler_old_desired_capacity g);
    simpl; split; try reflexivity; lia.
Qed.

Lemma completed_run_restores_desired_capacity_witness :
  desired_capacity_after 2 (snd (run 3 plain_options (env_rolling 200))) = 2
  /\ desired_capacity_updates (snd (run 3 plain_options (env_rolling 200)))
     = [(2 + 1, RStatus 200)].
Proof.
  apply (completed_run_restores_desired_capacity
           3 plain_options (env_rolling 200)
           (match fst (prepare 3 plain_options (env_rolling 200) []) with
            | Ok g => g
            | _ => mkGlobals 0 0 one_instance_group [] []
            end)
           (snd (prepare 3 plain_options (env_rolling 200) [])) 2).
  - vm_compute. reflexivity.
  - vm_compute. discriminate.
  - vm_compute. reflexivity.
Defined.

(** ** A rejected termination *)

(** The capacity requests made before one that was not acknowledged were
    all acknowledged, and are the first ones of the expected sequence. *)
Lemma issues_refused {A} (F : Outcome A -> Prop) (calls : list Call) (o : Outcome A)
    (events earlier : list (Call * Resp)) (c : Call) (r : Resp) :
  issues F calls o events -> events = earlier ++ [(c, r)] -> r <> RStatus 200 ->
  earlier = acknowledged (map fst earlier)
  /\ exists later, calls = map fst earlier ++ c :: later.
Proof.
  intros H. revert earlier. induction H; intros earlier Heq Hr.
  - now destruct earlier.
  - now destruct earlier.
  - destruct earlier as [|x earlier].
    + inversion Heq. subst. split; [reflexivity|]. now exists calls.
    + inversion Heq. now destruct earlier.
  - destruct earlier as [|x earlier].
    + inversion Heq. congruence.
    + inversion Heq. subst.
      destruct (IHissues earlier eq_refl Hr) as [Hack [later Hlater]].
      split.
      * simpl. now rewrite <- Hack.
      * exists later. simpl. now rewrite Hlater.
Qed.

(** A position in a list made of three parts, where only the middle part
    holds elements of the kind found at that position. *)
Lemma split_in_the_middle {X} (p : X -> bool) (head middle tail before after : list X) (x : X) :
  before ++ x :: after = head ++ middle ++ tail ->
  p x = true ->
  forallb (fun y => negb (p y)) head = true ->
  forallb (fun y => negb (p y)) tail = true ->
  exists first, before = head ++ first /\ exists rest, middle = first ++ x :: rest.
Proof.
  intros Heq Hx Hhead Htail.
  revert before Heq. induction head as [|h head IH]; intros before Heq; simpl in *.
  - apply app_eq_app in Heq. destruct Heq as [l [[H1 H2] | [H1 H2]]].
    + exfalso. subst tail. rewrite forallb_app in Htail.
      apply andb_true_iff in Htail. destruct Htail as [_ Htail].
      simpl in Htail. rewrite Hx in Htail. discriminate.
    + destruct l as [|y l].
      * exfalso. simpl in H2. subst tail. simpl in Htail. rewrite Hx in Htail.
        discriminate.
      * inversion H2. subst y. exists before. split; [reflexivity|]. now exists l.
  - apply andb_true_iff in Hhead. destruct Hhead as [Hh Hhead].
    destruct before as [|b before]; simpl in Heq; inversion Heq; subst.
    + rewrite Hx in Hh. discriminate.
    + destruct (IH Hhead before H1) as [first [-> Hrest]].
      exists first. auto.
Qed.

(** The terminations before another one of the retire loop carry no
    decrement. *)
Lemma apply_retire_calls_before (remaining : list Instance) :
  forall (first rest : list Call) (c : Call) (d : Z),
    retire_calls remaining = first ++ c :: rest ->
    fold_left apply_request (acknowledged first) d = d
    /\ flat_map desired_capacity_of (acknowledged first) = []
    /\ flat_map max_size_of (acknowledged first) = [].
Proof.
  induction remaining as [|instance remaining IH]; intros first rest c d Heq.
  - now destruct first.
  - destruct first as [|x first]; [auto|].
    simpl in Heq. inversion Heq. subst x.
    destruct remaining as [|next remaining]; [now destruct first|].
    cbn [acknowledged map fold_left flat_map apply_request desired_capacity_of max_size_of app].
    fold (acknowledged first). eapply IH. eassumption.
Qed.

(** A termination the client rejects strands the rollout.  The rejected
    request is the last event of the run, which ends by the uncaught
    [ClientError] with status 1; the [exit(1)] written for a failed
    termination is not reached.  Nothing is put back: the only desired
    capacity request of the run is the raise by one, which the replay of the
    requests leaves in place, also when the rejected termination carried the
    decrement, and the max size, if it was raised, stays raised. *)
Theorem rejected_termination_strands_rollout
    (fuel : nat) (options : Options) (env : Env) (g : Globals) (t1 : Trace) (d : Z)
    (before after : Trace) (instance_id : string) (decrement : bool)
    (Hprepared : prepare fuel options env [] = (Ok g, t1))
    (Hrejected : snd (run fuel options env)
                 = before
                   ++ Api (TerminateInstanceInAutoScalingGroup instance_id decrement)
                          RClientError
                   :: after) :
  after = []
  /\ fst (run fuel options env) = Raise ClientError
  /\ exit_status (fst (run fuel options env)) = Some 1
  /\ desired_capacity_after d (snd (run fuel options env))
     = DesiredCapacity (autoscaler g) + 1
  /\ desired_capacity_updates (snd (run fuel options env))
     = [(DesiredCapacity (autoscaler g) + 1, RStatus 200)]
  /\ max_size_updates (snd (run fuel options env))
     = if autoscaler_old_max_size g =? autoscaler_old_desired_capacity g
       then [(autoscaler_old_max_size g + 1, RStatus 200)]
       else [].
Proof.
  destruct (run_ends_at_rejection fuel options env before after _ Hrejected eq_refl)
    as [Hafter Ho].
  split; [assumption|]. split; [assumption|]. split; [now rewrite Ho|].
  subst after.
  destruct (run_issues fuel options env g t1 Hprepared)
    as (group & others & _ & Hmax & Hdesired & Hi).
  rewrite desired_capacity_after_capacity, desired_capacity_updates_capacity,
    max_size_updates_capacity.
  rewrite Hrejected, capacity_events_app in *. simpl in *.
  destruct (issues_refused _ _ _ _ (capacity_events before) _ RClientError Hi eq_refl)
    as [Hack [later Hcalls]]; [discriminate|].
  assert (prepare_calls options group ++ rollout_calls options g
          = (prepare_calls options group
             ++ match instances_to_kill g with
                | [] => []
                | _ => [SetDesiredCapacity (opt_autoscaler options)
                          (DesiredCapacity (autoscaler g) + 1)]
                end)
            ++ retire_calls (instances_to_kill g)
            ++ (match instances_to_kill g with
                | [] => [SetDesiredCapacity (opt_autoscaler options)
                           (autoscaler_old_desired_capacity g)]
                | _ => []
                end
                ++ (if autoscaler_old_max_size g =? autoscaler_old_desired_capacity g
                    then [UpdateAutoScalingGroup (opt_autoscaler options)
                            (autoscaler_old_max_size g)]
                    else []))) as Hshape
    by (unfold rollout_calls; now rewrite <- !app_assoc).
  rewrite Hshape in Hcalls. symmetry in Hcalls.
  apply split_in_the_middle with (p := is_termination_call) in Hcalls.
  - destruct Hcalls as [first [Hfirst [rest Hretire]]].
    rewrite Hack, Hfirst. unfold acknowledged. rewrite !map_app.
    fold (acknowledged first).
    destruct (apply_retire_calls_before _ _ _ _
                (match instances_to_kill g with
                 | [] => d
                 | _ => DesiredCapacity (autoscaler g) + 1
                 end) Hretire) as (Hfold & Hds & Hms).
    rewrite !fold_left_app, !flat_map_app, Hds, Hms.
    destruct (instances_to_kill g) as [|instance remaining] eqn:Hkill;
      [now destruct first|].
    unfold prepare_calls. rewrite <- Hmax, <- Hdesired.
    destruct (autoscaler_old_max_size g =? autoscaler_old_desired_capacity g);
      simpl in *; rewrite Hfold; destruct decrement; auto.
  - reflexivity.
  - unfold prepare_calls.
    destruct (MaxSize group =? DesiredCapacity group);
      destruct (instances_to_kill g); reflexivity.
  - destruct (instances_to_kill g);
      destruct (autoscaler_old_max_size g =? autoscaler_old_desired_capacity g);
      reflexivity.
Qed.

Lemma rejected_termination_strands_rollout_witness :
  skipn 50 (snd (run 3 plain_options env_last_termination_rejected)) = []
  /\ fst (run 3 plain_options env_last_termination_rejected) = Raise ClientError
  /\ exit_status (fst (run 3 plain_options env_last_termination_rejected)) = Some 1
  /\ desired_capacity_after 2 (snd (run 3 plain_options env_last_termination_rejected))
     = 2 + 1
  /\ desired_capacity_updates (snd (run 3 plain_options env_last_termination_rejected))
     = [(2 + 1, RStatus 200)]
  /\ max_size_updates (snd (run 3 plain_options env_last_termination_rejected))
     = [(2 + 1, RStatus 200)].
Proof.
  apply (rejected_termination_strands_rollout
           3 plain_options env_last_termination_rejected
           (match fst (prepare 3 plain_options env_last_termination_rejected []) with
            | Ok g => g
            | _ => mkGlobals 0 0 one_instance_group [] []
            end)
           (snd (prepare 3 plain_options env_last_termination_rejected [])) 2
           (firstn 49 (snd (run 3 plain_options env_last_termination_rejected)))
           (skipn 50 (snd (run 3 plain_options env_last_termination_rejected)))
           "i-b" true).
  - vm_compute. reflexivity.
  - vm_compute. reflexivity.
Defined.

(** ** The server-down hooks *)

(** The hooks run before and after a server goes down never stop the
    rollout by their exit status: whatever status the command returns, the
    hook step returns (the option help says the deployment halts on a
    non-zero status; the code only logs a warning).  The step does raise,
    without running the command, when the detail of the instance could not
    be read: [TypeError] when [describe_instance] found no instance,
    [KeyError] when the instance has no private address. *)
Theorem down_hook_exit_status_is_ignored
    (command : string) (env : Env) (t : Trace) :
  (forall details ip retval,
      PrivateIpAddress details = Some ip ->
      let tmpcommand :=
        replace "OLD_INSTANCE_PRIVATE_IP_ADDRESS" ip
          (replace "OLD_INSTANCE_ID" (Ec2InstanceId details) command) in
      let tmpcommand :=
        match PublicIpAddress details with
        | Some public_ip => replace "OLD_INSTANCE_PUBLIC_IP_ADDRESS" public_ip tmpcommand
        | None => tmpcommand
        end in
      env t (ShellCall tmpcommand) = RRetval retval ->
      run_server_down_command command (Some details) env t
      = (Ok tt, t ++ [Api (ShellCall tmpcommand) (RRetval retval)]))
  /\ run_server_down_command command None env t = (Raise TypeError, t)
  /\ (forall details,
        PrivateIpAddress details = None ->
        run_server_down_command command (Some details) env t
        = (Raise (KeyError "PrivateIpAddress"), t)).
Proof.
  split; [|split].
  - intros details ip retval Hip tmp1 tmp2 Hcall.
    unfold run_server_down_command, private_ip_address_of, call. unfold_monad.
    rewrite Hip. destruct (PublicIpAddress details); subst tmp1 tmp2; now rewrite Hcall.
  - reflexivity.
  - intros details Hip. unfold run_server_down_command, private_ip_address_of.
    unfold_monad. now rewrite Hip.
Qed.

Lemma down_hook_exit_status_is_ignored_witness :
  run_server_down_command "drain OLD_INSTANCE_ID"
    (Some (mkEc2Instance "i-a" (Some "10.0.0.7") None)) env_hook_fails []
  = (Ok tt, [Api (ShellCall "drain i-a") (RRetval 2)])
  /\ run_server_down_command "drain OLD_INSTANCE_ID"
       (Some (mkEc2Instance "i-a" None None)) env_hook_fails []
     = (Raise (KeyError "PrivateIpAddress"), []).
Proof.
  split.
  - apply (proj1 (down_hook_exit_status_is_ignored "drain OLD_INSTANCE_ID" env_hook_fails [])
             (mkEc2Instance "i-a" (Some "10.0.0.7") None) "10.0.0.7" 2
             eq_refl eq_refl).
  - apply (proj2 (proj2 (down_hook_exit_status_is_ignored
                           "drain OLD_INSTANCE_ID" env_hook_fails []))).
    reflexivity.
Defined.

(** ** Draining a retiree *)

Lemma load_balancer_removal_loop (fuel : nat) (id name : string) (env : Env) :
  forall (t t' : Trace),
    while_true fuel
      (instance_ids <- get_instance_ids_of_load_balancer (inl name) ;;
       if str_in id instance_ids then time_sleep 10 ;;; continue else break_with tt)
      env t = (Ok tt, t') ->
    exists l loadbalancer others,
      t' = t ++ l ++ [Api (DescribeLoadBalancers name)
                          (RLoadBalancers (loadbalancer :: others))]
      /\ ~ In id (LbInstances loadbalancer).
Proof.
  induction fuel as [|fuel IH]; intros t t' H; [discriminate|].
  simpl in H. unfold bind at 1 in H.
  unfold get_instance_ids_of_load_balancer, get_load_balancer in H. unfold_monad.
  destruct (env t (DescribeLoadBalancers name)) as [| |[|lb others]| | | | |] eqn:E;
    try discriminate.
  simpl in H. destruct (str_in id (LbInstances lb)) eqn:Hin; simpl in H.
  - apply IH in H. destruct H as (l & lb' & others' & -> & Hout).
    exists ([Api (DescribeLoadBalancers name) (RLoadBalancers (lb :: others)); Sleep 10] ++ l),
      lb', others'.
    split; [|assumption]. now rewrite <- !app_assoc.
  - inversion H. subst. exists [], lb, others. split; [reflexivity|].
    now apply str_in_not_In.
Qed.

Lemma target_group_removal_loop (fuel : nat) (id arn : string) (env : Env) :
  forall (t t' : Trace),
    while_true fuel
      (instance_ids <- get_instance_ids_of_target_group arn ;;
       if str_in id instance_ids then time_sleep 10 ;;; continue else break_with tt)
      env t = (Ok tt, t') ->
    exists l target_group,
      t' = t ++ l ++ [Api (DescribeTargetHealth arn) (RTargetHealth target_group)]
      /\ ~ In id (map TargetId target_group).
Proof.
  induction fuel as [|fuel IH]; intros t t' H; [discriminate|].
  simpl in H. unfold bind at 1 in H.
  unfold get_instance_ids_of_target_group, describe_target_health in H. unfold_monad.
  destruct (env t (DescribeTargetHealth arn)) as [| | | |tg| | |] eqn:E;
    try discriminate.
  simpl in H. destruct (str_in id (map TargetId tg)) eqn:Hin; simpl in H.
  - apply IH in H. destruct H as (l & tg' & -> & Hout).
    exists ([Api (DescribeTargetHealth arn) (RTargetHealth tg); Sleep 10] ++ l), tg'.
    split; [|assumption]. now rewrite <- !app_assoc.
  - inversion H. subst. exists [], tg. split; [reflexivity|].
    now apply str_in_not_In.
Qed.

Lemma for_each_observes {A} (seen : A -> Trace -> Prop) (body : A -> M unit) (env : Env) :
  (forall x t t', body x env t = (Ok tt, t') ->
                  exists l, t' = t ++ l /\ seen x l) ->
  (forall x l l' l'', seen x l -> seen x (l' ++ l ++ l'')) ->
  forall (xs : list A) (t t' : Trace),
    for_each xs body env t = (Ok tt, t') ->
    exists suffix, t' = t ++ suffix /\ forall x, In x xs -> seen x suffix.
Proof.
  intros Hbody Hmono xs. induction xs as [|x xs IH]; intros t t' H.
  - simpl in H. unfold ret in H. inversion H. subst. exists [].
    split; [now rewrite app_nil_r | intros y []].
  - simpl in H. unfold bind in H.
    destruct (body x env t) as [[[]|e|c|] t1] eqn:E; try discriminate.
    destruct (Hbody x t t1 E) as (l & -> & Hseen).
    destruct (IH _ _ H) as (suffix & -> & Hrest).
    exists (l ++ suffix). split; [now rewrite app_assoc|].
    intros y [<- | Hy].
    + exact (Hmono x l [] suffix Hseen).
    + specialize (Hmono y suffix l [] (Hrest y Hy)). now rewrite app_nil_r in Hmono.
Qed.

(** The drain wait of the retire loop returns only after every load
    balancer and every target group of the group was seen, during the wait,
    not to list the instance any more. *)
Theorem instance_removal_wait_sees_every_source_clear
    (fuel : nat) (autoscaler : AutoScalingGroup) (instance : Instance)
    (env : Env) (t t' : Trace)
    (Hreturns : wait_for_instance_removal fuel autoscaler instance env t = (Ok tt, t')) :
  exists polls,
    t' = t ++ polls
    /\ (forall name, In name (LoadBalancerNames autoscaler) ->
          exists loadbalancer others,
            In (Api (DescribeLoadBalancers name) (RLoadBalancers (loadbalancer :: others)))
               polls
            /\ ~ In (InstanceId instance) (LbInstances loadbalancer))
    /\ (forall arn, In arn (TargetGroupARNs autoscaler) ->
          exists target_group,
            In (Api (DescribeTargetHealth arn) (RTargetHealth target_group)) polls
            /\ ~ In (InstanceId instance) (map TargetId target_group)).
Proof.
  unfold wait_for_instance_removal in Hreturns. unfold bind at 1 in Hreturns.
  match type of Hreturns with
  | context [for_each ?xs ?body env t] =>
      destruct (for_each xs body env t) as [[[]|e|c|] t1] eqn:Hlb; try discriminate
  end.
  apply (for_each_observes
           (fun name l =>
              exists loadbalancer others,
                In (Api (DescribeLoadBalancers name)
                        (RLoadBalancers (loadbalancer :: others))) l
                /\ ~ In (InstanceId instance) (LbInstances loadbalancer))) in Hlb.
  - apply (for_each_observes
             (fun arn l =>
                exists target_group,
                  In (Api (DescribeTargetHealth arn) (RTargetHealth target_group)) l
                  /\ ~ In (InstanceId instance) (map TargetId target_group))) in Hreturns.
    + destruct Hlb as (l1 & -> & Hl1). destruct Hreturns as (l2 & -> & Hl2).
      exists (l1 ++ l2). split; [now rewrite app_assoc|]. split.
      * intros name Hname. destruct (Hl1 name Hname) as (lb & others & Hin & Hout).
        exists lb, others. split; [|assumption]. apply in_or_app. now left.
      * intros arn Harn. destruct (Hl2 arn Harn) as (tg & Hin & Hout).
        exists tg. split; [|assumption]. apply in_or_app. now right.
    + intros arn t0 t0' H. apply target_group_removal_loop in H.
      destruct H as (l & tg & -> & Hout).
      eexists. split; [reflexivity|]. exists tg. split; [|assumption].
      apply in_or_app. right. now left.
    + intros arn l l' l'' (tg & Hin & Hout). exists tg. split; [|assumption].
      apply in_or_app. right. apply in_or_app. now left.
  - intros name t0 t0' H. apply load_balancer_removal_loop in H.
    destruct H as (l & lb & others & -> & Hout).
    eexists. split; [reflexivity|]. exists lb, others. split; [|assumption].
    apply in_or_app. right. now left.
  - intros name l l' l'' (lb & others & Hin & Hout). exists lb, others.
    split; [|assumption]. apply in_or_app. right. apply in_or_app. now left.
Qed.

Lemma instance_removal_wait_sees_every_source_clear_witness :
  exists polls,
    snd (wait_for_instance_removal 1 one_instance_group
           (mkInstance "i-old" "Healthy" None None) env_detached [])
    = [] ++ polls
    /\ (forall name, In name ["lb"] ->
          exists loadbalancer others,
            In (Api (DescribeLoadBalancers name) (RLoadBalancers (loadbalancer :: others)))
               polls
            /\ ~ In "i-old" (LbInstances loadbalancer))
    /\ (forall arn, In arn ["tg"] ->
          exists target_group,
            In (Api (DescribeTargetHealth arn) (RTargetHealth target_group)) polls
            /\ ~ In "i-old" (map TargetId target_group)).
Proof.
  apply (instance_removal_wait_sees_every_source_clear
           1 one_instance_group (mkInstance "i-old" "Healthy" None None) env_detached []).
  reflexivity.
Defined.
